(** * NBER working-paper scraper: a model of [nber_scraper/scraper.py]

    The development embeds the class [NBERScraper] of
    [src/nber_scraper/scraper.py]: the fetch primitive [get_page], the
    extractor [extract_paper_metadata], the two filters
    [matches_search_query] and [matches_date_range], and the backward scan
    [scrape_papers], together with the fragments of Python's [str], [re] and
    [datetime.strptime] they rely on.

    Conventions.
    - A Python [str] is a list of characters; a character is a code point
      below 256 (Rocq's [ascii]), classified as CPython classifies it.
    - A Python [int] is a [Z]; [None]-or-value is an [option].
    - The network, the HTML parser, the clock and the file system are
      oracles gathered in [Env]; what the object mutates is in [State].
    - A Python computation that may raise is a value of [exn + A]; one that
      also touches the state is a value of [M A]. *)

From Stdlib Require Import ZArith NArith Bool List Ascii String Lia.
From Stdlib Require Import Numbers.DecimalString.
Import ListNotations.

Local Open Scope Z_scope.

(** ** Characters and strings *)

Module Str.

Definition str := list ascii.

(** A Python string literal. *)
Definition lit (s : string) : str := list_ascii_of_string s.

Definition code (c : ascii) : N := N_of_ascii c.

Definition in_range (lo hi : N) (c : ascii) : bool :=
  ((lo <=? code c) && (code c <=? hi))%N.

Definition TAB : ascii := ascii_of_N 9.
Definition LF : ascii := ascii_of_N 10.
Definition CR : ascii := ascii_of_N 13.
Definition SP : ascii := ascii_of_N 32.
Definition DQUOTE : ascii := ascii_of_N 34.

(** [str.isspace] on one character, which is also what [\s] matches in a
    [str] pattern: U+0009..U+000D, U+001C..U+001F, U+0020, U+0085, U+00A0. *)
Definition isspace (c : ascii) : bool :=
  in_range 9 13 c || in_range 28 32 c
  || (code c =? 133)%N || (code c =? 160)%N.

(** [\d] in a [str] pattern: the decimal digits. *)
Definition isdigit (c : ascii) : bool := in_range 48 57 c.

Definition is_ascii_alnum (c : ascii) : bool :=
  in_range 48 57 c || in_range 65 90 c || in_range 97 122 c.

(** [\w] in a [str] pattern: alphanumeric ([str.isalnum]) or underscore. *)
Definition isword (c : ascii) : bool :=
  is_ascii_alnum c || (code c =? 95)%N
  || (code c =? 170)%N || (code c =? 178)%N || (code c =? 179)%N
  || (code c =? 181)%N || (code c =? 185)%N || (code c =? 186)%N
  || in_range 188 190 c || in_range 192 214 c
  || in_range 216 246 c || in_range 248 255 c.

(** The lower-case mapping of one character. *)
Definition lower_char (c : ascii) : ascii :=
  if in_range 65 90 c || in_range 192 214 c || in_range 216 222 c
  then ascii_of_N (code c + 32)
  else c.

(** [s.lower()] *)
Definition lower (s : str) : str := map lower_char s.

Fixpoint lstrip (s : str) : str :=
  match s with
  | c :: r => if isspace c then lstrip r else s
  | [] => []
  end.

Definition rstrip (s : str) : str := rev (lstrip (rev s)).

(** [s.strip()] *)
Definition strip (s : str) : str := rstrip (lstrip s).

Definition ascii_eqb (a b : ascii) : bool := Ascii.eqb a b.

Fixpoint eqb (a b : str) : bool :=
  match a, b with
  | [], [] => true
  | x :: a', y :: b' => ascii_eqb x y && eqb a' b'
  | _, _ => false
  end.

(** [c in s] for a one-character [c]. *)
Definition contains (c : ascii) (s : str) : bool := existsb (ascii_eqb c) s.

(** Truthiness of a string: non-empty. *)
Definition truthy (s : str) : bool :=
  match s with [] => false | _ :: _ => true end.

(** Truthiness of an optional string: neither [None] nor empty. *)
Definition otruthy (o : option str) : bool :=
  match o with Some s => truthy s | None => false end.

(** [o or ''] *)
Definition or_empty (o : option str) : str :=
  match o with Some s => if truthy s then s else [] | None => [] end.

(** [str(n)] and the [{n}] of an f-string, for an [int]. *)
Definition of_Z (n : Z) : str := lit (NilZero.string_of_int (Z.to_int n)).

(** Case-insensitive prefix test against a pattern literal. *)
Fixpoint prefix_ci (p s : str) : bool :=
  match p, s with
  | [], _ => true
  | x :: p', y :: s' => ascii_eqb (lower_char x) (lower_char y) && prefix_ci p' s'
  | _ :: _, [] => false
  end.

Fixpoint prefix (p s : str) : bool :=
  match p, s with
  | [], _ => true
  | x :: p', y :: s' => ascii_eqb x y && prefix p' s'
  | _ :: _, [] => false
  end.

End Str.

Import Str.

(** ** Exceptions *)

(** The subclasses of [requests.RequestException] the fetch layer raises. *)
Inductive request_error :=
| ConnectionError
| Timeout
| HTTPError (status : Z).

(** The exceptions the program can meet. The first is
    [requests.RequestException]; the others are subclasses of [Exception]
    that are not request exceptions. *)
Inductive exn :=
| RequestException (e : request_error)
| ValueError
| TypeError
| AttributeError
| OSError
| RuntimeError.

Definition is_request_exception (e : exn) : bool :=
  match e with RequestException _ => true | _ => false end.

(** ** The fragment of [re] the scraper uses *)

Module Re.

(** What a compiled pattern is made of in [matches_search_query]:
    a literal character or the assertion [\b]. *)
Inductive item :=
| Lit (c : ascii)
| WordB.

Definition BACKSLASH : ascii := ascii_of_N 92.

Definition code_in (l : list N) (c : ascii) : bool := existsb (N.eqb (code c)) l.

(** The characters [re.escape] puts a backslash before:
    [()[]{}?*+-|^$\.&~# \t\n\r\v\f]. *)
Definition escape_special (c : ascii) : bool :=
  code_in [40; 41; 91; 93; 123; 125; 63; 42; 43; 45; 124; 94; 36; 92; 46;
           38; 126; 35; 32; 9; 10; 13; 11; 12]%N c.

(** [re.escape(s)] *)
Fixpoint escape (s : str) : str :=
  match s with
  | [] => []
  | c :: r => if escape_special c then BACKSLASH :: c :: escape r
              else c :: escape r
  end.

(** The characters with a meaning of their own in a pattern, the backslash
    apart: [.[{()*+?^$|]. *)
Definition is_meta (c : ascii) : bool :=
  code_in [46; 91; 123; 40; 41; 42; 43; 63; 94; 36; 124]%N c.

(** [re.compile(p)] for the patterns of [matches_search_query]: literal
    characters, escaped non-alphanumeric characters and [\b]. A pattern
    with any other construct is outside this fragment ([None]). *)
Fixpoint compile (p : str) : option (list item) :=
  match p with
  | [] => Some []
  | c :: r =>
      if ascii_eqb c BACKSLASH then
        match r with
        | [] => None
        | e :: r' =>
            if ascii_eqb e "b" then option_map (cons WordB) (compile r')
            else if is_ascii_alnum e then None
            else option_map (cons (Lit e)) (compile r')
        end
      else if is_meta c then None
      else option_map (cons (Lit c)) (compile r)
  end.

Definition oword (o : option ascii) : bool :=
  match o with Some c => isword c | None => false end.

(** [\b] between the character before the position and the one at it. *)
Definition at_boundary (prev : option ascii) (s : str) : bool :=
  xorb (oword prev) (oword (hd_error s)).

(** Matching at one position under [re.IGNORECASE]; [prev] is the
    character before the position. *)
Fixpoint match_here (items : list item) (prev : option ascii) (s : str) : bool :=
  match items with
  | [] => true
  | WordB :: items' => at_boundary prev s && match_here items' prev s
  | Lit c :: items' =>
      match s with
      | t :: s' => ascii_eqb (lower_char c) (lower_char t)
                   && match_here items' (Some t) s'
      | [] => false
      end
  end.

Fixpoint search_from (items : list item) (prev : option ascii) (s : str) : bool :=
  match_here items prev s
  || match s with
     | [] => false
     | t :: s' => search_from items (Some t) s'
     end.

(** [re.search(pattern, s, re.IGNORECASE)] as a truth value. *)
Definition search_ic (pattern s : str) : bool :=
  match compile pattern with
  | Some items => search_from items None s
  | None => false
  end.

(** [re.sub(r'^Abstract:?\s*', '', s, flags=re.IGNORECASE)] *)
Definition sub_abstract_label (s : str) : str :=
  if prefix_ci (lit "Abstract") s then
    let r := skipn 8 s in
    let r := match r with
             | c :: r' => if ascii_eqb c ":" then r' else r
             | [] => r
             end in
    lstrip r
  else s.

Fixpoint sub_whitespace_from (in_run : bool) (s : str) : str :=
  match s with
  | [] => []
  | c :: r =>
      if isspace c then
        if in_run then sub_whitespace_from true r
        else SP :: sub_whitespace_from true r
      else c :: sub_whitespace_from false r
  end.

(** [re.sub(r'\s+', ' ', s)] *)
Definition sub_whitespace (s : str) : str := sub_whitespace_from false s.

(** The end of the fallback pattern: [(?:\n\n|\r\n\r\n|JEL|Keywords|$)],
    case-insensitive, [$] without [re.MULTILINE]. *)
Definition abstract_end (s : str) : bool :=
  prefix [LF; LF] s || prefix [CR; LF; CR; LF] s
  || prefix_ci (lit "JEL") s || prefix_ci (lit "Keywords") s
  || match s with [] => true | [c] => ascii_eqb c LF | _ => false end.

(** The lazy [.{100,2000}?] once its first 100 characters are taken:
    [taken] is what the group holds so far, reversed; [more] how many
    characters it may still take. *)
Fixpoint lazy_dots (more : nat) (taken : str) (s : str) : option str :=
  if abstract_end s then Some (rev taken)
  else match more, s with
       | S more', c :: s' => lazy_dots more' (c :: taken) s'
       | _, _ => None
       end.

(** [(.{100,2000}?)(?:...)] at one position, [re.DOTALL]. *)
Definition abstract_group (s : str) : option str :=
  if (List.length s <? 100)%nat then None
  else lazy_dots 1900 (rev (firstn 100 s)) (skipn 100 s).

(** The greedy [\s*] followed by the group: the longest run first, then
    one character less at a time. *)
Fixpoint spaces_then_group (s : str) : option str :=
  match s with
  | c :: s' =>
      if isspace c then
        match spaces_then_group s' with
        | Some g => Some g
        | None => abstract_group s
        end
      else abstract_group s
  | [] => abstract_group s
  end.

(** [Abstract:?\s*(...)...] at one position. *)
Definition abstract_here (s : str) : option str :=
  if prefix_ci (lit "Abstract") s then
    let r := skipn 8 s in
    match r with
    | c :: r' =>
        if ascii_eqb c ":" then
          match spaces_then_group r' with
          | Some g => Some g
          | None => spaces_then_group r
          end
        else spaces_then_group r
    | [] => spaces_then_group r
    end
  else None.

(** [re.search(r'Abstract:?\s*(.{100,2000}?)(?:\n\n|\r\n\r\n|JEL|Keywords|$)',
    s, re.IGNORECASE | re.DOTALL)], as [group(1)] of the match. *)
Fixpoint search_abstract (s : str) : option str :=
  match abstract_here s with
  | Some g => Some g
  | None => match s with
            | [] => None
            | _ :: s' => search_abstract s'
            end
  end.

End Re.

(** ** The fragment of [datetime] the scraper uses *)

Module Datetime.

(** A [datetime] whose time of day is midnight, as [strptime] returns it
    for a format with only [%Y], [%m] and [%d]. *)
Record datetime := mk_datetime { year : Z; month : Z; day : Z }.

(** [a < b] on two such values. *)
Definition lt (a b : datetime) : bool :=
  (year a <? year b)
  || ((year a =? year b)
      && ((month a <? month b)
          || ((month a =? month b) && (day a <? day b)))).

Definition is_leap (y : Z) : bool :=
  (y mod 4 =? 0) && (negb (y mod 100 =? 0) || (y mod 400 =? 0)).

Definition days_in_month (y m : Z) : Z :=
  if m =? 2 then (if is_leap y then 29 else 28)
  else if (m =? 4) || (m =? 6) || (m =? 9) || (m =? 11) then 30
  else 31.

(** The constructor's range check: [ValueError] for a year outside
    1..9999 or a day the month does not have. *)
Definition make (y m d : Z) : exn + datetime :=
  if (1 <=? y) && (y <=? 9999) && (1 <=? m) && (m <=? 12)
     && (1 <=? d) && (d <=? days_in_month y m)
  then inr (mk_datetime y m d)
  else inl ValueError.

Definition digit_value (c : ascii) : Z := Z.of_N (code c) - 48.

(** [%m]: [1[0-2]|0[1-9]|[1-9]], each alternative with what follows it. *)
Definition month_alts (s : str) : list (Z * str) :=
  match s with
  | a :: b :: r =>
      (if ascii_eqb a "1" && in_range 48 50 b
       then [(10 + digit_value b, r)] else [])
      ++ (if ascii_eqb a "0" && in_range 49 57 b
          then [(digit_value b, r)] else [])
      ++ (if in_range 49 57 a then [(digit_value a, b :: r)] else [])
  | [a] => if in_range 49 57 a then [(digit_value a, [])] else []
  | [] => []
  end.

(** [%d]: [3[0-1]|[1-2]\d|0[1-9]|[1-9]| [1-9]]. *)
Definition day_alts (s : str) : list (Z * str) :=
  match s with
  | a :: b :: r =>
      (if ascii_eqb a "3" && in_range 48 49 b
       then [(30 + digit_value b, r)] else [])
      ++ (if in_range 49 50 a && isdigit b
          then [(10 * digit_value a + digit_value b, r)] else [])
      ++ (if ascii_eqb a "0" && in_range 49 57 b
          then [(digit_value b, r)] else [])
      ++ (if in_range 49 57 a then [(digit_value a, b :: r)] else [])
      ++ (if ascii_eqb a SP && in_range 49 57 b
          then [(digit_value b, r)] else [])
  | [a] => if in_range 49 57 a then [(digit_value a, [])] else []
  | [] => []
  end.

(** The first alternative of the month after which the separator and a
    day match; with the day comes what the match leaves unread. *)
Fixpoint month_sep_day (sep : ascii) (alts : list (Z * str)) : option (Z * Z * str) :=
  match alts with
  | [] => None
  | (m, r) :: alts' =>
      match r with
      | c :: r' =>
          if ascii_eqb c sep then
            match day_alts r' with
            | (d, rest) :: _ => Some (m, d, rest)
            | [] => month_sep_day sep alts'
            end
          else month_sep_day sep alts'
      | [] => month_sep_day sep alts'
      end
  end.

(** [datetime.strptime(s, '%Y' + sep + '%m' + sep + '%d')] for a
    separator that is [/] or [-]: the format's pattern is matched at the
    start of [s], data left unread is a [ValueError], and so is a date that
    does not exist. *)
Definition strptime (sep : ascii) (s : str) : exn + datetime :=
  match s with
  | y1 :: y2 :: y3 :: y4 :: c :: r =>
      if isdigit y1 && isdigit y2 && isdigit y3 && isdigit y4
         && ascii_eqb c sep
      then
        match month_sep_day sep (month_alts r) with
        | Some (m, d, []) =>
            make (1000 * digit_value y1 + 100 * digit_value y2
                  + 10 * digit_value y3 + digit_value y4) m d
        | Some (_, _, _ :: _) => inl ValueError
        | None => inl ValueError
        end
      else inl ValueError
  | _ => inl ValueError
  end.

End Datetime.

(** ** The world around the scraper *)

(** What [session.get] returns: [response.status_code] and
    [response.content]. *)
Record Response := mk_response { status_code : Z; content : str }.

(** An element the parser found in the page; [get_text] is the call
    [element.get_text()]. *)
Record Element := mk_element { get_text : exn + str }.

(** A parsed page, as far as the extractor looks at it.
    - [find_meta n] is [soup.find('meta', attrs={'name': n})]: [None] when
      there is no such tag, else the tag's [content] attribute when it has
      one;
    - [find_all_meta n] is [soup.find_all('meta', attrs={'name': n})];
    - [select_one sel] is [soup.select_one(sel)];
    - [find tag] is [soup.find(tag)].
    Any of the calls may raise. *)
Record Soup := mk_soup {
  find_meta : str -> exn + option (option str);
  find_all_meta : str -> exn + list (option str);
  select_one : str -> exn + option Element;
  find : str -> exn + option Element
}.

(** The oracles. The first argument of the input and output operations is
    the number of such operations performed before, so that the same
    request can be answered differently at different times. *)
Record Env := mk_env {
  session_get : nat -> str -> exn + Response;
  session_head : nat -> str -> exn + Z;
  BeautifulSoup : str -> exn + Soup;
  now_isoformat : nat -> str;
  makedirs : nat -> str -> exn + unit;
  write_file : nat -> str -> exn + unit
}.

(** One extracted paper: the dictionary [paper_data]. *)
Record paper := mk_paper {
  paper_id : str;
  url : str;
  title : option str;
  authors : list str;
  abstract : option str;
  pdf_url : option str;
  publication_date : option str;
  doi : option str;
  scraped_at : str
}.

(** What a file holds once written. *)
Inductive file_data :=
| PdfBytes (b : str)
| JsonPapers (l : list paper).

(** What changes while the scraper runs: the count of input and output
    operations, the time slept in units of [self.delay], the list
    [self.papers], and the files written, the last one first. *)
Record State := mk_state {
  ticks : nat;
  slept : nat;
  papers : list paper;
  files : list (str * file_data)
}.

(** The fields of the object that [__init__] sets and nothing changes. *)
Record NBERScraper := mk_scraper {
  search_query : str;
  base_url : str;
  start_date : option str;
  end_date : option str
}.

(** [NBERScraper(search_query, base_url, start_date=..., end_date=...)] *)
Definition NBERScraper_init (query : str) (base : str)
    (start_d end_d : option str) : NBERScraper :=
  {| search_query := if truthy query then lower query else [];
     base_url := base;
     start_date := start_d;
     end_date := end_d |}.

(** The state [__init__] leaves: [self.papers = []]. *)
Definition init_state : State :=
  {| ticks := 0; slept := 0; papers := []; files := [] |}.

Definition default_base_url : str := lit "https://www.nber.org".

(** ** Computations with state and exceptions *)

Definition M (A : Type) : Type := State -> (exn + A) * State.

Definition ret {A} (a : A) : M A := fun s => (inr a, s).

Definition raise {A} (e : exn) : M A := fun s => (inl e, s).

Definition bind {A B} (c : M A) (k : A -> M B) : M B :=
  fun s => match c s with
           | (inr a, s') => k a s'
           | (inl e, s') => (inl e, s')
           end.

(** A computation that only may raise, run in [M]. *)
Definition lift {A} (r : exn + A) : M A := fun s => (r, s).

(** [try: c  except Exception as e: h e] *)
Definition try_except {A} (c : M A) (h : exn -> M A) : M A :=
  fun s => match c s with
           | (inr a, s') => (inr a, s')
           | (inl e, s') => h e s'
           end.

(** [try: c  except requests.RequestException as e: h e] *)
Definition try_except_request {A} (c : M A) (h : exn -> M A) : M A :=
  try_except c (fun e => if is_request_exception e then h e else raise e).

Declare Scope monad_scope.
Delimit Scope monad_scope with monad.
Notation "x <- c1 ;; c2" := (bind c1 (fun x => c2))
  (at level 61, c1 at next level, right associativity) : monad_scope.
Notation "c1 ;; c2" := (bind c1 (fun _ => c2))
  (at level 61, right associativity) : monad_scope.
Local Open Scope monad_scope.

(** One input or output operation: the oracle is asked at the current
    count, which then advances. *)
Definition io {A} (op : nat -> exn + A) : M A :=
  fun s => (op (ticks s),
            {| ticks := S (ticks s); slept := slept s;
               papers := papers s; files := files s |}).

(** [time.sleep(self.delay * k)] *)
Definition sleep (k : nat) : M unit :=
  fun s => (inr tt,
            {| ticks := ticks s; slept := (slept s + k)%nat;
               papers := papers s; files := files s |}).

(** [self.papers.append(p)] *)
Definition papers_append (p : paper) : M unit :=
  fun s => (inr tt,
            {| ticks := ticks s; slept := slept s;
               papers := papers s ++ [p]; files := files s |}).

(** [self.papers] *)
Definition get_papers : M (list paper) := fun s => (inr (papers s), s).

(** [with open(path, 'wb' or 'w') as f: f.write(...)] *)
Definition write (env : Env) (path : str) (d : file_data) : M unit :=
  io (fun t => write_file env t path) ;;
  (fun s => (inr tt,
             {| ticks := ticks s; slept := slept s;
                papers := papers s; files := (path, d) :: files s |})).

(** ** The fetch primitive *)

(** [response.raise_for_status()] *)
Definition raise_for_status (r : Response) : M unit :=
  if (400 <=? status_code r) && (status_code r <? 600)
  then raise (RequestException (HTTPError (status_code r)))
  else ret tt.

(** The body of the [try] of [get_page]: one attempt. *)
Definition get_page_try (env : Env) (url : str) : M (option Response) :=
  response <- io (fun t => session_get env t url) ;;
  raise_for_status response ;;
  sleep 1 ;;
  ret (Some response).

(** The [for attempt in range(retries)] loop of [get_page] with
    [remaining] attempts to go; the last attempt is the one with none
    after it. When the loop ends without an attempt the method returns
    [None]. *)
Fixpoint get_page_attempts (env : Env) (url : str) (remaining : nat)
    : M (option Response) :=
  match remaining with
  | O => ret None
  | S remaining' =>
      try_except_request
        (get_page_try env url)
        (fun e =>
           match remaining' with
           | O => raise e
           | S _ => sleep 2 ;; get_page_attempts env url remaining'
           end)
  end.

(** [self.get_page(url, retries)] *)
Definition get_page (env : Env) (url : str) (retries : nat) : M (option Response) :=
  get_page_attempts env url retries.

Definition default_retries : nat := 3.

(** ** The extractor *)

(** [meta.get('content', '').strip()] *)
Definition meta_content (m : option str) : str :=
  strip (match m with Some c => c | None => [] end).

(** The value of a field read from one meta tag:
    [m = soup.find('meta', ...)] then, [if m:], its stripped content. *)
Definition meta_field (soup : Soup) (name : str) : M (option str) :=
  m <- lift (find_meta soup name) ;;
  ret (option_map meta_content m).

Definition abstract_selectors : list str :=
  [ lit "div.page-header__intro";
    lit "div.page-header__intro--centered";
    lit "div.abstract-content";
    lit "div.abstract";
    lit "div[class*=" ++ [DQUOTE] ++ lit "abstract" ++ [DQUOTE] ++ lit "]";
    lit "p.abstract";
    lit "section.abstract" ].

(** The text of an element found by a selector, cleaned: stripped, the
    leading label removed, whitespace runs replaced by one space. *)
Definition clean_abstract (text : str) : str :=
  Re.sub_whitespace (Re.sub_abstract_label (strip text)).

(** [for selector in abstract_selectors: ...]: the first selector that
    finds an element sets the abstract and ends the loop. *)
Fixpoint abstract_by_selectors (soup : Soup) (selectors : list str)
    : M (option str) :=
  match selectors with
  | [] => ret None
  | selector :: rest =>
      abstract_elem <- lift (select_one soup selector) ;;
      match abstract_elem with
      | Some elem =>
          abstract_text <- lift (get_text elem) ;;
          ret (Some (clean_abstract abstract_text))
      | None => abstract_by_selectors soup rest
      end
  end.

(** [if not paper_data['abstract']: ...]: the search over the text of
    [main], or of [body] when there is no [main]. *)
Definition abstract_fallback (soup : Soup) (found : option str) : M (option str) :=
  if otruthy found then ret found
  else
    main <- lift (find soup (lit "main")) ;;
    main_content <- match main with
                    | Some _ => ret main
                    | None => lift (find soup (lit "body"))
                    end ;;
    match main_content with
    | Some elem =>
        text_content <- lift (get_text elem) ;;
        match Re.search_abstract text_content with
        | Some group1 => ret (Some (strip group1))
        | None => ret found
        end
    | None => ret found
    end.

Definition paper_url (self : NBERScraper) (paper_number : Z) : str :=
  base_url self ++ lit "/papers/w" ++ of_Z paper_number.

(** The body of the [try] of [extract_paper_metadata]. With no response
    ([get_page] called with no attempt to make) reading
    [response.content] is an [AttributeError]. *)
Definition extract_body (env : Env) (self : NBERScraper) (paper_number : Z)
    : M (option paper) :=
  let url := paper_url self paper_number in
  response <- get_page env url default_retries ;;
  match response with
  | None => raise AttributeError
  | Some response =>
      soup <- lift (BeautifulSoup env (content response)) ;;
      if status_code response =? 404 then ret None
      else
        stamp <- (fun s => (inr (now_isoformat env (ticks s)), s)) ;;
        title_v <- meta_field soup (lit "citation_title") ;;
        author_metas <- lift (find_all_meta soup (lit "citation_author")) ;;
        let authors_v := map meta_content (filter otruthy author_metas) in
        doi_v <- meta_field soup (lit "citation_doi") ;;
        date_v <- meta_field soup (lit "citation_publication_date") ;;
        pdf_v <- meta_field soup (lit "citation_pdf_url") ;;
        by_selector <- abstract_by_selectors soup abstract_selectors ;;
        abstract_v <- abstract_fallback soup by_selector ;;
        ret (Some {| paper_id := lit "w" ++ of_Z paper_number;
                     url := url;
                     title := title_v;
                     authors := authors_v;
                     abstract := abstract_v;
                     pdf_url := pdf_v;
                     publication_date := date_v;
                     doi := doi_v;
                     scraped_at := stamp |})
  end.

(** [self.extract_paper_metadata(paper_number)]: both handlers log the
    error and return [None]. *)
Definition extract_paper_metadata (env : Env) (self : NBERScraper)
    (paper_number : Z) : M (option paper) :=
  try_except (extract_body env self paper_number)
    (fun e => if is_request_exception e then ret None else ret None).

(** ** The filters *)

Definition ai_terms : list str :=
  [ lit "\bai\b";
    lit "\bartificial intelligence\b";
    lit "\bmachine learning\b";
    lit "\bdeep learning\b";
    lit "\bneural network\b";
    lit "\balgorithm\b" ].

(** [rf'\b{escaped_query}\b'] with [escaped_query = re.escape(query)] *)
Definition word_pattern (query : str) : str :=
  lit "\b" ++ Re.escape query ++ lit "\b".

Definition search_terms_for (query_lower : str) : list str :=
  if eqb query_lower (lit "ai") then ai_terms
  else [word_pattern query_lower].

(** [for term in search_terms: if re.search(term, text, re.IGNORECASE):
    return True] *)
Definition any_term_matches (search_terms : list str) (text : str) : bool :=
  existsb (fun term => Re.search_ic term text) search_terms.

(** [self.matches_search_query(paper_data)] *)
Definition matches_search_query (self : NBERScraper) (paper_data : paper) : bool :=
  if negb (truthy (search_query self)) then true
  else
    let query_lower := strip (lower (search_query self)) in
    let search_terms := search_terms_for query_lower in
    let title_l := lower (or_empty (title paper_data)) in
    if any_term_matches search_terms title_l then true
    else
      let abstract_l := lower (or_empty (abstract paper_data)) in
      any_term_matches search_terms abstract_l.

(** How a bound is parsed: [if '/' in bound: strptime(bound, '%Y/%m/%d')
    else: strptime(bound, '%Y-%m-%d')]. *)
Definition parse_bound (bound : str) : exn + Datetime.datetime :=
  if contains "/" bound then Datetime.strptime "/" bound
  else Datetime.strptime "-" bound.

(** The check of the start date: [True] when it returns [False] from the
    method; an exception inside its [try] is passed over. *)
Definition before_start (self : NBERScraper) (paper_date : Datetime.datetime) : bool :=
  match start_date self with
  | Some sd =>
      if truthy sd then
        match parse_bound sd with
        | inr start_dt => Datetime.lt paper_date start_dt
        | inl _ => false
        end
      else false
  | None => false
  end.

(** The check of the end date, likewise. *)
Definition after_end (self : NBERScraper) (paper_date : Datetime.datetime) : bool :=
  match end_date self with
  | Some ed =>
      if truthy ed then
        match parse_bound ed with
        | inr end_dt => Datetime.lt end_dt paper_date
        | inl _ => false
        end
      else false
  | None => false
  end.

(** [self.matches_date_range(paper_data)] *)
Definition matches_date_range (self : NBERScraper) (paper_data : paper) : bool :=
  if negb (otruthy (start_date self)) && negb (otruthy (end_date self)) then true
  else
    match publication_date paper_data with
    | None => true
    | Some pub_date =>
        if negb (truthy pub_date) then true
        else
          let parsed :=
            if contains "/" pub_date then Some (Datetime.strptime "/" pub_date)
            else if contains "-" pub_date then Some (Datetime.strptime "-" pub_date)
            else None in
          match parsed with
          | None => true
          | Some (inl _) => true
          | Some (inr paper_date) =>
              if before_start self paper_date then false
              else if after_end self paper_date then false
              else true
          end
    end.

(** ** Files *)

(** [self.download_pdf(pdf_url, paper_id)] with the default directory. *)
Definition download_pdf (env : Env) (pdf : option str) (id : str) : M bool :=
  match pdf with
  | None => ret false
  | Some pdf_url_v =>
      if negb (truthy pdf_url_v) then ret false
      else
        try_except
          (io (fun t => makedirs env t (lit "downloads")) ;;
           response <- get_page env pdf_url_v default_retries ;;
           match response with
           | None => raise AttributeError
           | Some response =>
               write env (lit "downloads/" ++ id ++ lit ".pdf")
                     (PdfBytes (content response)) ;;
               ret true
           end)
          (fun _ => ret false)
  end.

(** [self.save_to_json(filename)] *)
Definition save_to_json (env : Env) (filename : str) : M bool :=
  try_except
    (l <- get_papers ;;
     write env filename (JsonPapers l) ;;
     ret true)
    (fun _ => ret false).

(** ** The scan *)

(** The local variables of [scrape_papers]. *)
Record loop_vars := mk_vars {
  papers_checked : Z;
  papers_found : Z;
  consecutive_failures : Z;
  current_number : Z
}.

(** Which [break] ends the loop. *)
Inductive stop_reason :=
| MaxPapersReached
| MaxPagesReached
| FailuresReached
| NumberZeroReached.

Definition max_consecutive_failures : Z := 50.

(** Truthiness of an optional limit: neither [None] nor [0]. *)
Definition limit_set (limit : option Z) : bool :=
  match limit with Some n => negb (n =? 0) | None => false end.

Definition limit_reached (limit : option Z) (count : Z) : bool :=
  match limit with
  | Some n => negb (n =? 0) && (n <=? count)
  | None => false
  end.

(** The stopping conditions at the head of the loop, in their order. *)
Definition stop_check (max_papers max_pages : option Z) (v : loop_vars)
    : option stop_reason :=
  if limit_reached max_papers (papers_found v) then Some MaxPapersReached
  else if limit_reached max_pages (papers_checked v) then Some MaxPagesReached
  else if max_consecutive_failures <=? consecutive_failures v then Some FailuresReached
  else if current_number v <=? 0 then Some NumberZeroReached
  else None.

(** What is done with a paper that passes both filters. The log line
    slices [paper_data.get('title', 'No title')]: the key is always
    there, so a paper without a title gives [None[:100]], a [TypeError]. *)
Definition accept_paper (env : Env) (download_pdfs : bool) (p : paper)
    (found : Z) : M Z :=
  papers_append p ;;
  let found' := found + 1 in
  match title p with
  | None => raise TypeError
  | Some _ =>
      (if download_pdfs && otruthy (pdf_url p)
       then download_pdf env (pdf_url p) (paper_id p)
       else ret false) ;;
      (if found' mod 10 =? 0
       then save_to_json env
              (lit "nber_papers_progress_" ++ of_Z found' ++ lit ".json")
       else ret false) ;;
      ret found'
  end.

(** One turn of the [while True] loop, after the stopping conditions. *)
Definition scan_iteration (env : Env) (self : NBERScraper)
    (download_pdfs : bool) (v : loop_vars) : M loop_vars :=
  let checked := papers_checked v + 1 in
  paper_data <- extract_paper_metadata env self (current_number v) ;;
  match paper_data with
  | None =>
      ret {| papers_checked := checked;
             papers_found := papers_found v;
             consecutive_failures := consecutive_failures v + 1;
             current_number := current_number v - 1 |}
  | Some p =>
      let failures := 0 in
      found <- (if matches_search_query self p && matches_date_range self p
                then accept_paper env download_pdfs p (papers_found v)
                else ret (papers_found v)) ;;
      ret {| papers_checked := checked;
             papers_found := found;
             consecutive_failures := failures;
             current_number := current_number v - 1 |}
  end.

(** The loop. Every turn that does not stop has [current_number > 0] and
    lowers it by one, so [Z.to_nat current_number] turns are enough:
    [fuel] is at least that, and the case of no fuel with no stopping
    condition met does not arise (see [scan_loop_fuel]). *)
Fixpoint scan_loop (env : Env) (self : NBERScraper)
    (max_papers max_pages : option Z) (download_pdfs : bool)
    (fuel : nat) (v : loop_vars) : M (stop_reason * loop_vars) :=
  match stop_check max_papers max_pages v with
  | Some why => ret (why, v)
  | None =>
      match fuel with
      | O => ret (NumberZeroReached, v)
      | S fuel' =>
          v' <- scan_iteration env self download_pdfs v ;;
          scan_loop env self max_papers max_pages download_pdfs fuel' v'
      end
  end.

(** [range(33500, 33000, -10)] *)
Definition probe_numbers : list Z :=
  map (fun k => 33500 - 10 * Z.of_nat k) (seq 0 50).

(** The probing loop: the first number whose page answers 200 to a
    [HEAD] request gives the start, ten above it; a request that raises
    is passed over. *)
Fixpoint detect_start (env : Env) (self : NBERScraper) (candidates : list Z)
    : M (option Z) :=
  match candidates with
  | [] => ret None
  | test_num :: rest =>
      status <- try_except
                  (st <- io (fun t => session_head env t (paper_url self test_num)) ;;
                   ret (Some st))
                  (fun _ => ret None) ;;
      match status with
      | Some st => if st =? 200 then ret (Some (test_num + 10))
                   else detect_start env self rest
      | None => detect_start env self rest
      end
  end.

Definition fallback_start : Z := 33200.

(** The start of the scan: the given number, or the detected one, or the
    fallback. *)
Definition resolve_start (env : Env) (self : NBERScraper) (start_number : option Z)
    : M Z :=
  match start_number with
  | Some n => ret n
  | None =>
      found <- detect_start env self probe_numbers ;;
      match found with
      | Some n => ret n
      | None => ret fallback_start
      end
  end.

Definition initial_vars (start : Z) : loop_vars :=
  {| papers_checked := 0; papers_found := 0;
     consecutive_failures := 0; current_number := start |}.

(** [scrape_papers] up to the end of its loop, with the [break] taken and
    the local variables at that point. *)
Definition scrape_run (env : Env) (self : NBERScraper)
    (max_papers max_pages start_number : option Z) (download_pdfs : bool)
    : M (stop_reason * loop_vars) :=
  start <- resolve_start env self start_number ;;
  scan_loop env self max_papers max_pages download_pdfs
            (Z.to_nat start) (initial_vars start).

(** [self.scrape_papers(max_papers, max_pages, start_number, download_pdfs)] *)
Definition scrape_papers (env : Env) (self : NBERScraper)
    (max_papers max_pages start_number : option Z) (download_pdfs : bool)
    : M (list paper) :=
  scrape_run env self max_papers max_pages start_number download_pdfs ;;
  get_papers.

(** ** Vocabulary of the properties *)

(** The last character of [s], or [prev] when [s] is empty. *)
Fixpoint last_of (prev : option ascii) (s : str) : option ascii :=
  match s with
  | [] => prev
  | c :: r => last_of (Some c) r
  end.

(** There is a word boundary between [left] and [right]: of the character
    that ends [left] and the one that starts [right], exactly one is a
    word character (a missing character is not). *)
Definition word_boundary (left right : str) : Prop :=
  Re.oword (last_of None left) <> Re.oword (hd_error right).

(** [w] occurs in [text] as a whole word, letter case apart. *)
Definition whole_word_occurs (w text : str) : Prop :=
  exists pre mid post,
    text = pre ++ mid ++ post
    /\ lower mid = lower w
    /\ word_boundary pre (mid ++ post)
    /\ word_boundary (pre ++ mid) post.

(** The words the query "ai" stands for. *)
Definition ai_words : list str :=
  [ lit "ai"; lit "artificial intelligence"; lit "machine learning";
    lit "deep learning"; lit "neural network"; lit "algorithm" ].

(** The compiled form of [\b], the characters of [w], [\b]. *)
Definition word_items (w : str) : list Re.item :=
  Re.WordB :: map Re.Lit w ++ [Re.WordB].

(** The date a string denotes in the format [YYYY/MM/DD] or in the format
    [YYYY-MM-DD], when it denotes one. *)
Definition parse_date (s : str) : option Datetime.datetime :=
  match Datetime.strptime "/" s with
  | inr d => Some d
  | inl _ =>
      match Datetime.strptime "-" s with
      | inr d => Some d
      | inl _ => None
      end
  end.

(** A character a date in the format with separator [sep] can hold. *)
Definition date_char (sep c : ascii) : bool :=
  isdigit c || ascii_eqb c sep || ascii_eqb c SP.

(** The value of a computation that did not raise. *)
Definition returned {A} (r : exn + A) : option A :=
  match r with inr a => Some a | inl _ => None end.

(** Every whitespace character of [s] is a space and no two of them are
    next to each other. *)
Fixpoint single_spaced (s : str) : bool :=
  match s with
  | [] => true
  | c :: r =>
      (negb (isspace c) || ascii_eqb c SP)
      && match r with
         | d :: _ => negb (isspace c && isspace d)
         | [] => true
         end
      && single_spaced r
  end.

(** The state after one request. *)
Definition ticked (s : State) : State :=
  {| ticks := S (ticks s); slept := slept s;
     papers := papers s; files := files s |}.

(** [l1] is a prefix of [l2]. *)
Definition extends {A} (l1 l2 : list A) : Prop := exists l, l2 = l1 ++ l.

(** The computation leaves [self.papers] as it is. *)
Definition keeps_papers {A} (c : M A) : Prop :=
  forall s, papers (snd (c s)) = papers s.

(** The computation only appends to [self.papers]. *)
Definition appends_only {A} (c : M A) : Prop :=
  forall s, extends (papers s) (papers (snd (c s))).

(** Every extraction returns [None]. *)
Definition all_null (env : Env) (self : NBERScraper) : Prop :=
  forall n s, fst (extract_paper_metadata env self n s) = inr None.

(** ** Concrete worlds and papers *)

Module Scenario.

(** A page in which the parser finds nothing. *)
Definition empty_soup : Soup :=
  {| find_meta := fun _ => inr None;
     find_all_meta := fun _ => inr [];
     select_one := fun _ => inr None;
     find := fun _ => inr None |}.

(** A world given by its answers to [GET] and by the parsed page; the
    other operations succeed, and no page answers a [HEAD] request. *)
Definition world (get : nat -> str -> exn + Response) (soup : Soup) : Env :=
  {| session_get := get;
     session_head := fun _ _ => inl (RequestException ConnectionError);
     BeautifulSoup := fun _ => inr soup;
     now_isoformat := fun _ => lit "2024-01-01T00:00:00";
     makedirs := fun _ _ => inr tt;
     write_file := fun _ _ => inr tt |}.

Definition not_found : Response := {| status_code := 404; content := [] |}.

(** Every page answers 404. *)
Definition env_404 : Env := world (fun _ _ => inr not_found) empty_soup.

Definition plain_scraper : NBERScraper :=
  NBERScraper_init [] default_base_url None None.

(** A paper with only a title and an abstract. *)
Definition titled (t a : option str) : paper :=
  {| paper_id := lit "w1"; url := lit "https://www.nber.org/papers/w1";
     title := t; authors := []; abstract := a; pdf_url := None;
     publication_date := None; doi := None;
     scraped_at := lit "2024-01-01T00:00:00" |}.

(** A paper with only a publication date. *)
Definition dated (d : option str) : paper :=
  {| paper_id := lit "w1"; url := lit "https://www.nber.org/papers/w1";
     title := None; authors := []; abstract := None; pdf_url := None;
     publication_date := d; doi := None;
     scraped_at := lit "2024-01-01T00:00:00" |}.

(** The text of a page whose abstract is found only by the search over
    the full text: a label, then 108 characters with two spaces in a row
    after the first word. *)
Definition spaced_text : str :=
  lit "Abstract: We  study the effect of minimum wage increases on employment using county level panel data from 1990 to 2019.".

Definition spaced_page : Soup :=
  {| find_meta := fun _ => inr None;
     find_all_meta := fun _ => inr [];
     select_one := fun _ => inr None;
     find := fun tag => if eqb tag (lit "main")
                        then inr (Some {| get_text := inr spaced_text |})
                        else inr None |}.

Definition ok_response : Response := {| status_code := 200; content := lit "<html>" |}.

(** Every page answers 200 with the page above. *)
Definition env_spaced : Env := world (fun _ _ => inr ok_response) spaced_page.

(** A page whose abstract is found by the first selector. *)
Definition selector_page (text : str) : Soup :=
  {| find_meta := fun name => if eqb name (lit "citation_title")
                              then inr (Some (Some (lit " Minimum Wages ")))
                              else inr None;
     find_all_meta := fun _ => inr [Some (lit "A. Author"); None; Some []];
     select_one := fun sel => if eqb sel (lit "div.page-header__intro")
                              then inr (Some {| get_text := inr text |})
                              else inr None;
     find := fun _ => inr None |}.

Definition env_selector (text : str) : Env :=
  world (fun _ _ => inr ok_response) (selector_page text).

(** Pages 100 and 99 exist, every other page answers 404. *)
Definition env_two : Env :=
  world (fun _ u =>
           if eqb u (lit "https://www.nber.org/papers/w100")
              || eqb u (lit "https://www.nber.org/papers/w99")
           then inr ok_response else inr not_found)
        (selector_page (lit "Abstract: wages")).

End Scenario.

(** ** The script [run_scraper.py] *)

(** The settings at the top of the script. An empty query stands for
    one that is [None] or empty: the script and [__init__] only test it
    for truth. *)
Record Settings := mk_settings {
  SEARCH_QUERY : str;
  MAX_PAPERS : option Z;
  MAX_TO_CHECK : option Z;
  DOWNLOAD_PDFS : bool;
  OUTPUT_FILENAME : option str;
  START_DATE : option str;
  END_DATE : option str
}.

(** The settings as the script has them. *)
Definition settings : Settings :=
  {| SEARCH_QUERY := lit "AI";
     MAX_PAPERS := Some 50;
     MAX_TO_CHECK := Some 500;
     DOWNLOAD_PDFS := false;
     OUTPUT_FILENAME := None;
     START_DATE := None;
     END_DATE := None |}.

(** [s.replace(' ', '_')] *)
Definition replace_spaces (s : str) : str :=
  map (fun c => if ascii_eqb c SP then "_"%char else c) s.

(** [datetime.now().strftime("%Y%m%d_%H%M%S")]: the clock is asked at
    the current count of operations. *)
Definition now_strftime (clock : nat -> str) : M str :=
  fun s => (inr (clock (ticks s)), s).

(** [f"nber_papers{query_part}_{timestamp}.json"] *)
Definition generated_filename (cfg : Settings) (timestamp : str) : str :=
  let query_part := if truthy (SEARCH_QUERY cfg)
                    then lit "_" ++ replace_spaces (SEARCH_QUERY cfg)
                    else [] in
  lit "nber_papers" ++ query_part ++ lit "_" ++ timestamp ++ lit ".json".

(** One turn of the loop that shows the first papers: the slices
    [paper.get('title', 'No title')[:80]] and
    [paper.get('abstract', 'No abstract available')[:200]] raise when
    the value is [None], the key being there. What is printed is left
    out. *)
Definition show_paper (p : paper) : M unit :=
  match title p with
  | None => raise TypeError
  | Some _ =>
      match abstract p with
      | None => raise TypeError
      | Some _ => ret tt
      end
  end.

(** [for i, paper in enumerate(papers[:3], 1): ...] over a list. *)
Fixpoint show_papers (l : list paper) : M unit :=
  match l with
  | [] => ret tt
  | p :: rest => show_paper p ;; show_papers rest
  end.

(** The body of the [try] of [main]. *)
Definition main_try (env : Env) (clock : nat -> str) (cfg : Settings)
    (scraper : NBERScraper) : M unit :=
  papers_v <- scrape_papers env scraper (MAX_PAPERS cfg) (MAX_TO_CHECK cfg)
                            None (DOWNLOAD_PDFS cfg) ;;
  filename <- (match OUTPUT_FILENAME cfg with
               | Some f => if truthy f then ret f
                           else (timestamp <- now_strftime clock ;;
                                 ret (generated_filename cfg timestamp))
               | None => timestamp <- now_strftime clock ;;
                         ret (generated_filename cfg timestamp)
               end) ;;
  saved <- save_to_json env filename ;;
  if saved then show_papers (firstn 3 papers_v) else ret tt.

(** The handler of [except Exception] of [main]: the papers collected,
    if any, are saved under a name of their own. *)
Definition main_except (env : Env) (clock : nat -> str) : M unit :=
  l <- get_papers ;;
  match l with
  | [] => ret tt
  | _ :: _ =>
      timestamp <- now_strftime clock ;;
      save_to_json env (lit "nber_papers_error_" ++ timestamp ++ lit ".json") ;;
      ret tt
  end.

(** [main()], on a scraper of its own. The exceptions of the model are
    all instances of [Exception]; an interruption from the keyboard is
    none of them and is left out. *)
Definition main (env : Env) (clock : nat -> str) (cfg : Settings)
    : (exn + unit) * State :=
  let scraper := NBERScraper_init (SEARCH_QUERY cfg) default_base_url
                                  (START_DATE cfg) (END_DATE cfg) in
  try_except (main_try env clock cfg scraper)
             (fun _ => main_except env clock)
             init_state.

(** ** Vocabulary of further properties *)

(** The attempt made at count [t] fails in a way [get_page] retries: the
    request raises a request exception, or is answered with an error
    status. *)
Definition attempt_fails (env : Env) (url : str) (t : nat) : Prop :=
  (exists e, session_get env t url = inl (RequestException e))
  \/ (exists r, session_get env t url = inr r /\ 400 <= status_code r < 600).

(** The computation writes no file. *)
Definition keeps_files {A} (c : M A) : Prop :=
  forall s, files (snd (c s)) = files s.

(** The computation performs between [lo] and [hi] input and output
    operations. *)
Definition operations_within {A} (lo hi : nat) (c : M A) : Prop :=
  forall s, (ticks s + lo <= ticks (snd (c s)) <= ticks s + hi)%nat.

(** [s] is empty or starts with a character that is no whitespace. *)
Definition clean_start (s : str) : Prop :=
  match s with c :: _ => isspace c = false | [] => True end.

(** [s] is empty or ends with a character that is no whitespace. *)
Definition clean_end (s : str) : Prop :=
  match last_of None s with Some c => isspace c = false | None => True end.

(** An optional text, when there is one, has no whitespace at either end:
    stripping it changes nothing. *)
Definition otrimmed (o : option str) : Prop :=
  match o with Some x => strip x = x | None => True end.

(** What the search over the full text takes for the label: the word
    "abstract" in any letter case, a colon or none, whitespace or none. *)
Definition abstract_label (lab : str) : Prop :=
  exists word colon ws,
    lab = word ++ colon ++ ws
    /\ lower word = lit "abstract"
    /\ (colon = [] \/ colon = lit ":")
    /\ forallb isspace ws = true.

(** The text has a label, then between 100 and 2000 characters [g], then
    the end of an abstract: a blank line, "JEL", "Keywords", or the end
    of the text. *)
Definition labelled_abstract (text g : str) : Prop :=
  exists pre lab post,
    text = pre ++ lab ++ g ++ post
    /\ abstract_label lab
    /\ (100 <= List.length g <= 2000)%nat
    /\ Re.abstract_end post = true.

(** The character of the digit [k]. *)
Definition digit_char (k : Z) : ascii := ascii_of_N (Z.to_N (48 + k)).

Definition two_digits (n : Z) : str :=
  [digit_char (n / 10); digit_char (n mod 10)].

Definition four_digits (n : Z) : str :=
  [digit_char (n / 1000); digit_char (n / 100 mod 10);
   digit_char (n / 10 mod 10); digit_char (n mod 10)].

(** A date written with four digits for the year and two for the month
    and for the day: [YYYY/MM/DD] when [sep] is [/], [YYYY-MM-DD] when it
    is [-]. *)
Definition format_date (sep : ascii) (d : Datetime.datetime) : str :=
  four_digits (Datetime.year d)
  ++ sep :: two_digits (Datetime.month d)
  ++ sep :: two_digits (Datetime.day d).

(** A date of the calendar, years 1 to 9999. *)
Definition valid_date (d : Datetime.datetime) : Prop :=
  1 <= Datetime.year d <= 9999
  /\ 1 <= Datetime.month d <= 12
  /\ 1 <= Datetime.day d
     <= Datetime.days_in_month (Datetime.year d) (Datetime.month d).

(** The date as the number YYYYMMDD. *)
Definition day_number (d : Datetime.datetime) : Z :=
  Datetime.year d * 10000 + Datetime.month d * 100 + Datetime.day d.

(** The numbers go strictly down. *)
Fixpoint descending (ns : list Z) : Prop :=
  match ns with
  | [] => True
  | n :: rest => Forall (fun m => m < n) rest /\ descending rest
  end.

(** The identifier of the paper with number [n]. *)
Definition wid (n : Z) : str := lit "w" ++ of_Z n.

(** The record passes both filters of the object. *)
Definition passes_filters (self : NBERScraper) (p : paper) : Prop :=
  matches_search_query self p && matches_date_range self p = true.

(** The state with one more paper in [self.papers]. *)
Definition with_paper (s : State) (p : paper) : State :=
  {| ticks := ticks s; slept := slept s;
     papers := papers s ++ [p]; files := files s |}.



(** The state after [n] more input and output operations. *)
Definition after_operations (n : nat) (s : State) : State :=
  {| ticks := ticks s + n; slept := slept s;
     papers := papers s; files := files s |}.

(** A world in which the page of w33480 is the only one to answer 200
    to a [HEAD] request; the others answer 404. *)
Definition env_probe : Env :=
  {| session_get := fun _ _ => inr Scenario.not_found;
     session_head := fun _ u =>
                       if eqb u (lit "https://www.nber.org/papers/w33480")
                       then inr 200 else inr 404;
     BeautifulSoup := fun _ => inr Scenario.empty_soup;
     now_isoformat := fun _ => lit "2024-01-01T00:00:00";
     makedirs := fun _ _ => inr tt;
     write_file := fun _ _ => inr tt |}.



Definition has_title (p : paper) : bool :=
  match title p with Some _ => true | None => false end.








(** * Properties *)

(** ** Characters *)

Section Characters.

Local Ltac each_char c :=
  destruct c as [[] [] [] [] [] [] [] []]; vm_compute; intuition congruence.

Lemma ascii_eqb_eq (a b : ascii) : ascii_eqb a b = true <-> a = b.
Proof. apply Ascii.eqb_eq. Qed.

Lemma ascii_eqb_refl (a : ascii) : ascii_eqb a a = true.
Proof. apply Ascii.eqb_refl. Qed.

Lemma lower_char_idem (c : ascii) : lower_char (lower_char c) = lower_char c.
Proof. each_char c. Qed.

Lemma isword_lower_char (c : ascii) : isword (lower_char c) = isword c.
Proof. each_char c. Qed.

Lemma escape_special_escaped (c : ascii) :
  Re.escape_special c = true ->
  ascii_eqb c "b" = false /\ is_ascii_alnum c = false.
Proof. each_char c. Qed.

Lemma escape_special_plain (c : ascii) :
  Re.escape_special c = false ->
  ascii_eqb c Re.BACKSLASH = false /\ Re.is_meta c = false.
Proof. each_char c. Qed.

Lemma in_range_weaken (lo hi lo' hi' : N) (c : ascii) :
  (lo' <= lo)%N -> (hi <= hi')%N ->
  in_range lo hi c = true -> in_range lo' hi' c = true.
Proof.
  unfold in_range. intros Hlo Hhi H.
  apply andb_true_iff in H as [H1 H2].
  apply N.leb_le in H1, H2.
  apply andb_true_iff; split; apply N.leb_le; lia.
Qed.

End Characters.

(** ** Strings *)

Section Strings.

Lemma eqb_eq (a b : str) : eqb a b = true <-> a = b.
Proof.
  revert b; induction a as [|x a IH]; intros [|y b]; simpl;
    try (split; (reflexivity || discriminate)).
  rewrite andb_true_iff, ascii_eqb_eq, IH.
  split; [intros [-> ->]; reflexivity | intros H; inversion H; auto].
Qed.

Lemma eqb_refl (a : str) : eqb a a = true.
Proof. apply eqb_eq; reflexivity. Qed.

Lemma eqb_neq (a b : str) : eqb a b = false <-> a <> b.
Proof.
  split.
  - intros H E. apply eqb_eq in E. congruence.
  - intros H. destruct (eqb a b) eqn:E; [apply eqb_eq in E; contradiction | reflexivity].
Qed.

Lemma lower_idem (s : str) : lower (lower s) = lower s.
Proof.
  unfold lower. rewrite map_map. apply map_ext. apply lower_char_idem.
Qed.

Lemma lower_app (a b : str) : lower (a ++ b) = lower a ++ lower b.
Proof. apply map_app. Qed.

Lemma truthy_lower (s : str) : truthy (lower s) = truthy s.
Proof. destruct s; reflexivity. Qed.

Lemma truthy_nonempty (s : str) : truthy s = true <-> s <> [].
Proof. destruct s; simpl; split; congruence. Qed.

Lemma last_of_app (prev : option ascii) (a b : str) :
  last_of prev (a ++ b) = last_of (last_of prev a) b.
Proof. revert prev; induction a as [|c a IH]; intros prev; simpl; auto. Qed.

Lemma oword_last_lower (prev : option ascii) (s : str) :
  Re.oword (last_of (option_map lower_char prev) (lower s))
  = Re.oword (last_of prev s).
Proof.
  revert prev; induction s as [|c s IH]; intros prev; simpl.
  - destruct prev; simpl; auto using isword_lower_char.
  - apply (IH (Some c)).
Qed.

Lemma oword_hd_lower (s : str) :
  Re.oword (hd_error (lower s)) = Re.oword (hd_error s).
Proof. destruct s; simpl; auto using isword_lower_char. Qed.

Lemma word_boundary_lower (a b : str) :
  word_boundary (lower a) (lower b) <-> word_boundary a b.
Proof.
  unfold word_boundary.
  pose proof (oword_last_lower None a) as H; simpl in H.
  rewrite H, oword_hd_lower. reflexivity.
Qed.

Lemma at_boundary_spec (pre s : str) :
  Re.at_boundary (last_of None pre) s = true <-> word_boundary pre s.
Proof.
  unfold Re.at_boundary, word_boundary.
  destruct (Re.oword (last_of None pre)), (Re.oword (hd_error s)); simpl;
    split; congruence.
Qed.

End Strings.

(** ** Whole-word search *)

Section WordSearch.

Lemma option_map_app_nil {A} (o : option (list A)) : option_map (app []) o = o.
Proof. destruct o; reflexivity. Qed.

(** Compiling an escaped string gives the string's characters as literals. *)
Lemma compile_escape (q tail : str) :
  Re.compile (Re.escape q ++ tail)
  = option_map (app (map Re.Lit q)) (Re.compile tail).
Proof.
  induction q as [|c q IH].
  - simpl. symmetry. apply option_map_app_nil.
  - cbn [Re.escape]. destruct (Re.escape_special c) eqn:E.
    + apply escape_special_escaped in E as [Eb Ealnum].
      cbn [app Re.compile]. rewrite ascii_eqb_refl, Eb, Ealnum, IH.
      destruct (Re.compile tail); reflexivity.
    + apply escape_special_plain in E as [Eb Emeta].
      cbn [app Re.compile]. rewrite Eb, Emeta, IH.
      destruct (Re.compile tail); reflexivity.
Qed.

Lemma compile_word_pattern (q : str) :
  Re.compile (word_pattern q) = Some (word_items q).
Proof.
  unfold word_pattern.
  change (lit "\b") with [Re.BACKSLASH; "b"%char].
  cbn [app Re.compile]. rewrite ascii_eqb_refl.
  change (ascii_eqb "b" "b") with true. cbn iota.
  rewrite compile_escape. reflexivity.
Qed.

Lemma lower_nil_inv (s : str) : lower s = [] -> s = [].
Proof. destruct s; simpl; congruence. Qed.

Lemma match_here_literals (w : str) (prev : option ascii) (s : str) :
  Re.match_here (map Re.Lit w ++ [Re.WordB]) prev s = true <->
  exists mid post,
    s = mid ++ post /\ lower mid = lower w
    /\ Re.at_boundary (last_of prev mid) post = true.
Proof.
  revert prev s; induction w as [|c w IH]; intros prev s.
  - simpl. rewrite andb_true_r. split.
    + intros H. exists [], s. auto.
    + intros (mid & post & -> & Hm & Hb).
      apply lower_nil_inv in Hm; subst mid. exact Hb.
  - cbn [map app Re.match_here]. destruct s as [|t s].
    + split; [discriminate|].
      intros (mid & post & Hs & Hm & _).
      symmetry in Hs. apply app_eq_nil in Hs as [-> _]. discriminate.
    + rewrite andb_true_iff, ascii_eqb_eq, IH. split.
      * intros (Hc & mid & post & -> & Hm & Hb).
        exists (t :: mid), post. simpl. rewrite Hm, Hc. auto.
      * intros (mid & post & Hs & Hm & Hb).
        destruct mid as [|t' mid]; [discriminate|].
        simpl in Hs, Hm, Hb. inversion Hs; subst. inversion Hm.
        split; [congruence|]. exists mid, post. auto.
Qed.

Lemma search_from_spec (items : list Re.item) (prev : option ascii) (s : str) :
  Re.search_from items prev s = true <->
  exists pre rest,
    s = pre ++ rest /\ Re.match_here items (last_of prev pre) rest = true.
Proof.
  revert prev; induction s as [|t s IH]; intros prev; cbn [Re.search_from].
  - rewrite orb_false_r. split.
    + intros H. exists [], []. auto.
    + intros (pre & rest & Hs & H). symmetry in Hs.
      apply app_eq_nil in Hs as [-> ->]. exact H.
  - rewrite orb_true_iff, IH. split.
    + intros [H | (pre & rest & -> & H)].
      * exists [], (t :: s). auto.
      * exists (t :: pre), rest. auto.
    + intros (pre & rest & Hs & H). destruct pre as [|t' pre].
      * left. simpl in Hs, H. subst rest. exact H.
      * right. simpl in Hs. inversion Hs; subst. exists pre, rest. auto.
Qed.

(** The search for a compiled whole-word pattern finds exactly the
    whole-word occurrences. *)
Lemma search_word_spec (w text : str) :
  Re.search_from (word_items w) None text = true <-> whole_word_occurs w text.
Proof.
  unfold word_items, whole_word_occurs. rewrite search_from_spec. split.
  - intros (pre & rest & -> & H). cbn [Re.match_here] in H.
    apply andb_true_iff in H as [Hb1 H].
    apply match_here_literals in H as (mid & post & -> & Hm & Hb2).
    exists pre, mid, post. rewrite <- last_of_app in Hb2.
    rewrite <- !at_boundary_spec. auto.
  - intros (pre & mid & post & -> & Hm & Hb1 & Hb2).
    exists pre, (mid ++ post). split; [reflexivity|].
    cbn [Re.match_here]. apply andb_true_iff. split.
    + apply at_boundary_spec; exact Hb1.
    + apply match_here_literals. exists mid, post.
      rewrite <- last_of_app, at_boundary_spec. auto.
Qed.

Lemma search_ic_word_pattern (q text : str) :
  Re.search_ic (word_pattern q) text = true <-> whole_word_occurs q text.
Proof.
  unfold Re.search_ic. rewrite compile_word_pattern. apply search_word_spec.
Qed.

(** Lower-casing the text changes no whole-word occurrence. *)
Lemma whole_word_occurs_lower (w text : str) :
  whole_word_occurs w (lower text) <-> whole_word_occurs w text.
Proof.
  unfold whole_word_occurs. split.
  - intros (pre & mid & post & Ht & Hm & Hb1 & Hb2).
    apply map_eq_app in Ht as (pre' & rest' & -> & <- & Hr).
    apply map_eq_app in Hr as (mid' & post' & -> & <- & <-).
    exists pre', mid', post'. split; [reflexivity|].
    fold (lower mid') in Hm. rewrite lower_idem in Hm.
    split; [exact Hm|].
    fold (lower pre') (lower mid') (lower post') in Hb1, Hb2.
    rewrite <- !lower_app in Hb1, Hb2.
    rewrite word_boundary_lower in Hb1, Hb2.
    split; assumption.
  - intros (pre & mid & post & -> & Hm & Hb1 & Hb2).
    exists (lower pre), (lower mid), (lower post).
    rewrite !lower_app, lower_idem. split; [reflexivity|].
    split; [exact Hm|].
    rewrite <- !lower_app. rewrite !word_boundary_lower. split; assumption.
Qed.

Lemma ai_terms_compile :
  map Re.compile ai_terms = map (fun w => Some (word_items w)) ai_words.
Proof. vm_compute. reflexivity. Qed.

Lemma any_term_matches_words (terms words : list str) (text : str) :
  map Re.compile terms = map (fun w => Some (word_items w)) words ->
  any_term_matches terms text = true <->
  exists w, In w words /\ whole_word_occurs w text.
Proof.
  revert words; induction terms as [|t terms IH]; intros [|w words] H;
    try discriminate.
  - unfold any_term_matches. simpl. split; [discriminate | intros (w & [] & _)].
  - simpl in H. inversion H as [[Ht Hrest]].
    unfold any_term_matches in *. cbn [existsb].
    rewrite orb_true_iff, (IH words Hrest).
    unfold Re.search_ic. rewrite Ht, search_word_spec. split.
    + intros [Hw | (w' & Hin & Hw)]; [exists w | exists w']; simpl; auto.
    + intros (w' & [<- | Hin] & Hw); [left | right; exists w']; auto.
Qed.

Lemma matches_search_query_unfold (self : NBERScraper) (p : paper) :
  truthy (search_query self) = true ->
  matches_search_query self p
  = any_term_matches (search_terms_for (strip (lower (search_query self))))
                     (lower (or_empty (title p)))
    || any_term_matches (search_terms_for (strip (lower (search_query self))))
                        (lower (or_empty (abstract p))).
Proof.
  intros H. unfold matches_search_query. rewrite H. cbn [negb].
  destruct (any_term_matches _ (lower (or_empty (title p)))); reflexivity.
Qed.

End WordSearch.

(** ** The topic filter *)

Section TopicFilter.

Lemma init_search_query (q base : str) (sd ed : option str) :
  q <> [] -> search_query (NBERScraper_init q base sd ed) = lower q.
Proof.
  intros H. unfold NBERScraper_init. cbn [search_query].
  apply truthy_nonempty in H. rewrite H. reflexivity.
Qed.

Lemma lower_nonempty (q : str) : q <> [] -> lower q <> [].
Proof. destruct q; simpl; congruence. Qed.

Lemma any_single_term (w text : str) :
  any_term_matches [word_pattern w] (lower text) = true <->
  whole_word_occurs w text.
Proof.
  unfold any_term_matches. cbn [existsb]. rewrite orb_false_r.
  rewrite search_ic_word_pattern. apply whole_word_occurs_lower.
Qed.

Lemma any_ai_term (text : str) :
  any_term_matches ai_terms (lower text) = true <->
  exists w, In w ai_words /\ whole_word_occurs w text.
Proof.
  rewrite (any_term_matches_words ai_terms ai_words _ ai_terms_compile).
  split; intros (w & Hin & Hw); exists w; split; auto;
    apply whole_word_occurs_lower; exact Hw.
Qed.

End TopicFilter.

(** C5. For the query "ai", whatever its letter case,
    [matches_search_query] returns true exactly when one of the words
    ai, artificial intelligence, machine learning, deep learning, neural
    network, algorithm occurs as a whole word, letter case apart, in the
    title or in the abstract of the record; so a record whose abstract has
    "neural network" as a whole word matches, with or without a
    standalone "ai". *)
Theorem C5_ai_query_matches_synonyms
    (q base : str) (sd ed : option str) (p : paper) :
  lower q = lit "ai" ->
  (matches_search_query (NBERScraper_init q base sd ed) p = true <->
   exists w, In w ai_words
             /\ (whole_word_occurs w (or_empty (title p))
                 \/ whole_word_occurs w (or_empty (abstract p))))
  /\ (whole_word_occurs (lit "neural network") (or_empty (abstract p)) ->
      matches_search_query (NBERScraper_init q base sd ed) p = true).
Proof.
  intros Hq.
  assert (Hne : q <> []) by (intros ->; discriminate).
  assert (Hiff :
    matches_search_query (NBERScraper_init q base sd ed) p = true <->
    exists w, In w ai_words
              /\ (whole_word_occurs w (or_empty (title p))
                  \/ whole_word_occurs w (or_empty (abstract p)))).
  { rewrite matches_search_query_unfold
      by (rewrite init_search_query, truthy_lower by exact Hne;
          apply truthy_nonempty; exact Hne).
    rewrite init_search_query by exact Hne.
    rewrite lower_idem, Hq.
    change (search_terms_for (strip (lit "ai"))) with ai_terms.
    rewrite orb_true_iff, !any_ai_term. split.
    - intros [(w & Hin & Hw) | (w & Hin & Hw)]; exists w; auto.
    - intros (w & Hin & [Hw | Hw]); [left | right]; exists w; auto. }
  split; [exact Hiff|].
  intros Hnn. apply Hiff. exists (lit "neural network"). split.
  - unfold ai_words. simpl. auto 6.
  - right. exact Hnn.
Qed.

(** The query "AI" against a record titled "Maize" whose abstract speaks
    of a neural network. *)
Lemma C5_witness :
  lower (lit "AI") = lit "ai"
  /\ matches_search_query
       (NBERScraper_init (lit "AI") default_base_url None None)
       (Scenario.titled (Some (lit "Maize"))
                        (Some (lit "We train a Neural Network on prices.")))
     = true.
Proof.
  split; [reflexivity|].
  apply (C5_ai_query_matches_synonyms (lit "AI") default_base_url None None);
    [reflexivity|].
  apply search_word_spec. vm_compute. reflexivity.
Defined.

(** C6, as stated, fails for a query with whitespace around it: the
    query "labor " matches the title "the price of labor", in which the
    escaped query between word boundaries does not occur. *)
Lemma C6_counterexample :
  let q := lit "labor " in
  let p := Scenario.titled (Some (lit "the price of labor")) None in
  (q <> [] /\ lower q <> lit "ai")
  /\ matches_search_query (NBERScraper_init q default_base_url None None) p = true
  /\ Re.search_ic (word_pattern q) (or_empty (title p)) = false
  /\ Re.search_ic (word_pattern q) (or_empty (abstract p)) = false
  /\ ~ (whole_word_occurs q (or_empty (title p))
        \/ whole_word_occurs q (or_empty (abstract p))).
Proof.
  cbv zeta.
  split; [split; discriminate|].
  split; [vm_compute; reflexivity|].
  split; [vm_compute; reflexivity|].
  split; [vm_compute; reflexivity|].
  intros [H | H]; apply search_ic_word_pattern in H; vm_compute in H;
    discriminate.
Qed.

(** C6, amended. For a non-empty query that, lower-cased and stripped of
    the whitespace around it, is not "ai": the pattern made of that
    lower-cased, stripped query, escaped, between two word boundaries
    compiles to the query's characters between two word boundaries, and
    [matches_search_query] returns true exactly when it occurs as a whole
    word, letter case apart, in the title or in the abstract. The query
    "labor" does not match a record titled "Collaborative governance". *)
Theorem C6_query_matches_whole_word
    (q base : str) (sd ed : option str) (p : paper) :
  q <> [] ->
  strip (lower q) <> lit "ai" ->
  let w := strip (lower q) in
  Re.compile (word_pattern w) = Some (word_items w)
  /\ (matches_search_query (NBERScraper_init q base sd ed) p = true <->
      whole_word_occurs w (or_empty (title p))
      \/ whole_word_occurs w (or_empty (abstract p)))
  /\ matches_search_query
       (NBERScraper_init (lit "labor") base sd ed)
       (Scenario.titled (Some (lit "Collaborative governance")) None)
     = false.
Proof.
  intros Hne Hai w.
  split; [apply compile_word_pattern|].
  split; [|vm_compute; reflexivity].
  rewrite matches_search_query_unfold
    by (rewrite init_search_query, truthy_lower by exact Hne;
        apply truthy_nonempty; exact Hne).
  rewrite init_search_query by exact Hne.
  rewrite lower_idem. fold w.
  unfold search_terms_for.
  apply eqb_neq in Hai. fold w in Hai. rewrite Hai.
  rewrite orb_true_iff, !any_single_term. reflexivity.
Qed.

(** The query " Labor  " against a record titled "Labor markets". *)
Lemma C6_witness :
  (lit " Labor  " <> [] /\ strip (lower (lit " Labor  ")) <> lit "ai")
  /\ matches_search_query
       (NBERScraper_init (lit " Labor  ") default_base_url None None)
       (Scenario.titled (Some (lit "Labor markets")) None)
     = true.
Proof.
  assert (H1 : lit " Labor  " <> []) by discriminate.
  assert (H2 : strip (lower (lit " Labor  ")) <> lit "ai")
    by (vm_compute; discriminate).
  split; [split; assumption|].
  apply (C6_query_matches_whole_word (lit " Labor  ") default_base_url
           None None _ H1 H2).
  left. apply search_word_spec. vm_compute. reflexivity.
Defined.

(** ** Dates *)

Section Dates.

Import Datetime.

Local Ltac each_char c :=
  destruct c as [[] [] [] [] [] [] [] []]; vm_compute; intuition congruence.

Lemma dash_char_not_slash (c : ascii) :
  date_char "-" c = true -> ascii_eqb "/" c = false.
Proof. each_char c. Qed.

Lemma slash_char_not_dash (c : ascii) :
  date_char "/" c = true -> ascii_eqb "-" c = false.
Proof. each_char c. Qed.

Lemma date_char_digit (sep c : ascii) (lo hi : N) :
  (48 <= lo)%N -> (hi <= 57)%N ->
  in_range lo hi c = true -> date_char sep c = true.
Proof.
  intros Hlo Hhi H. unfold date_char, isdigit.
  rewrite (in_range_weaken lo hi 48 57 c Hlo Hhi H). reflexivity.
Qed.

Lemma date_char_eq_digit (sep c d : ascii) :
  isdigit d = true -> ascii_eqb c d = true -> date_char sep c = true.
Proof.
  intros Hd H. apply ascii_eqb_eq in H. subst c.
  unfold date_char. rewrite Hd. reflexivity.
Qed.

Lemma date_char_space (sep c : ascii) :
  ascii_eqb c SP = true -> date_char sep c = true.
Proof. intros H. unfold date_char. rewrite H. apply orb_true_r. Qed.

Lemma date_char_sep (sep c : ascii) :
  ascii_eqb c sep = true -> date_char sep c = true.
Proof. intros H. unfold date_char. rewrite H. rewrite orb_true_r. reflexivity. Qed.

(** Closes [date_char sep c = true] from a test on [c] in the context. *)
Local Ltac date_char_tac :=
  repeat match goal with
    | H : _ && _ = true |- _ => apply andb_true_iff in H as [? ?]
    end;
  match goal with
  | H : in_range _ _ ?c = true |- date_char _ ?c = true =>
      refine (date_char_digit _ _ _ _ _ _ H); lia
  | H : isdigit ?c = true |- date_char _ ?c = true =>
      refine (date_char_digit _ _ 48 57 _ _ H); lia
  | H : ascii_eqb ?c SP = true |- date_char _ ?c = true =>
      apply (date_char_space _ _ H)
  | H : ascii_eqb ?c _ = true |- date_char _ ?c = true =>
      refine (date_char_eq_digit _ _ _ _ H); reflexivity
  end.

Local Ltac chars_tac :=
  cbn [forallb]; rewrite ?andb_true_iff; repeat split; date_char_tac.

Local Ltac in_alts H :=
  repeat (apply in_app_or in H as [H|H]);
  match type of H with
  | In _ (if ?c then _ else _) =>
      let E := fresh "E" in
      destruct c eqn:E; [destruct H as [H|[]]; inversion H; subst; clear H
                        | destruct H]
  end.

Lemma month_alts_chars (sep : ascii) (s r : str) (m : Z) :
  In (m, r) (month_alts s) ->
  exists pre, s = pre ++ r /\ forallb (date_char sep) pre = true.
Proof.
  destruct s as [|a [|b s]]; cbn [month_alts]; intros H; [destruct H| |].
  - in_alts H. exists [a]. split; [reflexivity | chars_tac].
  - in_alts H.
    + exists [a; b]. split; [reflexivity | chars_tac].
    + exists [a; b]. split; [reflexivity | chars_tac].
    + exists [a]. split; [reflexivity | chars_tac].
Qed.

Lemma day_alts_chars (sep : ascii) (s r : str) (d : Z) :
  In (d, r) (day_alts s) ->
  exists pre, s = pre ++ r /\ forallb (date_char sep) pre = true.
Proof.
  destruct s as [|a [|b s]]; cbn [day_alts]; intros H; [destruct H| |].
  - in_alts H. exists [a]. split; [reflexivity | chars_tac].
  - in_alts H.
    + exists [a; b]. split; [reflexivity | chars_tac].
    + exists [a; b]. split; [reflexivity | chars_tac].
    + exists [a; b]. split; [reflexivity | chars_tac].
    + exists [a]. split; [reflexivity | chars_tac].
    + exists [a; b]. split; [reflexivity | chars_tac].
Qed.

Lemma month_sep_day_inv (sep : ascii) (alts : list (Z * str))
    (m d : Z) (rest : str) :
  month_sep_day sep alts = Some (m, d, rest) ->
  exists c r more,
    In (m, c :: r) alts /\ ascii_eqb c sep = true
    /\ day_alts r = (d, rest) :: more.
Proof.
  induction alts as [|[m0 r0] alts IH]; cbn [month_sep_day]; [discriminate|].
  intros H.
  assert (Hlater : month_sep_day sep alts = Some (m, d, rest) ->
                   exists c r more,
                     In (m, c :: r) ((m0, r0) :: alts)
                     /\ ascii_eqb c sep = true
                     /\ day_alts r = (d, rest) :: more).
  { intros H'. destruct (IH H') as (c & r & more & Hin & Hc & Hd).
    exists c, r, more. simpl. auto. }
  destruct r0 as [|c r]; [auto|].
  destruct (ascii_eqb c sep) eqn:Ec; [|auto].
  destruct (day_alts r) as [|[d0 rest0] more] eqn:Ed; [auto|].
  inversion H; subst. exists c, r, more. simpl. auto.
Qed.

(** A string that [strptime] accepts holds the separator, and nothing but
    digits, separators and spaces. *)
Lemma strptime_chars (sep : ascii) (s : str) (d : datetime) :
  strptime sep s = inr d ->
  contains sep s = true /\ forallb (date_char sep) s = true.
Proof.
  unfold strptime.
  destruct s as [|y1 [|y2 [|y3 [|y4 [|c r]]]]]; try discriminate.
  destruct (isdigit y1 && isdigit y2 && isdigit y3 && isdigit y4
            && ascii_eqb c sep) eqn:E; [|discriminate].
  destruct (month_sep_day sep (month_alts r)) as [[[m dd] rest]|] eqn:Em;
    [|discriminate].
  destruct rest; [|discriminate]. intros _.
  apply month_sep_day_inv in Em as (c2 & r2 & more & Hin & Hc2 & Hd).
  apply (month_alts_chars sep) in Hin as (pre1 & -> & Hpre1).
  assert (Hday : In (dd, []) (day_alts r2)) by (rewrite Hd; simpl; auto).
  apply (day_alts_chars sep) in Hday as (pre2 & -> & Hpre2).
  apply andb_true_iff in E as [E Hc].
  apply andb_true_iff in E as [E D4].
  apply andb_true_iff in E as [E D3].
  apply andb_true_iff in E as [D1 D2].
  split.
  - unfold contains. cbn [existsb].
    replace (ascii_eqb sep c) with true; [rewrite !orb_true_r; reflexivity|].
    symmetry. apply ascii_eqb_eq. symmetry. apply ascii_eqb_eq. assumption.
  - cbn [forallb]. rewrite forallb_app. cbn [forallb].
    rewrite app_nil_r, Hpre1, Hpre2.
    rewrite (date_char_sep sep c), (date_char_sep sep c2) by assumption.
    rewrite !(date_char_digit sep _ 48 57) by (assumption || lia).
    reflexivity.
Qed.

Lemma dash_chars_no_slash (s : str) :
  forallb (date_char "-") s = true -> contains "/" s = false.
Proof.
  unfold contains. induction s as [|c s IH]; cbn [forallb existsb]; [reflexivity|].
  intros H. apply andb_true_iff in H as [Hc Hs].
  rewrite (dash_char_not_slash c Hc), (IH Hs). reflexivity.
Qed.

Lemma strptime_slash_has_slash (s : str) :
  contains "/" s = false -> returned (strptime "/" s) = None.
Proof.
  intros H. destruct (strptime "/" s) as [e|d] eqn:E; [reflexivity|].
  apply strptime_chars in E as [Hc _]. congruence.
Qed.

Lemma strptime_dash_has_dash (s : str) :
  contains "-" s = false -> returned (strptime "-" s) = None.
Proof.
  intros H. destruct (strptime "-" s) as [e|d] eqn:E; [reflexivity|].
  apply strptime_chars in E as [Hc _]. congruence.
Qed.

Lemma strptime_dash_no_slash (s : str) :
  contains "/" s = true -> returned (strptime "-" s) = None.
Proof.
  intros H. destruct (strptime "-" s) as [e|d] eqn:E; [reflexivity|].
  apply strptime_chars in E as [_ Hc].
  apply dash_chars_no_slash in Hc. congruence.
Qed.

Lemma parse_date_returned (s : str) :
  parse_date s
  = match returned (strptime "/" s) with
    | Some d => Some d
    | None => returned (strptime "-" s)
    end.
Proof.
  unfold parse_date, returned.
  destruct (strptime "/" s); [destruct (strptime "-" s)|]; reflexivity.
Qed.

(** The way a bound is parsed finds the date the bound denotes in either
    format. *)
Lemma returned_parse_bound (s : str) : returned (parse_bound s) = parse_date s.
Proof.
  rewrite parse_date_returned. unfold parse_bound.
  destruct (contains "/" s) eqn:E.
  - rewrite (strptime_dash_no_slash s E). destruct (returned _); reflexivity.
  - rewrite (strptime_slash_has_slash s E). reflexivity.
Qed.

(** So does the way the publication date is parsed. *)
Lemma returned_parse_publication (s : str) :
  match (if contains "/" s then Some (strptime "/" s)
         else if contains "-" s then Some (strptime "-" s)
         else None) with
  | Some r => returned r
  | None => None
  end = parse_date s.
Proof.
  rewrite parse_date_returned.
  destruct (contains "/" s) eqn:E.
  - rewrite (strptime_dash_no_slash s E). destruct (returned _); reflexivity.
  - rewrite (strptime_slash_has_slash s E).
    destruct (contains "-" s) eqn:E'; [reflexivity|].
    rewrite (strptime_dash_has_dash s E'). reflexivity.
Qed.

Lemma before_start_spec (self : NBERScraper) (d : datetime) :
  before_start self d = true <->
  exists b bd, start_date self = Some b /\ parse_date b = Some bd
               /\ lt d bd = true.
Proof.
  unfold before_start. destruct (start_date self) as [b|].
  - destruct (truthy b) eqn:Et.
    + destruct (parse_bound b) as [e|bd] eqn:Eb.
      * split; [discriminate|].
        intros (b' & bd & Hb & Hp & _). inversion Hb; subst b'.
        rewrite <- returned_parse_bound, Eb in Hp. discriminate.
      * split.
        -- intros H. exists b, bd. rewrite <- returned_parse_bound, Eb. auto.
        -- intros (b' & bd' & Hb & Hp & Hlt). inversion Hb; subst b'.
           rewrite <- returned_parse_bound, Eb in Hp. inversion Hp; subst.
           exact Hlt.
    + destruct b; [|discriminate]. split; [discriminate|].
      intros (b' & bd & Hb & Hp & _). inversion Hb; subst b'. discriminate.
  - split; [discriminate|]. intros (b & bd & Hb & _). discriminate.
Qed.

Lemma after_end_spec (self : NBERScraper) (d : datetime) :
  after_end self d = true <->
  exists b bd, end_date self = Some b /\ parse_date b = Some bd
               /\ lt bd d = true.
Proof.
  unfold after_end. destruct (end_date self) as [b|].
  - destruct (truthy b) eqn:Et.
    + destruct (parse_bound b) as [e|bd] eqn:Eb.
      * split; [discriminate|].
        intros (b' & bd & Hb & Hp & _). inversion Hb; subst b'.
        rewrite <- returned_parse_bound, Eb in Hp. discriminate.
      * split.
        -- intros H. exists b, bd. rewrite <- returned_parse_bound, Eb. auto.
        -- intros (b' & bd' & Hb & Hp & Hlt). inversion Hb; subst b'.
           rewrite <- returned_parse_bound, Eb in Hp. inversion Hp; subst.
           exact Hlt.
    + destruct b; [|discriminate]. split; [discriminate|].
      intros (b' & bd & Hb & Hp & _). inversion Hb; subst b'. discriminate.
  - split; [discriminate|]. intros (b & bd & Hb & _). discriminate.
Qed.

Lemma before_start_unset (self : NBERScraper) (d : datetime) :
  otruthy (start_date self) = false -> before_start self d = false.
Proof.
  unfold before_start, otruthy. destruct (start_date self) as [b|]; [|reflexivity].
  intros ->. reflexivity.
Qed.

Lemma after_end_unset (self : NBERScraper) (d : datetime) :
  otruthy (end_date self) = false -> after_end self d = false.
Proof.
  unfold after_end, otruthy. destruct (end_date self) as [b|]; [|reflexivity].
  intros ->. reflexivity.
Qed.

(** [matches_date_range] in terms of the date the publication date
    denotes. *)
Lemma matches_date_range_char (self : NBERScraper) (p : paper) :
  matches_date_range self p
  = match publication_date p with
    | None => true
    | Some s =>
        match parse_date s with
        | None => true
        | Some d => negb (before_start self d || after_end self d)
        end
    end.
Proof.
  unfold matches_date_range.
  destruct (negb (otruthy (start_date self)) && negb (otruthy (end_date self)))
    eqn:Eset.
  - apply andb_true_iff in Eset as [Hs He].
    apply negb_true_iff in Hs, He.
    destruct (publication_date p) as [s|]; [|reflexivity].
    destruct (parse_date s) as [d|]; [|reflexivity].
    rewrite before_start_unset, after_end_unset by assumption. reflexivity.
  - destruct (publication_date p) as [s|]; [|reflexivity].
    destruct (truthy s) eqn:Et; cbn [negb].
    + rewrite <- (returned_parse_publication s).
      destruct (if contains "/" s then Some (strptime "/" s)
                else if contains "-" s then Some (strptime "-" s)
                else None) as [[e|d]|]; cbn [returned]; try reflexivity.
      destruct (before_start self d); [reflexivity|].
      destruct (after_end self d); reflexivity.
    + destruct s; [reflexivity | discriminate].
Qed.

End Dates.

(** C7. [matches_date_range] returns true for a record with no
    publication date and for one whose publication date denotes no date
    in either format. When it denotes the date [d], the result is false
    exactly when the start bound denotes a date and [d] is strictly before
    it, or the end bound denotes a date and [d] is strictly after it. A
    bound that denotes no date changes nothing: the result is the one
    obtained without that bound. *)
Theorem C7_date_range_filter (self : NBERScraper) (p : paper) :
  (publication_date p = None -> matches_date_range self p = true)
  /\ (forall s, publication_date p = Some s -> parse_date s = None ->
                matches_date_range self p = true)
  /\ (forall s d, publication_date p = Some s -> parse_date s = Some d ->
        (matches_date_range self p = false <->
         (exists b bd, start_date self = Some b /\ parse_date b = Some bd
                       /\ Datetime.lt d bd = true)
         \/ (exists b bd, end_date self = Some b /\ parse_date b = Some bd
                          /\ Datetime.lt bd d = true)))
  /\ (forall b, start_date self = Some b -> parse_date b = None ->
        matches_date_range self p
        = matches_date_range
            (mk_scraper (search_query self) (base_url self) None (end_date self)) p)
  /\ (forall b, end_date self = Some b -> parse_date b = None ->
        matches_date_range self p
        = matches_date_range
            (mk_scraper (search_query self) (base_url self) (start_date self) None) p).
Proof.
  repeat split.
  - intros H. rewrite matches_date_range_char, H. reflexivity.
  - intros s Hs Hp. rewrite matches_date_range_char, Hs, Hp. reflexivity.
  - rewrite matches_date_range_char, H, H0.
    rewrite negb_false_iff, orb_true_iff, before_start_spec, after_end_spec.
    auto.
  - rewrite matches_date_range_char, H, H0.
    rewrite negb_false_iff, orb_true_iff, before_start_spec, after_end_spec.
    auto.
  - intros b Hb Hp. rewrite !matches_date_range_char.
    destruct (publication_date p) as [s|]; [|reflexivity].
    destruct (parse_date s) as [d|]; [|reflexivity].
    assert (H1 : before_start self d = false).
    { destruct (before_start self d) eqn:E; [|reflexivity].
      apply before_start_spec in E as (b' & bd & Hb' & Hp' & _).
      congruence. }
    rewrite H1. reflexivity.
  - intros b Hb Hp. rewrite !matches_date_range_char.
    destruct (publication_date p) as [s|]; [|reflexivity].
    destruct (parse_date s) as [d|]; [|reflexivity].
    assert (H1 : after_end self d = false).
    { destruct (after_end self d) eqn:E; [|reflexivity].
      apply after_end_spec in E as (b' & bd & Hb' & Hp' & _).
      congruence. }
    rewrite H1. reflexivity.
Qed.

(** The record dated 2022/05/01 against the window from 2022-01-01 to
    2021-12-31: the end bound denotes a date and the record's date is
    after it, so the record is rejected. *)
Lemma C7_witness :
  matches_date_range
    (NBERScraper_init [] default_base_url
       (Some (lit "2022-01-01")) (Some (lit "2021-12-31")))
    (Scenario.dated (Some (lit "2022/05/01")))
  = false.
Proof.
  destruct (C7_date_range_filter
              (NBERScraper_init [] default_base_url
                 (Some (lit "2022-01-01")) (Some (lit "2021-12-31")))
              (Scenario.dated (Some (lit "2022/05/01"))))
    as (_ & _ & Hparsed & _).
  apply (Hparsed (lit "2022/05/01") (Datetime.mk_datetime 2022 5 1)
           eq_refl eq_refl).
  right. exists (lit "2021-12-31"), (Datetime.mk_datetime 2021 12 31).
  repeat split; reflexivity.
Defined.

(** The dates of the window scenario: 2022/05/01 is after the end bound
    2021-12-31 and inside the window that ends on 2023-01-01; a record
    with no date, or with one that is no date, passes any window. *)
Example date_range_examples :
  let window e := NBERScraper_init [] default_base_url
                    (Some (lit "2022-01-01")) (Some (lit e)) in
  matches_date_range (window "2021-12-31"%string)
                     (Scenario.dated (Some (lit "2022/05/01"))) = false
  /\ matches_date_range (window "2023-01-01"%string)
                        (Scenario.dated (Some (lit "2022/05/01"))) = true
  /\ matches_date_range (window "2023-01-01"%string) (Scenario.dated None) = true
  /\ matches_date_range (window "2023-01-01"%string)
                        (Scenario.dated (Some (lit "2022/02/30"))) = true
  /\ matches_date_range (window "2023-01-01"%string)
                        (Scenario.dated (Some (lit "2021/12/31"))) = false
  /\ matches_date_range (window "not a date"%string)
                        (Scenario.dated (Some (lit "2030/01/01"))) = true.
Proof. cbv zeta. repeat split; vm_compute; reflexivity. Qed.

(** ** Computations *)

Section Computations.

Context {A B : Type}.

Lemma bind_inr (c : M A) (k : A -> M B) (s s' : State) (b : B) :
  bind c k s = (inr b, s') ->
  exists a s1, c s = (inr a, s1) /\ k a s1 = (inr b, s').
Proof.
  unfold bind. destruct (c s) as [[e|a] s1]; [discriminate|].
  intros H. exists a, s1. auto.
Qed.

Lemma bind_run (c : M A) (k : A -> M B) (s s1 : State) (a : A) :
  c s = (inr a, s1) -> bind c k s = k a s1.
Proof. unfold bind. intros ->. reflexivity. Qed.

Lemma bind_raise (c : M A) (k : A -> M B) (s s1 : State) (e : exn) :
  c s = (inl e, s1) -> bind c k s = (inl e, s1).
Proof. unfold bind. intros ->. reflexivity. Qed.

Lemma ret_inv (a a' : A) (s s' : State) :
  ret a s = (inr a', s') -> a = a' /\ s = s'.
Proof. unfold ret. intros H. inversion H. auto. Qed.

End Computations.

(** ** What touches [self.papers] *)

Section Papers.

Lemma extends_refl {A} (l : list A) : extends l l.
Proof. exists []. symmetry. apply app_nil_r. Qed.

Lemma extends_trans {A} (l1 l2 l3 : list A) :
  extends l1 l2 -> extends l2 l3 -> extends l1 l3.
Proof.
  intros [a ->] [b ->]. exists (a ++ b). symmetry. apply app_assoc.
Qed.

Lemma keeps_ret {A} (a : A) : keeps_papers (ret a).
Proof. intros s. reflexivity. Qed.

Lemma keeps_raise {A} (e : exn) : keeps_papers (@raise A e).
Proof. intros s. reflexivity. Qed.

Lemma keeps_lift {A} (r : exn + A) : keeps_papers (lift r).
Proof. intros s. reflexivity. Qed.

Lemma keeps_io {A} (op : nat -> exn + A) : keeps_papers (io op).
Proof. intros s. reflexivity. Qed.

Lemma keeps_sleep (k : nat) : keeps_papers (sleep k).
Proof. intros s. reflexivity. Qed.

Lemma keeps_get_papers : keeps_papers get_papers.
Proof. intros s. reflexivity. Qed.

Lemma keeps_bind {A B} (c : M A) (k : A -> M B) :
  keeps_papers c -> (forall a, keeps_papers (k a)) -> keeps_papers (bind c k).
Proof.
  intros Hc Hk s. unfold bind. specialize (Hc s).
  destruct (c s) as [[e|a] s1]; simpl in *; [exact Hc|].
  rewrite (Hk a s1). exact Hc.
Qed.

Lemma keeps_try_except {A} (c : M A) (h : exn -> M A) :
  keeps_papers c -> (forall e, keeps_papers (h e)) ->
  keeps_papers (try_except c h).
Proof.
  intros Hc Hh s. unfold try_except. specialize (Hc s).
  destruct (c s) as [[e|a] s1]; simpl in *; [|exact Hc].
  rewrite (Hh e s1). exact Hc.
Qed.

Lemma keeps_try_except_request {A} (c : M A) (h : exn -> M A) :
  keeps_papers c -> (forall e, keeps_papers (h e)) ->
  keeps_papers (try_except_request c h).
Proof.
  intros Hc Hh. apply keeps_try_except; [exact Hc|].
  intros e. destruct (is_request_exception e); [apply Hh | apply keeps_raise].
Qed.

Lemma keeps_write (env : Env) (path : str) (d : file_data) :
  keeps_papers (write env path d).
Proof.
  apply keeps_bind; [apply keeps_io|]. intros _ s. reflexivity.
Qed.

Lemma keeps_appends {A} (c : M A) : keeps_papers c -> appends_only c.
Proof. intros H s. rewrite (H s). apply extends_refl. Qed.

Lemma appends_bind {A B} (c : M A) (k : A -> M B) :
  appends_only c -> (forall a, appends_only (k a)) -> appends_only (bind c k).
Proof.
  intros Hc Hk s. unfold bind. specialize (Hc s).
  destruct (c s) as [[e|a] s1]; simpl in *; [exact Hc|].
  eapply extends_trans; [exact Hc | apply Hk].
Qed.

Lemma appends_papers_append (p : paper) : appends_only (papers_append p).
Proof. intros s. exists [p]. reflexivity. Qed.

End Papers.

Create HintDb papers discriminated.

#[export] Hint Resolve keeps_ret keeps_raise keeps_lift keeps_io keeps_sleep
  keeps_get_papers keeps_write : papers.

(** Goes through a computation built from the operations above. *)
Ltac keeps_tac :=
  repeat first
    [ progress auto with papers
    | apply keeps_bind
    | apply keeps_try_except_request
    | apply keeps_try_except
    | match goal with
      | |- forall _, _ => intro
      | |- keeps_papers (if ?b then _ else _) => destruct b
      | |- keeps_papers (match ?x with _ => _ end) => destruct x
      end ].

Section PapersOfTheClass.

Variable env : Env.

Lemma keeps_get_page (url : str) (retries : nat) :
  keeps_papers (get_page env url retries).
Proof.
  unfold get_page. induction retries as [|n IH]; cbn [get_page_attempts].
  - keeps_tac.
  - apply keeps_try_except_request.
    + unfold get_page_try, raise_for_status. keeps_tac.
    + intros e. destruct n; [keeps_tac|].
      apply keeps_bind; [keeps_tac | intros _; exact IH].
Qed.

Lemma keeps_abstract_by_selectors (soup : Soup) (selectors : list str) :
  keeps_papers (abstract_by_selectors soup selectors).
Proof.
  induction selectors as [|sel rest IH]; cbn [abstract_by_selectors].
  - keeps_tac.
  - apply keeps_bind; [keeps_tac|]. intros [elem|]; [keeps_tac | exact IH].
Qed.

Lemma keeps_abstract_fallback (soup : Soup) (found : option str) :
  keeps_papers (abstract_fallback soup found).
Proof. unfold abstract_fallback. keeps_tac. Qed.

Lemma keeps_now : keeps_papers (fun s => (inr (now_isoformat env (ticks s)), s)).
Proof. intros s. reflexivity. Qed.

#[local] Hint Resolve keeps_get_page keeps_abstract_by_selectors
  keeps_abstract_fallback keeps_now : papers.

Lemma keeps_extract_body (self : NBERScraper) (n : Z) :
  keeps_papers (extract_body env self n).
Proof. unfold extract_body, meta_field. keeps_tac. Qed.

Lemma keeps_extract_paper_metadata (self : NBERScraper) (n : Z) :
  keeps_papers (extract_paper_metadata env self n).
Proof.
  unfold extract_paper_metadata.
  apply keeps_try_except; [apply keeps_extract_body | keeps_tac].
Qed.

Lemma keeps_download_pdf (pdf : option str) (id : str) :
  keeps_papers (download_pdf env pdf id).
Proof. unfold download_pdf. keeps_tac. Qed.

Lemma keeps_save_to_json (filename : str) :
  keeps_papers (save_to_json env filename).
Proof. unfold save_to_json. keeps_tac. Qed.

Lemma keeps_detect_start (self : NBERScraper) (candidates : list Z) :
  keeps_papers (detect_start env self candidates).
Proof.
  induction candidates as [|n rest IH]; cbn [detect_start]; [keeps_tac|].
  apply keeps_bind; [keeps_tac|].
  intros [st|]; [destruct (st =? 200); [keeps_tac | exact IH] | exact IH].
Qed.

#[local] Hint Resolve keeps_extract_paper_metadata keeps_download_pdf
  keeps_save_to_json keeps_detect_start : papers.

Lemma keeps_resolve_start (self : NBERScraper) (start_number : option Z) :
  keeps_papers (resolve_start env self start_number).
Proof. unfold resolve_start. keeps_tac. Qed.

Lemma appends_accept_paper (dl : bool) (p : paper) (found : Z) :
  appends_only (accept_paper env dl p found).
Proof.
  unfold accept_paper.
  apply appends_bind; [apply appends_papers_append|]. intros _.
  apply keeps_appends. destruct (title p); [|keeps_tac].
  apply keeps_bind.
  - destruct (dl && otruthy (pdf_url p)); [apply keeps_download_pdf | keeps_tac].
  - intros _. apply keeps_bind; [|keeps_tac].
    destruct (_ =? 0); [apply keeps_save_to_json | keeps_tac].
Qed.

Lemma appends_scan_iteration (self : NBERScraper) (dl : bool) (v : loop_vars) :
  appends_only (scan_iteration env self dl v).
Proof.
  unfold scan_iteration.
  apply appends_bind; [apply keeps_appends, keeps_extract_paper_metadata|].
  intros [p|]; [|apply keeps_appends; keeps_tac].
  apply appends_bind; [|intros ?; apply keeps_appends; keeps_tac].
  destruct (matches_search_query self p && matches_date_range self p);
    [apply appends_accept_paper | apply keeps_appends; keeps_tac].
Qed.

Lemma appends_scan_loop (self : NBERScraper) (mp mg : option Z) (dl : bool)
    (fuel : nat) (v : loop_vars) :
  appends_only (scan_loop env self mp mg dl fuel v).
Proof.
  revert v; induction fuel as [|fuel IH]; intros v; cbn [scan_loop];
    destruct (stop_check mp mg v); try solve [apply keeps_appends; keeps_tac].
  apply appends_bind; [apply appends_scan_iteration | exact IH].
Qed.

Lemma appends_scrape_run (self : NBERScraper) (mp mg start : option Z) (dl : bool) :
  appends_only (scrape_run env self mp mg start dl).
Proof.
  unfold scrape_run.
  apply appends_bind; [apply keeps_appends, keeps_resolve_start|].
  intros n. apply appends_scan_loop.
Qed.

Lemma appends_scrape_papers (self : NBERScraper) (mp mg start : option Z) (dl : bool) :
  appends_only (scrape_papers env self mp mg start dl).
Proof.
  unfold scrape_papers.
  apply appends_bind; [apply appends_scrape_run|].
  intros _. apply keeps_appends. keeps_tac.
Qed.

(** What [scrape_papers] returns is [self.papers] as the call leaves it. *)
Lemma scrape_papers_returns_papers (self : NBERScraper)
    (mp mg start : option Z) (dl : bool) (s s' : State) (l : list paper) :
  scrape_papers env self mp mg start dl s = (inr l, s') -> l = papers s'.
Proof.
  unfold scrape_papers. intros H.
  apply bind_inr in H as (r & s1 & _ & H).
  unfold get_papers in H. inversion H. reflexivity.
Qed.

End PapersOfTheClass.

(** C10. Over the life of the object [self.papers] only grows at its end.
    [__init__] leaves it empty; [get_page], [extract_paper_metadata],
    [download_pdf] and [save_to_json] leave it as it is; [scrape_papers]
    only appends to it, and returns it: what a second call on the same
    object returns starts with everything the first call returned. *)
Theorem C10_papers_append_only (env : Env) (self : NBERScraper) :
  papers init_state = []
  /\ (forall url retries, keeps_papers (get_page env url retries))
  /\ (forall n, keeps_papers (extract_paper_metadata env self n))
  /\ (forall pdf id, keeps_papers (download_pdf env pdf id))
  /\ (forall filename, keeps_papers (save_to_json env filename))
  /\ (forall mp mg start dl,
        appends_only (scrape_papers env self mp mg start dl))
  /\ (forall mp mg start dl mp' mg' start' dl' s l1 s1 l2 s2,
        scrape_papers env self mp mg start dl s = (inr l1, s1) ->
        scrape_papers env self mp' mg' start' dl' s1 = (inr l2, s2) ->
        extends l1 l2).
Proof.
  split; [reflexivity|].
  split; [intros; apply keeps_get_page|].
  split; [intros; apply keeps_extract_paper_metadata|].
  split; [intros; apply keeps_download_pdf|].
  split; [intros; apply keeps_save_to_json|].
  split; [intros; apply appends_scrape_papers|].
  intros mp mg start dl mp' mg' start' dl' s l1 s1 l2 s2 H1 H2.
  pose proof (appends_scrape_papers env self mp' mg' start' dl' s1) as Happ.
  rewrite H2 in Happ. cbn [snd] in Happ.
  apply scrape_papers_returns_papers in H1, H2. subst l1 l2. exact Happ.
Qed.

(** Two scans on one object: the second returns the papers of the first,
    then its own. *)
Example two_scans_accumulate :
  let self := Scenario.plain_scraper in
  let run := scrape_papers Scenario.env_two self None (Some 1) (Some 100) false in
  let ids r := match fst r with inr l => map paper_id l | inl _ => [] end in
  ids (run init_state) = [lit "w100"]
  /\ ids (run (snd (run init_state))) = [lit "w100"; lit "w100"].
Proof. cbv zeta. split; vm_compute; reflexivity. Qed.

(** ** The fetch primitive and the extractor *)

Section Fetch.

Variable env : Env.


Lemma get_page_try_http_error (url : str) (s : State) (r : Response) :
  session_get env (ticks s) url = inr r ->
  400 <= status_code r < 600 ->
  get_page_try env url s
  = (inl (RequestException (HTTPError (status_code r))), ticked s).
Proof.
  intros Hget Hst. unfold get_page_try, bind, io, raise_for_status.
  rewrite Hget.
  destruct ((400 <=? status_code r) && (status_code r <? 600)) eqn:E.
  - reflexivity.
  - apply andb_false_iff in E as [E|E]; lia.
Qed.

Lemma get_page_try_raises (url : str) (s : State) (e : exn) :
  session_get env (ticks s) url = inl e ->
  get_page_try env url s = (inl e, ticked s).
Proof.
  intros Hget. unfold get_page_try, bind, io. rewrite Hget. reflexivity.
Qed.

(** An attempt that ends in a request exception is the last one, or is
    followed by a doubled delay and the attempts that remain. *)
Lemma get_page_attempts_failed (url : str) (n : nat) (s s1 : State)
    (e : request_error) :
  get_page_try env url s = (inl (RequestException e), s1) ->
  get_page_attempts env url (S n) s
  = match n with
    | O => (inl (RequestException e), s1)
    | S _ => get_page_attempts env url n (snd (sleep 2 s1))
    end.
Proof.
  intros H. cbn [get_page_attempts].
  unfold try_except_request, try_except. rewrite H. cbn [is_request_exception].
  destruct n; reflexivity.
Qed.


(** When every attempt is answered with the same error status, [get_page]
    makes all its attempts and raises the [HTTPError] of the last. *)
Lemma get_page_http_error (url : str) (st : Z) (n : nat) (s : State) :
  400 <= st < 600 ->
  (forall t, exists c, session_get env t url = inr (mk_response st c)) ->
  fst (get_page env url (S n) s) = inl (RequestException (HTTPError st))
  /\ ticks (snd (get_page env url (S n) s)) = (ticks s + S n)%nat.
Proof.
  intros Hst Hall. unfold get_page. revert s.
  induction n as [|n IH]; intros s.
  - destruct (Hall (ticks s)) as [c Hc].
    rewrite (get_page_attempts_failed url 0 s (ticked s) (HTTPError st)).
    + simpl. split; [reflexivity | lia].
    + apply (get_page_try_http_error url s _ Hc). exact Hst.
  - destruct (Hall (ticks s)) as [c Hc].
    rewrite (get_page_attempts_failed url (S n) s (ticked s) (HTTPError st)).
    + destruct (IH (snd (sleep 2 (ticked s)))) as [H1 H2].
      split; [exact H1|]. rewrite H2. simpl. lia.
    + apply (get_page_try_http_error url s _ Hc). exact Hst.
Qed.


(** [extract_paper_metadata] never raises. *)
Lemma extract_never_raises (self : NBERScraper) (n : Z) (s : State) :
  exists r, fst (extract_paper_metadata env self n s) = inr r.
Proof.
  unfold extract_paper_metadata, try_except.
  destruct (extract_body env self n s) as [[e|r] s1].
  - exists None. destruct (is_request_exception e); reflexivity.
  - exists r. reflexivity.
Qed.

(** Whatever [get_page] raises, the extractor returns [None]. *)
Lemma extract_null_on_error (self : NBERScraper) (n : Z) (s : State) (e : exn) :
  fst (get_page env (paper_url self n) default_retries s) = inl e ->
  fst (extract_paper_metadata env self n s) = inr None.
Proof.
  intros H. unfold extract_paper_metadata, try_except, extract_body, bind.
  destruct (get_page env (paper_url self n) default_retries s) as [[e'|r] s1];
    simpl in H; [|discriminate].
  destruct (is_request_exception e'); reflexivity.
Qed.

(** The record the body of the extractor returns carries the number it
    was asked for. *)
Lemma extract_body_paper (self : NBERScraper) (n : Z) (s s' : State) (p : paper) :
  extract_body env self n s = (inr (Some p), s') ->
  paper_id p = lit "w" ++ of_Z n /\ url p = paper_url self n.
Proof.
  unfold extract_body. intros H.
  apply bind_inr in H as ([response|] & s1 & _ & H); [|discriminate].
  apply bind_inr in H as (soup & s2 & _ & H).
  destruct (status_code response =? 404); [discriminate|].
  do 8 (apply bind_inr in H as (? & ? & _ & H)).
  apply ret_inv in H as [H _]. inversion H. split; reflexivity.
Qed.

End Fetch.




(** C2. For every number [i] and in every world, [extract_paper_metadata]
    returns, and raises nothing: it returns [None], or a record whose
    [paper_id] is "w" followed by [i] and whose [url] is the base URL
    followed by "/papers/w" and [i]. *)
Theorem C2_extract_returns_record_or_null
    (env : Env) (self : NBERScraper) (i : Z) (s : State) :
  exists r s',
    extract_paper_metadata env self i s = (inr r, s')
    /\ (r = None
        \/ exists p, r = Some p
                     /\ paper_id p = lit "w" ++ of_Z i
                     /\ url p = base_url self ++ lit "/papers/w" ++ of_Z i).
Proof.
  unfold extract_paper_metadata, try_except.
  destruct (extract_body env self i s) as [[e|[p|]] s1] eqn:E.
  - exists None, s1. split; [|left; reflexivity].
    destruct (is_request_exception e); reflexivity.
  - exists (Some p), s1. split; [reflexivity|]. right. exists p.
    apply extract_body_paper in E as [H1 H2]. auto.
  - exists None, s1. auto.
Qed.

(** The extractor on a page that exists, on a page that answers 404, on
    a network that fails, and on a parser that raises. *)
Example extract_examples :
  let ok e := option_map paper_id
                (match fst (extract_paper_metadata e Scenario.plain_scraper 7 init_state)
                 with inr r => r | inl _ => None end) in
  ok (Scenario.env_selector (lit "Abstract: wages")) = Some (lit "w7")
  /\ ok Scenario.env_404 = None
  /\ ok (Scenario.world (fun _ _ => inl (RequestException Timeout))
           Scenario.empty_soup) = None
  /\ ok (mk_env (fun _ _ => inr Scenario.ok_response)
                (fun _ _ => inr 200) (fun _ => inl RuntimeError)
                (fun _ => lit "") (fun _ _ => inr tt) (fun _ _ => inr tt))
     = None.
Proof. cbv zeta. repeat split; vm_compute; reflexivity. Qed.

(** ** The scan *)

Section Scan.

Variable env : Env.
Variable self : NBERScraper.

Lemma bind_ext {A B} (c : M A) (k1 k2 : A -> M B) (s : State) :
  (forall a s1, k1 a s1 = k2 a s1) -> bind c k1 s = bind c k2 s.
Proof.
  intros H. unfold bind. destruct (c s) as [[e|a] s1]; [reflexivity | apply H].
Qed.

Lemma stop_check_none (mp mg : option Z) (v : loop_vars) :
  stop_check mp mg v = None ->
  consecutive_failures v < max_consecutive_failures /\ 0 < current_number v.
Proof.
  unfold stop_check.
  destruct (limit_reached mp (papers_found v)); [discriminate|].
  destruct (limit_reached mg (papers_checked v)); [discriminate|].
  destruct (max_consecutive_failures <=? consecutive_failures v) eqn:E1;
    [discriminate|].
  destruct (current_number v <=? 0) eqn:E2; [discriminate|].
  intros _. apply Z.leb_gt in E1, E2. auto.
Qed.

(** A turn that ends normally has looked at one more paper and moved the
    number down by one. *)
Lemma scan_iteration_moves (dl : bool) (v v' : loop_vars) (s s' : State) :
  scan_iteration env self dl v s = (inr v', s') ->
  current_number v' = current_number v - 1
  /\ papers_checked v' = papers_checked v + 1.
Proof.
  unfold scan_iteration. intros H.
  apply bind_inr in H as ([p|] & s1 & _ & H).
  - apply bind_inr in H as (found & s2 & _ & H).
    apply ret_inv in H as [<- _]. auto.
  - apply ret_inv in H as [<- _]. auto.
Qed.

(** The loop ends: with at least [Z.to_nat current_number] turns allowed,
    the number of turns allowed does not change what it does. *)
Lemma scan_loop_fuel (mp mg : option Z) (dl : bool) (f1 f2 : nat)
    (v : loop_vars) (s : State) :
  (Z.to_nat (current_number v) <= f1)%nat ->
  (Z.to_nat (current_number v) <= f2)%nat ->
  scan_loop env self mp mg dl f1 v s = scan_loop env self mp mg dl f2 v s.
Proof.
  revert f2 v s. induction f1 as [|f1 IH]; intros f2 v s H1 H2.
  - destruct f2 as [|f2]; [reflexivity|]. cbn [scan_loop].
    destruct (stop_check mp mg v) eqn:E; [reflexivity|].
    apply stop_check_none in E. lia.
  - cbn [scan_loop]. destruct f2 as [|f2]; cbn [scan_loop];
      destruct (stop_check mp mg v) eqn:E; try reflexivity.
    + apply stop_check_none in E. lia.
    + unfold bind.
      destruct (scan_iteration env self dl v s) as [[e|v'] s'] eqn:Eit;
        [reflexivity|].
      apply scan_iteration_moves in Eit as [Hn _].
      apply stop_check_none in E. apply IH; lia.
Qed.

(** A turn on a paper that is not there. *)
Lemma scan_iteration_null (dl : bool) (v : loop_vars) (s s1 : State) :
  extract_paper_metadata env self (current_number v) s = (inr None, s1) ->
  scan_iteration env self dl v s
  = (inr {| papers_checked := papers_checked v + 1;
            papers_found := papers_found v;
            consecutive_failures := consecutive_failures v + 1;
            current_number := current_number v - 1 |}, s1).
Proof. intros H. unfold scan_iteration, bind. rewrite H. reflexivity. Qed.

(** A turn on a paper that the filters reject. *)
Lemma scan_iteration_rejected (dl : bool) (v : loop_vars) (s s1 : State) (p : paper) :
  extract_paper_metadata env self (current_number v) s = (inr (Some p), s1) ->
  matches_search_query self p && matches_date_range self p = false ->
  scan_iteration env self dl v s
  = (inr {| papers_checked := papers_checked v + 1;
            papers_found := papers_found v;
            consecutive_failures := 0;
            current_number := current_number v - 1 |}, s1).
Proof.
  intros H Hf. unfold scan_iteration, bind. rewrite H, Hf. reflexivity.
Qed.

(** A turn on a paper that is there, whatever the filters answer. *)
Lemma scan_iteration_found (dl : bool) (v v' : loop_vars) (s s1 s' : State) (p : paper) :
  extract_paper_metadata env self (current_number v) s = (inr (Some p), s1) ->
  scan_iteration env self dl v s = (inr v', s') ->
  consecutive_failures v' = 0
  /\ papers_found v'
     = (if matches_search_query self p && matches_date_range self p
        then papers_found v + 1 else papers_found v).
Proof.
  intros H Hit. unfold scan_iteration in Hit.
  rewrite (bind_run _ _ _ _ _ H) in Hit.
  apply bind_inr in Hit as (found & s2 & Hacc & Hit).
  apply ret_inv in Hit as [<- _]. split; [reflexivity|]. cbn [papers_found].
  destruct (matches_search_query self p && matches_date_range self p).
  - unfold accept_paper in Hacc.
    apply bind_inr in Hacc as (? & ? & _ & Hacc).
    destruct (title p); [|discriminate].
    do 2 (apply bind_inr in Hacc as (? & ? & _ & Hacc)).
    apply ret_inv in Hacc as [<- _]. reflexivity.
  - apply ret_inv in Hacc as [<- _]. reflexivity.
Qed.


Lemma scan_loop_zero_max_papers (mg : option Z) (dl : bool) (fuel : nat)
    (v : loop_vars) (s : State) :
  scan_loop env self (Some 0) mg dl fuel v s
  = scan_loop env self None mg dl fuel v s.
Proof.
  revert v s; induction fuel as [|fuel IH]; intros v s; cbn [scan_loop];
    change (stop_check (Some 0) mg v) with (stop_check None mg v);
    destruct (stop_check None mg v); try reflexivity.
  apply bind_ext. exact IH.
Qed.

Lemma stop_check_zero_max_pages (mp : option Z) (v : loop_vars) :
  stop_check mp (Some 0) v = stop_check mp None v.
Proof.
  unfold stop_check. destruct (limit_reached mp (papers_found v)); reflexivity.
Qed.

Lemma scan_loop_zero_max_pages (mp : option Z) (dl : bool) (fuel : nat)
    (v : loop_vars) (s : State) :
  scan_loop env self mp (Some 0) dl fuel v s
  = scan_loop env self mp None dl fuel v s.
Proof.
  revert v s; induction fuel as [|fuel IH]; intros v s; cbn [scan_loop];
    rewrite stop_check_zero_max_pages;
    destruct (stop_check mp None v); try reflexivity.
  apply bind_ext. exact IH.
Qed.

End Scan.

(** In the world where every page answers 404 every extraction returns
    [None]. *)
Lemma all_null_env_404 (self : NBERScraper) : all_null Scenario.env_404 self.
Proof.
  intros n s.
  apply (extract_null_on_error _ _ _ _ (RequestException (HTTPError 404))).
  apply (get_page_http_error Scenario.env_404 _ 404 2 s); [lia|].
  intros t. exists []. reflexivity.
Qed.



(** C4. In one turn of the loop of [scrape_papers]: when the extraction
    returns [None] the counter of consecutive failures goes up by one;
    when it returns a record the counter is 0 at the end of the turn,
    whether the filters reject the record (then the count of found papers
    is unchanged) or accept it (then it goes up by one); and a turn that
    ends normally is one of these two, so the counter goes up only on a
    [None]. *)
Theorem C4_failure_counter_reset
    (env : Env) (self : NBERScraper) (dl : bool) (v : loop_vars) (s : State) :
  (forall s1,
     extract_paper_metadata env self (current_number v) s = (inr None, s1) ->
     scan_iteration env self dl v s
     = (inr {| papers_checked := papers_checked v + 1;
               papers_found := papers_found v;
               consecutive_failures := consecutive_failures v + 1;
               current_number := current_number v - 1 |}, s1))
  /\ (forall p s1,
        extract_paper_metadata env self (current_number v) s = (inr (Some p), s1) ->
        matches_search_query self p && matches_date_range self p = false ->
        scan_iteration env self dl v s
        = (inr {| papers_checked := papers_checked v + 1;
                  papers_found := papers_found v;
                  consecutive_failures := 0;
                  current_number := current_number v - 1 |}, s1))
  /\ (forall p s1 v' s',
        extract_paper_metadata env self (current_number v) s = (inr (Some p), s1) ->
        scan_iteration env self dl v s = (inr v', s') ->
        consecutive_failures v' = 0
        /\ papers_found v'
           = (if matches_search_query self p && matches_date_range self p
              then papers_found v + 1 else papers_found v))
  /\ (forall v' s',
        scan_iteration env self dl v s = (inr v', s') ->
        (fst (extract_paper_metadata env self (current_number v) s) = inr None
         /\ consecutive_failures v' = consecutive_failures v + 1)
        \/ (exists p,
               fst (extract_paper_metadata env self (current_number v) s)
               = inr (Some p)
               /\ consecutive_failures v' = 0)).
Proof.
  split; [intros; apply scan_iteration_null; assumption|].
  split; [intros p s1 H1 H2;
          apply (scan_iteration_rejected env self dl v s s1 p H1 H2)|].
  split; [intros p s1 v' s' H1 H2; apply (scan_iteration_found env self dl v v' s s1 s' p H1 H2)|].
  intros v' s' Hit.
  destruct (extract_paper_metadata env self (current_number v) s)
    as [[e|[p|]] s1] eqn:E.
  - unfold scan_iteration in Hit. rewrite (bind_raise _ _ _ _ _ E) in Hit.
    discriminate.
  - right. exists p. split; [reflexivity|].
    apply (scan_iteration_found env self dl v v' s s1 s' p E Hit).
  - left. split; [reflexivity|].
    rewrite (scan_iteration_null env self dl v s s1 E) in Hit.
    inversion Hit. reflexivity.
Qed.

(** A turn on page 100, which exists, after three failures: the counter
    is back to 0. A turn in the world where every page answers 404: the
    counter goes from 3 to 4. *)
Lemma C4_witness :
  let v := {| papers_checked := 7; papers_found := 1;
              consecutive_failures := 3; current_number := 100 |} in
  (forall v' s',
     scan_iteration Scenario.env_two Scenario.plain_scraper false v init_state
     = (inr v', s') ->
     consecutive_failures v' = 0)
  /\ fst (scan_iteration Scenario.env_404 Scenario.plain_scraper false v init_state)
     = inr {| papers_checked := 8; papers_found := 1;
              consecutive_failures := 4; current_number := 99 |}.
Proof.
  cbv zeta. split.
  - intros v' s' H.
    destruct (C4_failure_counter_reset Scenario.env_two Scenario.plain_scraper
                false {| papers_checked := 7; papers_found := 1;
                         consecutive_failures := 3; current_number := 100 |}
                init_state) as (_ & _ & Hfound & _).
    refine (proj1 (Hfound _ _ v' s' _ H)). vm_compute. reflexivity.
  - destruct (C4_failure_counter_reset Scenario.env_404 Scenario.plain_scraper
                false {| papers_checked := 7; papers_found := 1;
                         consecutive_failures := 3; current_number := 100 |}
                init_state) as (Hnull & _).
    rewrite (Hnull {| ticks := 3; slept := 4; papers := []; files := [] |});
      [reflexivity | vm_compute; reflexivity].
Defined.

(** C9. A limit of 0 counts as reached for no count, and passing 0 for
    [max_papers] or for [max_pages] gives the scan that passing [None]
    gives: the same [break], the same local variables, the same result
    and the same state. *)
Theorem C9_zero_limit_is_no_limit
    (env : Env) (self : NBERScraper) (other start : option Z) (dl : bool)
    (s : State) :
  (forall count, limit_reached (Some 0) count = false)
  /\ scrape_run env self (Some 0) other start dl s
     = scrape_run env self None other start dl s
  /\ scrape_run env self other (Some 0) start dl s
     = scrape_run env self other None start dl s
  /\ scrape_papers env self (Some 0) other start dl s
     = scrape_papers env self None other start dl s
  /\ scrape_papers env self other (Some 0) start dl s
     = scrape_papers env self other None start dl s.
Proof.
  assert (H1 : forall s0, scrape_run env self (Some 0) other start dl s0
                          = scrape_run env self None other start dl s0).
  { intros s0. unfold scrape_run. apply bind_ext.
    intros; apply scan_loop_zero_max_papers. }
  assert (H2 : forall s0, scrape_run env self other (Some 0) start dl s0
                          = scrape_run env self other None start dl s0).
  { intros s0. unfold scrape_run. apply bind_ext.
    intros; apply scan_loop_zero_max_pages. }
  split; [reflexivity|].
  split; [apply H1|]. split; [apply H2|].
  unfold scrape_papers, bind. rewrite H1, H2. split; reflexivity.
Qed.

(** With both limits 0 the scan from 100, where the pages 100 and 99
    exist, does not stop at once: it finds both papers and goes on to the
    threshold of failures. *)
Example zero_limits_scan :
  let r := scrape_run Scenario.env_two Scenario.plain_scraper
             (Some 0) (Some 0) (Some 100) false init_state in
  fst r = inr (FailuresReached,
               {| papers_checked := 52; papers_found := 2;
                  consecutive_failures := 50; current_number := 48 |})
  /\ map paper_id (papers (snd r)) = [lit "w100"; lit "w99"].
Proof. cbv zeta. split; vm_compute; reflexivity. Qed.

(** The scan with a limit of two papers from 100, where the pages 100 and
    99 exist: it stops at the limit before it looks at 98. *)
Example limit_two_scan :
  let r := scrape_run Scenario.env_two Scenario.plain_scraper
             (Some 2) None (Some 100) false init_state in
  fst r = inr (MaxPapersReached,
               {| papers_checked := 2; papers_found := 2;
                  consecutive_failures := 0; current_number := 98 |})
  /\ map paper_id (papers (snd r)) = [lit "w100"; lit "w99"].
Proof. cbv zeta. split; vm_compute; reflexivity. Qed.

(** ** The abstract *)

Section Abstract.

Lemma sub_whitespace_from_spaced (s : str) (in_run : bool) :
  single_spaced (Re.sub_whitespace_from in_run s) = true
  /\ (in_run = true ->
      match Re.sub_whitespace_from in_run s with
      | d :: _ => isspace d = false
      | [] => True
      end).
Proof.
  revert in_run; induction s as [|c r IH]; intros in_run;
    cbn [Re.sub_whitespace_from].
  - simpl. auto.
  - destruct (isspace c) eqn:Ec.
    + destruct in_run.
      * apply IH.
      * destruct (IH true) as [H1 H2]. specialize (H2 eq_refl).
        split; [|discriminate].
        cbn [single_spaced]. rewrite H1.
        change (ascii_eqb SP SP) with true. rewrite orb_true_r.
        destruct (Re.sub_whitespace_from true r) as [|d t]; [reflexivity|].
        rewrite H2, andb_false_r. reflexivity.
    + destruct (IH false) as [H1 _]. split; [|intros _; exact Ec].
      cbn [single_spaced]. rewrite H1, Ec. cbn [negb andb orb].
      destruct (Re.sub_whitespace_from false r); reflexivity.
Qed.

(** After [re.sub(r'\s+', ' ', s)] no whitespace is left but single
    spaces. *)
Lemma sub_whitespace_spaced (s : str) : single_spaced (Re.sub_whitespace s) = true.
Proof. apply sub_whitespace_from_spaced. Qed.

(** The abstract a selector finds has its whitespace runs collapsed. *)
Lemma selector_abstract_spaced (soup : Soup) (selectors : list str)
    (s s' : State) (a : str) :
  abstract_by_selectors soup selectors s = (inr (Some a), s') ->
  single_spaced a = true.
Proof.
  induction selectors as [|sel rest IH]; cbn [abstract_by_selectors].
  - intros H. apply ret_inv in H as [H _]. discriminate.
  - intros H. apply bind_inr in H as ([elem|] & s1 & Hsel & H).
    + apply bind_inr in H as (text & s2 & _ & H).
      apply ret_inv in H as [H _]. inversion H.
      apply sub_whitespace_spaced.
    + unfold lift in Hsel. inversion Hsel; subst s1. apply IH. exact H.
Qed.

End Abstract.

(** C8 does not hold on the path of the search over the full text: a
    page whose abstract no selector finds, and whose text has the label
    followed by an abstract with two spaces in a row, gives a record whose
    abstract keeps the two spaces. (On the path of the selectors the
    whitespace runs are collapsed: [selector_abstract_spaced].) *)
Theorem C8_fallback_keeps_whitespace_runs :
  exists p s',
    extract_paper_metadata Scenario.env_spaced Scenario.plain_scraper 1 init_state
    = (inr (Some p), s')
    /\ abstract p
       = Some (lit "We  study the effect of minimum wage increases on employment using county level panel data from 1990 to 2019.")
    /\ single_spaced (or_empty (abstract p)) = false
    /\ or_empty (abstract p) <> Re.sub_whitespace (or_empty (abstract p)).
Proof.
  eexists. eexists. split; [vm_compute; reflexivity|].
  split; [reflexivity|]. split; [vm_compute; reflexivity|].
  vm_compute. discriminate.
Qed.

(** The same text found by a selector has its two spaces made one. *)
Example selector_collapses_whitespace :
  option_map abstract
    (match fst (extract_paper_metadata
                  (Scenario.env_selector (lit "ABSTRACT:  We  study	wages. "))
                  Scenario.plain_scraper 1 init_state)
     with inr r => r | inl _ => None end)
  = Some (Some (lit "We study wages.")).
Proof. vm_compute. reflexivity. Qed.

(** * Further properties *)

(** ** Effects of the operations *)

Section Effects.

Lemma files_ret {A} (a : A) : keeps_files (ret a).
Proof. intros s. reflexivity. Qed.

Lemma files_raise {A} (e : exn) : keeps_files (@raise A e).
Proof. intros s. reflexivity. Qed.

Lemma files_lift {A} (r : exn + A) : keeps_files (lift r).
Proof. intros s. reflexivity. Qed.

Lemma files_io {A} (op : nat -> exn + A) : keeps_files (io op).
Proof. intros s. reflexivity. Qed.

Lemma files_sleep (k : nat) : keeps_files (sleep k).
Proof. intros s. reflexivity. Qed.

Lemma files_bind {A B} (c : M A) (k : A -> M B) :
  keeps_files c -> (forall a, keeps_files (k a)) -> keeps_files (bind c k).
Proof.
  intros Hc Hk s. unfold bind. specialize (Hc s).
  destruct (c s) as [[e|a] s1]; simpl in *; [exact Hc|].
  rewrite (Hk a s1). exact Hc.
Qed.

Lemma files_try_except {A} (c : M A) (h : exn -> M A) :
  keeps_files c -> (forall e, keeps_files (h e)) -> keeps_files (try_except c h).
Proof.
  intros Hc Hh s. unfold try_except. specialize (Hc s).
  destruct (c s) as [[e|a] s1]; simpl in *; [|exact Hc].
  rewrite (Hh e s1). exact Hc.
Qed.

Lemma files_try_except_request {A} (c : M A) (h : exn -> M A) :
  keeps_files c -> (forall e, keeps_files (h e)) ->
  keeps_files (try_except_request c h).
Proof.
  intros Hc Hh. apply files_try_except; [exact Hc|].
  intros e. destruct (is_request_exception e); [apply Hh | apply files_raise].
Qed.

Lemma within_weaken {A} (lo hi lo' hi' : nat) (c : M A) :
  (lo' <= lo)%nat -> (hi <= hi')%nat ->
  operations_within lo hi c -> operations_within lo' hi' c.
Proof. intros H1 H2 Hc s. specialize (Hc s). lia. Qed.

Lemma within_ret {A} (a : A) : operations_within 0 0 (ret a).
Proof. intros s. simpl. lia. Qed.

Lemma within_raise {A} (e : exn) : operations_within 0 0 (@raise A e).
Proof. intros s. simpl. lia. Qed.

Lemma within_lift {A} (r : exn + A) : operations_within 0 0 (lift r).
Proof. intros s. simpl. lia. Qed.

Lemma within_io {A} (op : nat -> exn + A) : operations_within 1 1 (io op).
Proof. intros s. simpl. lia. Qed.

Lemma within_sleep (k : nat) : operations_within 0 0 (sleep k).
Proof. intros s. simpl. lia. Qed.

(** A computation followed by another: when the first raises, the second
    is not run, so only its upper bound adds up. *)
Lemma within_bind {A B} (lo1 hi1 hi2 : nat) (c : M A) (k : A -> M B) :
  operations_within lo1 hi1 c ->
  (forall a, operations_within 0 hi2 (k a)) ->
  operations_within lo1 (hi1 + hi2) (bind c k).
Proof.
  intros Hc Hk s. unfold bind. specialize (Hc s).
  destruct (c s) as [[e|a] s1]; simpl in *; [lia|].
  specialize (Hk a s1). lia.
Qed.

Lemma within_try_except {A} (lo1 hi1 hi2 : nat) (c : M A) (h : exn -> M A) :
  operations_within lo1 hi1 c ->
  (forall e, operations_within 0 hi2 (h e)) ->
  operations_within lo1 (hi1 + hi2) (try_except c h).
Proof.
  intros Hc Hh s. unfold try_except. specialize (Hc s).
  destruct (c s) as [[e|a] s1]; simpl in *; [|lia].
  specialize (Hh e s1). lia.
Qed.

End Effects.

Create HintDb files discriminated.

#[export] Hint Resolve files_ret files_raise files_lift files_io files_sleep
  : files.

(** Goes through a computation that writes no file. *)
Ltac files_tac :=
  repeat first
    [ progress auto with files
    | apply files_bind
    | apply files_try_except_request
    | apply files_try_except
    | match goal with
      | |- forall _, _ => intro
      | |- keeps_files (if ?b then _ else _) => destruct b
      | |- keeps_files (match ?x with _ => _ end) => destruct x
      end ].

(** ** More on the fetch primitive *)

Section FetchMore.

Variable env : Env.

Lemma get_page_try_ok_state (url : str) (s : State) (r : Response) :
  session_get env (ticks s) url = inr r ->
  (status_code r < 400 \/ 600 <= status_code r) ->
  get_page_try env url s
  = (inr (Some r),
     {| ticks := S (ticks s); slept := slept s + 1;
        papers := papers s; files := files s |}).
Proof.
  intros Hget Hst. unfold get_page_try, bind, io, raise_for_status.
  rewrite Hget.
  destruct ((400 <=? status_code r) && (status_code r <? 600)) eqn:E.
  - apply andb_true_iff in E as [E1 E2]. lia.
  - reflexivity.
Qed.

Lemma attempt_fails_try (url : str) (s : State) :
  attempt_fails env url (ticks s) ->
  exists e, get_page_try env url s = (inl (RequestException e), ticked s).
Proof.
  intros [[e He] | (r & Hr & Hst)].
  - exists e. apply get_page_try_raises. exact He.
  - exists (HTTPError (status_code r)).
    apply get_page_try_http_error; assumption.
Qed.

(** What one attempt does to the state, whatever its outcome. *)
Lemma get_page_try_effect (url : str) (s : State) :
  ticks (snd (get_page_try env url s)) = S (ticks s)
  /\ files (snd (get_page_try env url s)) = files s
  /\ (forall x, fst (get_page_try env url s) = inr x -> x <> None).
Proof.
  unfold get_page_try, bind, io, raise_for_status.
  destruct (session_get env (ticks s) url) as [e|r]; cbn [fst snd ticks files].
  - repeat split. discriminate.
  - destruct ((400 <=? status_code r) && (status_code r <? 600));
      cbn [fst snd ticks files]; repeat split; try discriminate.
    intros x H. inversion H. discriminate.
Qed.

Lemma get_page_attempts_unfold (url : str) (n : nat) (s : State) :
  get_page_attempts env url (S n) s
  = match get_page_try env url s with
    | (inr x, s1) => (inr x, s1)
    | (inl e, s1) =>
        if is_request_exception e then
          match n with
          | O => (inl e, s1)
          | S _ => get_page_attempts env url n (snd (sleep 2 s1))
          end
        else (inl e, s1)
    end.
Proof.
  cbn [get_page_attempts]. unfold try_except_request, try_except.
  destruct (get_page_try env url s) as [[e|x] s1]; [|reflexivity].
  destruct (is_request_exception e); [|reflexivity].
  destruct n; reflexivity.
Qed.

Lemma get_page_effort (url : str) (n : nat) (s : State) :
  (ticks s + Nat.min 1 n <= ticks (snd (get_page env url n s)) <= ticks s + n)%nat
  /\ files (snd (get_page env url n s)) = files s
  /\ (fst (get_page env url n s) = inr None <-> n = O).
Proof.
  unfold get_page. revert s. induction n as [|n IH]; intros s.
  - simpl. split; [lia|]. split; [reflexivity|]. split; reflexivity.
  - rewrite get_page_attempts_unfold.
    change (Nat.min 1 (S n)) with 1%nat.
    destruct (get_page_try_effect url s) as (Ht & Hf & Hn).
    destruct (get_page_try env url s) as [[e|x] s1]; cbn [fst snd] in *.
    + destruct (is_request_exception e); cbn [fst snd].
      * destruct n as [|n]; cbn [fst snd].
        -- split; [lia|]. split; [assumption|]. split; discriminate.
        -- destruct (IH (snd (sleep 2 s1))) as (Ht' & Hf' & Hn').
           assert (Ht2 : ticks (snd (sleep 2 s1)) = ticks s1) by reflexivity.
           assert (Hf2 : files (snd (sleep 2 s1)) = files s1) by reflexivity.
           change (Nat.min 1 (S n)) with 1%nat in Ht'.
           split; [lia|]. split; [congruence|]. split; [|discriminate].
           intros H. apply Hn' in H. discriminate.
      * split; [lia|]. split; [assumption|]. split; discriminate.
    + split; [lia|]. split; [assumption|]. split; [|discriminate].
      intros H. exfalso. apply (Hn x eq_refl). inversion H. reflexivity.
Qed.

End FetchMore.

(** X1. When the first [k] attempts of [get_page] fail in a way it
    retries (a request exception, or an error status) and the next one,
    still within [retries], is answered with a status that is no error,
    [get_page] returns that response; it has made [k + 1] requests and
    slept a doubled delay after each failure and one delay after the
    success. *)
Theorem X1_get_page_succeeds_after_failures
    (env : Env) (url : str) (k retries : nat) (s : State) (r : Response) :
  (forall i, (i < k)%nat -> attempt_fails env url (ticks s + i)) ->
  session_get env (ticks s + k) url = inr r ->
  (status_code r < 400 \/ 600 <= status_code r) ->
  (k < retries)%nat ->
  get_page env url retries s
  = (inr (Some r),
     {| ticks := ticks s + k + 1; slept := slept s + 2 * k + 1;
        papers := papers s; files := files s |}).
Proof.
  unfold get_page. revert retries s.
  induction k as [|k IH]; intros retries s Hfail Hget Hst Hlt.
  - destruct retries as [|n]; [lia|].
    rewrite get_page_attempts_unfold.
    rewrite Nat.add_0_r in Hget.
    rewrite (get_page_try_ok_state env url s r Hget Hst).
    f_equal. f_equal; lia.
  - destruct retries as [|[|n]]; try lia.
    rewrite get_page_attempts_unfold.
    destruct (attempt_fails_try env url s) as [e He].
    { specialize (Hfail 0%nat). rewrite Nat.add_0_r in Hfail.
      apply Hfail. lia. }
    rewrite He. cbn [is_request_exception].
    rewrite (IH (S n) (snd (sleep 2 (ticked s)))).
    + cbn [sleep snd ticked ticks slept papers files]. f_equal. f_equal; lia.
    + intros i Hi. cbn [sleep snd ticked ticks].
      replace (S (ticks s) + i)%nat with (ticks s + S i)%nat by lia.
      apply Hfail. lia.
    + cbn [sleep snd ticked ticks].
      replace (S (ticks s) + k)%nat with (ticks s + S k)%nat by lia.
      exact Hget.
    + exact Hst.
    + lia.
Qed.

(** A page that times out twice and then answers 200. *)
Lemma X1_witness :
  let flaky := Scenario.world
                 (fun t _ => if (t <? 2)%nat
                             then inl (RequestException Timeout)
                             else inr Scenario.ok_response)
                 Scenario.empty_soup in
  get_page flaky (lit "u") 3 init_state
  = (inr (Some Scenario.ok_response),
     {| ticks := 3; slept := 5; papers := []; files := [] |}).
Proof.
  cbv zeta.
  apply (X1_get_page_succeeds_after_failures _ (lit "u") 2 3 init_state
           Scenario.ok_response).
  - intros i Hi. left. exists Timeout. cbn [ticks init_state Nat.add].
    destruct i as [|[|i]]; [reflexivity | reflexivity | lia].
  - reflexivity.
  - left. simpl. lia.
  - lia.
Defined.

(** X2. An exception of [session.get] that is not a request exception is
    not retried: [get_page] raises it after that one request, without
    sleeping. *)
Theorem X2_get_page_other_exception_not_retried
    (env : Env) (url : str) (n : nat) (s : State) (e : exn) :
  session_get env (ticks s) url = inl e ->
  is_request_exception e = false ->
  get_page env url (S n) s = (inl e, ticked s).
Proof.
  intros Hget He. unfold get_page. rewrite get_page_attempts_unfold.
  rewrite (get_page_try_raises env url s e Hget), He. reflexivity.
Qed.

(** A session that raises a [ValueError]. *)
Lemma X2_witness :
  get_page (Scenario.world (fun _ _ => inl ValueError) Scenario.empty_soup)
           (lit "u") 3 init_state
  = (inl ValueError, {| ticks := 1; slept := 0; papers := []; files := [] |}).
Proof.
  apply (X2_get_page_other_exception_not_retried
           (Scenario.world (fun _ _ => inl ValueError) Scenario.empty_soup)
           (lit "u") 2 init_state ValueError); reflexivity.
Defined.


(** ** Stripping *)

Section Stripping.

Lemma last_of_nonempty (p q : option ascii) (s : str) :
  s <> [] -> last_of p s = last_of q s.
Proof. destruct s; [congruence | reflexivity]. Qed.

Lemma last_of_rev (p : option ascii) (s : str) :
  last_of p s = match rev s with c :: _ => Some c | [] => p end.
Proof.
  revert p; induction s as [|c s IH]; intros p; [reflexivity|].
  cbn [last_of rev]. rewrite IH.
  destruct (rev s); reflexivity.
Qed.

Lemma clean_end_rev (s : str) : clean_end s <-> clean_start (rev s).
Proof.
  unfold clean_end, clean_start. rewrite last_of_rev.
  destruct (rev s); reflexivity.
Qed.

Lemma lstrip_clean_start (s : str) : clean_start (lstrip s).
Proof.
  induction s as [|c s IH]; cbn [lstrip]; [exact I|].
  destruct (isspace c) eqn:E; [exact IH | exact E].
Qed.

Lemma lstrip_fixed (s : str) : clean_start s -> lstrip s = s.
Proof. destruct s as [|c s]; [reflexivity|]. simpl. intros ->. reflexivity. Qed.

Lemma lstrip_suffix (s : str) : exists w, s = w ++ lstrip s.
Proof.
  induction s as [|c s [w IH]]; [exists []; reflexivity|].
  cbn [lstrip]. destruct (isspace c).
  - exists (c :: w). simpl. f_equal. exact IH.
  - exists []. reflexivity.
Qed.

Lemma clean_end_suffix (w t : str) : clean_end (w ++ t) -> clean_end t.
Proof.
  unfold clean_end. destruct t as [|c t]; [intros _; exact I|].
  rewrite last_of_app.
  rewrite (last_of_nonempty (last_of None w) None (c :: t)) by discriminate.
  auto.
Qed.

Lemma clean_start_prefix (t w : str) : clean_start (t ++ w) -> clean_start t.
Proof. destruct t; [intros _; exact I | exact (fun H => H)]. Qed.

Lemma rstrip_clean_end (s : str) : clean_end (rstrip s).
Proof.
  unfold rstrip. apply clean_end_rev. rewrite rev_involutive.
  apply lstrip_clean_start.
Qed.

Lemma rstrip_fixed (s : str) : clean_end s -> rstrip s = s.
Proof.
  intros H. unfold rstrip. apply clean_end_rev in H.
  rewrite (lstrip_fixed _ H). apply rev_involutive.
Qed.

Lemma rstrip_prefix (s : str) : exists w, s = rstrip s ++ w.
Proof.
  unfold rstrip. destruct (lstrip_suffix (rev s)) as [w Hw].
  exists (rev w). rewrite <- rev_app_distr, <- Hw. symmetry. apply rev_involutive.
Qed.

(** What [strip] returns has no whitespace at either end. *)
Lemma strip_clean (s : str) : clean_start (strip s) /\ clean_end (strip s).
Proof.
  unfold strip. split; [|apply rstrip_clean_end].
  destruct (rstrip_prefix (lstrip s)) as [w Hw].
  apply (clean_start_prefix _ w). rewrite <- Hw. apply lstrip_clean_start.
Qed.

Lemma strip_fixed (s : str) : clean_start s -> clean_end s -> strip s = s.
Proof.
  intros H1 H2. unfold strip. rewrite (lstrip_fixed s H1). apply rstrip_fixed, H2.
Qed.

Lemma strip_idem (s : str) : strip (strip s) = strip s.
Proof. destruct (strip_clean s). apply strip_fixed; assumption. Qed.

Lemma strip_fixed_inv (s : str) : strip s = s -> clean_start s /\ clean_end s.
Proof. intros H. rewrite <- H. apply strip_clean. Qed.

Lemma strip_length (s : str) : (List.length (strip s) <= List.length s)%nat.
Proof.
  unfold strip.
  destruct (rstrip_prefix (lstrip s)) as [w Hw].
  destruct (lstrip_suffix s) as [v Hv].
  rewrite Hv at 2. rewrite Hw at 2. rewrite !length_app. lia.
Qed.

Lemma sub_whitespace_from_last (s : str) (in_run : bool) (p : option ascii)
    (c : ascii) :
  last_of None s = Some c -> isspace c = false ->
  last_of p (Re.sub_whitespace_from in_run s) = Some c.
Proof.
  revert in_run p; induction s as [|d s IH]; intros in_run p Hl Hc;
    [discriminate|].
  destruct s as [|e s].
  - simpl in Hl. inversion Hl; subst d.
    cbn [Re.sub_whitespace_from]. rewrite Hc. reflexivity.
  - assert (Hl' : last_of None (e :: s) = Some c).
    { rewrite <- Hl. cbn [last_of]. reflexivity. }
    remember (e :: s) as r eqn:Er.
    cbn [Re.sub_whitespace_from].
    destruct (isspace d); [destruct in_run|]; cbn [last_of]; apply IH; assumption.
Qed.

Lemma sub_whitespace_clean (s : str) :
  clean_start s -> clean_end s ->
  clean_start (Re.sub_whitespace s) /\ clean_end (Re.sub_whitespace s).
Proof.
  intros H1 H2. unfold Re.sub_whitespace. split.
  - destruct s as [|c s]; [exact I|]. simpl in H1.
    cbn [Re.sub_whitespace_from]. rewrite H1. exact H1.
  - unfold clean_end in *.
    destruct (last_of None s) as [c|] eqn:El.
    + rewrite (sub_whitespace_from_last s false None c El H2). exact H2.
    + destruct s; [exact I|].
      rewrite last_of_rev in El. cbn [rev] in El.
      destruct (rev s); discriminate.
Qed.

Lemma skipn_suffix {A} (k : nat) (l : list A) : exists w, l = w ++ skipn k l.
Proof. exists (firstn k l). symmetry. apply firstn_skipn. Qed.

Lemma sub_abstract_label_clean (s : str) :
  clean_start s -> clean_end s ->
  clean_start (Re.sub_abstract_label s) /\ clean_end (Re.sub_abstract_label s).
Proof.
  intros H1 H2. unfold Re.sub_abstract_label.
  destruct (prefix_ci (lit "Abstract") s); [|auto].
  split; [apply lstrip_clean_start|].
  destruct (skipn_suffix 8 s) as [w1 Hw1].
  assert (H3 : clean_end (skipn 8 s)).
  { apply (clean_end_suffix w1). rewrite <- Hw1. exact H2. }
  set (r := match skipn 8 s with
            | c :: r' => if ascii_eqb c ":" then r' else skipn 8 s
            | [] => skipn 8 s
            end).
  assert (H4 : clean_end r).
  { unfold r. destruct (skipn 8 s) as [|c r'] eqn:E; [exact H3|].
    destruct (ascii_eqb c ":"); [|exact H3].
    apply (clean_end_suffix [c]). exact H3. }
  destruct (lstrip_suffix r) as [w2 Hw2].
  apply (clean_end_suffix w2). rewrite <- Hw2. exact H4.
Qed.

(** The cleaned text of an element has no whitespace at either end. *)
Lemma clean_abstract_trimmed (t : str) : strip (clean_abstract t) = clean_abstract t.
Proof.
  unfold clean_abstract.
  destruct (strip_clean t) as [H1 H2].
  destruct (sub_abstract_label_clean _ H1 H2) as [H3 H4].
  destruct (sub_whitespace_clean _ H3 H4) as [H5 H6].
  apply strip_fixed; assumption.
Qed.

End Stripping.

(** ** More on the extractor *)

Section ExtractMore.

Variable env : Env.

Lemma within_bind_noop {A B} (c : M A) (k : A -> M B) :
  operations_within 0 0 c -> (forall a, operations_within 0 0 (k a)) ->
  operations_within 0 0 (bind c k).
Proof. intros Hc Hk. apply (within_bind 0 0 0 c k Hc Hk). Qed.

Lemma within_now :
  operations_within 0 0 (fun s => (inr (now_isoformat env (ticks s)), s)).
Proof. intros s. simpl. lia. Qed.

Lemma files_now : keeps_files (fun s => (inr (now_isoformat env (ticks s)), s)).
Proof. intros s. reflexivity. Qed.

Lemma files_get_page (url : str) (n : nat) : keeps_files (get_page env url n).
Proof. intros s. apply get_page_effort. Qed.

Lemma within_abstract_by_selectors (soup : Soup) (selectors : list str) :
  operations_within 0 0 (abstract_by_selectors soup selectors).
Proof.
  induction selectors as [|sel rest IH]; cbn [abstract_by_selectors].
  - apply within_ret.
  - apply within_bind_noop; [apply within_lift|]. intros [elem|]; [|exact IH].
    apply within_bind_noop; [apply within_lift | intros; apply within_ret].
Qed.

Lemma files_abstract_by_selectors (soup : Soup) (selectors : list str) :
  keeps_files (abstract_by_selectors soup selectors).
Proof.
  induction selectors as [|sel rest IH]; cbn [abstract_by_selectors].
  - files_tac.
  - apply files_bind; [files_tac|]. intros [elem|]; [files_tac | exact IH].
Qed.

Lemma within_abstract_fallback (soup : Soup) (found : option str) :
  operations_within 0 0 (abstract_fallback soup found).
Proof.
  unfold abstract_fallback. destruct (otruthy found); [apply within_ret|].
  apply within_bind_noop; [apply within_lift|]. intros main.
  apply within_bind_noop.
  - destruct main; [apply within_ret | apply within_lift].
  - intros [elem|]; [|apply within_ret].
    apply within_bind_noop; [apply within_lift|]. intros text.
    destruct (Re.search_abstract text); apply within_ret.
Qed.

Lemma files_abstract_fallback (soup : Soup) (found : option str) :
  keeps_files (abstract_fallback soup found).
Proof. unfold abstract_fallback. files_tac. Qed.

#[local] Hint Resolve files_now files_get_page files_abstract_by_selectors
  files_abstract_fallback : files.

Lemma files_extract_body (self : NBERScraper) (n : Z) :
  keeps_files (extract_body env self n).
Proof. unfold extract_body, meta_field. files_tac. Qed.

Lemma files_extract_paper_metadata (self : NBERScraper) (n : Z) :
  keeps_files (extract_paper_metadata env self n).
Proof.
  unfold extract_paper_metadata.
  apply files_try_except; [apply files_extract_body | files_tac].
Qed.

Lemma within_meta_field (soup : Soup) (name : str) :
  operations_within 0 0 (meta_field soup name).
Proof.
  unfold meta_field.
  apply within_bind_noop; [apply within_lift | intros; apply within_ret].
Qed.

Lemma within_extract_body (self : NBERScraper) (n : Z) :
  operations_within 1 3 (extract_body env self n).
Proof.
  unfold extract_body.
  apply (within_bind 1 3 0).
  - intros s. pose proof (get_page_effort env (paper_url self n) default_retries s)
      as (H & _). exact H.
  - intros [response|]; [|apply within_raise].
    apply within_bind_noop; [apply within_lift|]. intros soup.
    destruct (status_code response =? 404); [apply within_ret|].
    apply within_bind_noop; [apply within_now|]. intros stamp.
    apply within_bind_noop; [apply within_meta_field|]. intros t.
    apply within_bind_noop; [apply within_lift|]. intros a.
    apply within_bind_noop; [apply within_meta_field|]. intros d.
    apply within_bind_noop; [apply within_meta_field|]. intros pd.
    apply within_bind_noop; [apply within_meta_field|]. intros pu.
    apply within_bind_noop; [apply within_abstract_by_selectors|]. intros bs.
    apply within_bind_noop; [apply within_abstract_fallback|]. intros ab.
    apply within_ret.
Qed.

Lemma within_extract_paper_metadata (self : NBERScraper) (n : Z) :
  operations_within 1 3 (extract_paper_metadata env self n).
Proof.
  unfold extract_paper_metadata.
  apply (within_try_except 1 3 0); [apply within_extract_body|].
  intros e. destruct (is_request_exception e); apply within_ret.
Qed.

(** A record comes from the body of the extractor, not from a handler. *)
Lemma extract_some (self : NBERScraper) (n : Z) (s s' : State) (p : paper) :
  extract_paper_metadata env self n s = (inr (Some p), s') ->
  extract_body env self n s = (inr (Some p), s').
Proof.
  unfold extract_paper_metadata, try_except.
  destruct (extract_body env self n s) as [[e|r] s1]; [|exact (fun H => H)].
  destruct (is_request_exception e); discriminate.
Qed.

Lemma extract_paper_id (self : NBERScraper) (n : Z) (s s' : State) (p : paper) :
  extract_paper_metadata env self n s = (inr (Some p), s') ->
  paper_id p = lit "w" ++ of_Z n.
Proof. intros H. apply extract_some, extract_body_paper in H. apply H. Qed.

Lemma meta_field_trimmed (soup : Soup) (name : str) (s s' : State) (x : option str) :
  meta_field soup name s = (inr x, s') -> otrimmed x.
Proof.
  unfold meta_field. intros H.
  apply bind_inr in H as (m & s1 & _ & H). apply ret_inv in H as [<- _].
  destruct m; [apply strip_idem | exact I].
Qed.

Lemma abstract_by_selectors_trimmed (soup : Soup) (selectors : list str)
    (s s' : State) (o : option str) :
  abstract_by_selectors soup selectors s = (inr o, s') -> otrimmed o.
Proof.
  induction selectors as [|sel rest IH]; cbn [abstract_by_selectors].
  - intros H. apply ret_inv in H as [<- _]. exact I.
  - intros H. apply bind_inr in H as ([elem|] & s1 & Hsel & H).
    + apply bind_inr in H as (text & s2 & _ & H).
      apply ret_inv in H as [<- _]. apply clean_abstract_trimmed.
    + unfold lift in Hsel. inversion Hsel; subst s1. apply IH. exact H.
Qed.

Lemma abstract_fallback_trimmed (soup : Soup) (found o : option str)
    (s s' : State) :
  otrimmed found ->
  abstract_fallback soup found s = (inr o, s') -> otrimmed o.
Proof.
  intros Hf. unfold abstract_fallback.
  destruct (otruthy found); [intros H; apply ret_inv in H as [<- _]; exact Hf|].
  intros H. apply bind_inr in H as (main & s1 & _ & H).
  apply bind_inr in H as ([elem|] & s2 & _ & H).
  - apply bind_inr in H as (text & s3 & _ & H).
    destruct (Re.search_abstract text); apply ret_inv in H as [<- _];
      [apply strip_idem | exact Hf].
  - apply ret_inv in H as [<- _]. exact Hf.
Qed.

Lemma extract_body_trimmed (self : NBERScraper) (n : Z) (s s' : State) (p : paper) :
  extract_body env self n s = (inr (Some p), s') ->
  otrimmed (title p) /\ otrimmed (doi p) /\ otrimmed (publication_date p)
  /\ otrimmed (pdf_url p) /\ otrimmed (abstract p)
  /\ Forall (fun a => strip a = a) (authors p).
Proof.
  unfold extract_body. intros H.
  apply bind_inr in H as ([response|] & s1 & _ & H); [|discriminate].
  apply bind_inr in H as (soup & s2 & _ & H).
  destruct (status_code response =? 404); [discriminate|].
  apply bind_inr in H as (stamp & s3 & _ & H).
  apply bind_inr in H as (t & s4 & Ht & H).
  apply bind_inr in H as (a & s5 & _ & H).
  apply bind_inr in H as (d & s6 & Hd & H).
  apply bind_inr in H as (pd & s7 & Hpd & H).
  apply bind_inr in H as (pu & s8 & Hpu & H).
  apply bind_inr in H as (bs & s9 & Hbs & H).
  apply bind_inr in H as (ab & s10 & Hab & H).
  apply ret_inv in H as [H _]. inversion H. cbn.
  apply meta_field_trimmed in Ht, Hd, Hpd, Hpu.
  apply abstract_by_selectors_trimmed in Hbs.
  apply (abstract_fallback_trimmed _ _ _ _ _ Hbs) in Hab.
  repeat (split; [assumption|]).
  apply Forall_forall. intros x Hx. apply in_map_iff in Hx as (m & <- & _).
  apply strip_idem.
Qed.

(** The first selector that finds an element decides. *)
Lemma abstract_by_selectors_first (soup : Soup) (before after : list str)
    (sel : str) (elem : Element) (text : str) (s : State) :
  (forall x, In x before -> select_one soup x = inr None) ->
  select_one soup sel = inr (Some elem) ->
  get_text elem = inr text ->
  abstract_by_selectors soup (before ++ sel :: after) s
  = (inr (Some (clean_abstract text)), s).
Proof.
  intros Hb Hsel Htext.
  induction before as [|x before IH]; cbn [app abstract_by_selectors].
  - unfold bind, lift. rewrite Hsel, Htext. reflexivity.
  - unfold bind at 1. unfold lift at 1. rewrite (Hb x (or_introl eq_refl)).
    apply IH. intros y Hy. apply Hb. right. exact Hy.
Qed.

End ExtractMore.

(** X4. In every record [extract_paper_metadata] returns, the title, the
    DOI, the publication date, the PDF URL and the abstract, when there
    is one, and every author have no whitespace at either end: stripping
    them changes nothing. *)
Theorem X4_record_texts_are_stripped
    (env : Env) (self : NBERScraper) (n : Z) (s s' : State) (p : paper) :
  extract_paper_metadata env self n s = (inr (Some p), s') ->
  otrimmed (title p) /\ otrimmed (doi p) /\ otrimmed (publication_date p)
  /\ otrimmed (pdf_url p) /\ otrimmed (abstract p)
  /\ Forall (fun a => strip a = a) (authors p).
Proof. intros H. apply extract_some in H. apply (extract_body_trimmed _ _ _ _ _ _ H). Qed.

(** The page whose title tag holds " Minimum Wages " and whose abstract
    element holds a label, spaces and a line break. *)
Lemma X4_witness :
  exists p s',
    extract_paper_metadata
      (Scenario.env_selector (lit "  Abstract:  We   study wages.  "))
      Scenario.plain_scraper 1 init_state
    = (inr (Some p), s')
    /\ title p = Some (lit "Minimum Wages")
    /\ abstract p = Some (lit "We study wages.")
    /\ otrimmed (title p) /\ otrimmed (abstract p).
Proof.
  destruct (extract_paper_metadata
              (Scenario.env_selector (lit "  Abstract:  We   study wages.  "))
              Scenario.plain_scraper 1 init_state)
    as [[e|[p|]] s'] eqn:E.
  - vm_compute in E. discriminate.
  - exists p, s'. split; [reflexivity|].
    pose proof (X4_record_texts_are_stripped _ _ _ _ _ _ E)
      as (Ht & _ & _ & _ & Ha & _).
    vm_compute in E. inversion E. subst p. cbn [title abstract].
    repeat split; assumption.
  - vm_compute in E. discriminate.
Defined.

(** X6. The selectors are tried in their order and the first one that
    finds an element decides: when those before it find nothing, the
    abstract is the cleaned text of that element, whatever the selectors
    after it would find, and even when the cleaned text is empty. *)
Theorem X6_first_selector_decides
    (soup : Soup) (before after : list str) (sel : str) (elem : Element)
    (text : str) (s : State) :
  (forall x, In x before -> select_one soup x = inr None) ->
  select_one soup sel = inr (Some elem) ->
  get_text elem = inr text ->
  abstract_by_selectors soup (before ++ sel :: after) s
  = (inr (Some (clean_abstract text)), s).
Proof. apply abstract_by_selectors_first. Qed.

(** X7. [extract_paper_metadata] makes at least one request and at most
    three, and writes no file. *)
Theorem X7_extract_effort (env : Env) (self : NBERScraper) (n : Z) :
  operations_within 1 3 (extract_paper_metadata env self n)
  /\ keeps_files (extract_paper_metadata env self n).
Proof.
  split; [apply within_extract_paper_metadata | apply files_extract_paper_metadata].
Qed.

(** X6 at the list of the source: an element found by the third selector
    only. *)
Lemma X6_witness :
  let soup :=
    {| find_meta := fun _ => inr None;
       find_all_meta := fun _ => inr [];
       select_one := fun sel =>
         if eqb sel (lit "div.abstract-content")
         then inr (Some {| get_text := inr (lit " Abstract: We study wages. ") |})
         else inr None;
       find := fun _ => inr None |} in
  abstract_by_selectors soup abstract_selectors init_state
  = (inr (Some (lit "We study wages.")), init_state).
Proof.
  cbv zeta.
  change abstract_selectors
    with ([lit "div.page-header__intro"; lit "div.page-header__intro--centered"]
          ++ lit "div.abstract-content" :: skipn 3 abstract_selectors).
  change (lit "We study wages.")
    with (clean_abstract (lit " Abstract: We study wages. ")).
  apply (X6_first_selector_decides _ _ _ _
           {| get_text := inr (lit " Abstract: We study wages. ") |}).
  - intros x [<-|[<-|[]]]; reflexivity.
  - reflexivity.
  - reflexivity.
Defined.

(** ** The search over the full text *)

Section Fallback.

Lemma prefix_ci_split (p s : str) :
  prefix_ci p s = true <->
  exists w rest, s = w ++ rest /\ lower w = lower p.
Proof.
  revert s; induction p as [|x p IH]; intros s; cbn [prefix_ci].
  - split; [intros _; exists [], s; auto | reflexivity].
  - destruct s as [|y s].
    + split; [discriminate|].
      intros (w & rest & Hs & Hl). symmetry in Hs.
      apply app_eq_nil in Hs as [-> _]. discriminate.
    + rewrite andb_true_iff, ascii_eqb_eq, IH. split.
      * intros (Hxy & w & rest & -> & Hl). exists (y :: w), rest.
        simpl. rewrite Hl, Hxy. auto.
      * intros (w & rest & Hs & Hl). destruct w as [|y' w]; [discriminate|].
        simpl in Hs, Hl. inversion Hs; subst. inversion Hl.
        split; [congruence|]. exists w, rest. auto.
Qed.

Lemma lower_length (s : str) : List.length (lower s) = List.length s.
Proof. apply length_map. Qed.

Lemma prefix_ci_skipn (p s w rest : str) :
  s = w ++ rest -> lower w = lower p -> skipn (List.length p) s = rest.
Proof.
  intros -> Hl. apply (f_equal (@List.length ascii)) in Hl.
  rewrite !lower_length in Hl. rewrite <- Hl.
  rewrite skipn_app, skipn_all, Nat.sub_diag. reflexivity.
Qed.

Lemma lazy_dots_sound (more : nat) (taken s g : str) :
  Re.lazy_dots more taken s = Some g ->
  exists mid post,
    s = mid ++ post /\ g = rev taken ++ mid
    /\ (List.length mid <= more)%nat /\ Re.abstract_end post = true.
Proof.
  revert taken s; induction more as [|more IH]; intros taken s;
    cbn [Re.lazy_dots]; destruct (Re.abstract_end s) eqn:E.
  - intros H. inversion H. exists [], s. rewrite app_nil_r. simpl. auto.
  - discriminate.
  - intros H. inversion H. exists [], s. rewrite app_nil_r. simpl.
    repeat split; auto; lia.
  - destruct s as [|c s]; [discriminate|]. intros H.
    apply IH in H as (mid & post & -> & -> & Hlen & Hend).
    exists (c :: mid), post. cbn [rev]. rewrite <- app_assoc. simpl.
    repeat split; auto; lia.
Qed.

Lemma lazy_dots_complete (more : nat) (taken mid post : str) :
  (List.length mid <= more)%nat -> Re.abstract_end post = true ->
  exists g, Re.lazy_dots more taken (mid ++ post) = Some g.
Proof.
  revert taken mid; induction more as [|more IH]; intros taken mid Hlen Hend;
    cbn [Re.lazy_dots]; destruct (Re.abstract_end (mid ++ post)) eqn:E;
    try (eexists; reflexivity).
  - destruct mid; [simpl in E; congruence | simpl in Hlen; lia].
  - destruct mid as [|c mid]; [simpl in E; congruence|].
    simpl. apply IH; [simpl in Hlen; lia | exact Hend].
Qed.

Lemma abstract_group_sound (s g : str) :
  Re.abstract_group s = Some g ->
  exists post, s = g ++ post /\ (100 <= List.length g <= 2000)%nat
               /\ Re.abstract_end post = true.
Proof.
  unfold Re.abstract_group.
  destruct (List.length s <? 100)%nat eqn:E; [discriminate|].
  apply Nat.ltb_ge in E. intros H.
  apply lazy_dots_sound in H as (mid & post & Hs & -> & Hlen & Hend).
  rewrite rev_involutive. exists post.
  split; [|split; [|exact Hend]].
  - rewrite <- app_assoc, <- Hs. symmetry. apply firstn_skipn.
  - rewrite length_app, length_firstn. lia.
Qed.

Lemma abstract_group_complete (g post : str) :
  (100 <= List.length g <= 2000)%nat -> Re.abstract_end post = true ->
  exists g', Re.abstract_group (g ++ post) = Some g'.
Proof.
  intros Hlen Hend. unfold Re.abstract_group.
  replace (List.length (g ++ post) <? 100)%nat with false
    by (symmetry; apply Nat.ltb_ge; rewrite length_app; lia).
  rewrite skipn_app.
  replace (100 - List.length g)%nat with 0%nat by lia.
  change (skipn 0 post) with post.
  apply lazy_dots_complete; [rewrite length_skipn; lia | exact Hend].
Qed.

Lemma spaces_then_group_sound (s g : str) :
  Re.spaces_then_group s = Some g ->
  exists ws post,
    s = ws ++ g ++ post /\ forallb isspace ws = true
    /\ (100 <= List.length g <= 2000)%nat /\ Re.abstract_end post = true.
Proof.
  assert (Hbase : forall s0, Re.abstract_group s0 = Some g ->
            exists ws post,
              s0 = ws ++ g ++ post /\ forallb isspace ws = true
              /\ (100 <= List.length g <= 2000)%nat
              /\ Re.abstract_end post = true).
  { intros s0 H. apply abstract_group_sound in H as (post & -> & Hl & He).
    exists [], post. auto. }
  induction s as [|c s IH]; cbn [Re.spaces_then_group]; [apply Hbase|].
  destruct (isspace c) eqn:Ec; [|apply Hbase].
  destruct (Re.spaces_then_group s) as [g'|]; [|apply Hbase].
  intros H. inversion H; subst g'.
  destruct (IH eq_refl) as (ws & post & -> & Hws & Hl & He).
  exists (c :: ws), post. simpl. rewrite Ec, Hws. auto.
Qed.

Lemma spaces_then_group_complete (ws g post : str) :
  forallb isspace ws = true ->
  (100 <= List.length g <= 2000)%nat -> Re.abstract_end post = true ->
  exists g', Re.spaces_then_group (ws ++ g ++ post) = Some g'.
Proof.
  intros Hws Hlen Hend.
  assert (Hbase : exists g', Re.spaces_then_group (g ++ post) = Some g').
  { destruct (abstract_group_complete g post Hlen Hend) as [g' Hg].
    destruct (g ++ post) as [|c r] eqn:E; cbn [Re.spaces_then_group].
    - exists g'. exact Hg.
    - destruct (isspace c); [|exists g'; exact Hg].
      destruct (Re.spaces_then_group r) as [g2|];
        [exists g2; reflexivity | exists g'; exact Hg]. }
  induction ws as [|c ws IH]; [exact Hbase|].
  simpl in Hws. apply andb_true_iff in Hws as [Hc Hws].
  cbn [app Re.spaces_then_group]. rewrite Hc.
  destruct (IH Hws) as [g' Hg]. rewrite Hg. exists g'. reflexivity.
Qed.

Lemma abstract_here_sound (s g : str) :
  Re.abstract_here s = Some g ->
  exists lab post,
    s = lab ++ g ++ post /\ abstract_label lab
    /\ (100 <= List.length g <= 2000)%nat /\ Re.abstract_end post = true.
Proof.
  unfold Re.abstract_here.
  destruct (prefix_ci (lit "Abstract") s) eqn:Ep; [|discriminate].
  apply prefix_ci_split in Ep as (word & rest & Hs & Hw).
  rewrite (prefix_ci_skipn (lit "Abstract") s word rest Hs Hw
           : skipn 8 s = rest).
  assert (Hplain : Re.spaces_then_group rest = Some g ->
            exists lab post,
              s = lab ++ g ++ post /\ abstract_label lab
              /\ (100 <= List.length g <= 2000)%nat
              /\ Re.abstract_end post = true).
  { intros H. apply spaces_then_group_sound in H
      as (ws & post & -> & Hws & Hl & He).
    exists (word ++ [] ++ ws), post. split; [|split; [|auto]].
    - rewrite Hs, <- !app_assoc. reflexivity.
    - exists word, [], ws. auto. }
  destruct rest as [|c r]; [exact Hplain|].
  destruct (ascii_eqb c ":") eqn:Ec; [|exact Hplain].
  destruct (Re.spaces_then_group r) as [g'|] eqn:Er; [|exact Hplain].
  intros H. inversion H; subst g'.
  apply spaces_then_group_sound in Er as (ws & post & -> & Hws & Hl & He).
  apply ascii_eqb_eq in Ec. subst c.
  exists (word ++ lit ":" ++ ws), post. split; [|split; [|auto]].
  - rewrite Hs, <- !app_assoc. reflexivity.
  - exists word, (lit ":"), ws. auto.
Qed.

Lemma abstract_here_complete (lab g post : str) :
  abstract_label lab ->
  (100 <= List.length g <= 2000)%nat -> Re.abstract_end post = true ->
  exists g', Re.abstract_here (lab ++ g ++ post) = Some g'.
Proof.
  intros (word & colon & ws & -> & Hw & Hcolon & Hws) Hlen Hend.
  unfold Re.abstract_here.
  assert (Hpre : prefix_ci (lit "Abstract")
                   ((word ++ colon ++ ws) ++ g ++ post) = true).
  { apply prefix_ci_split. exists word, (colon ++ ws ++ g ++ post).
    rewrite <- !app_assoc. auto. }
  rewrite Hpre.
  rewrite (prefix_ci_skipn (lit "Abstract") _ word (colon ++ ws ++ g ++ post));
    [|rewrite <- !app_assoc; reflexivity | exact Hw].
  destruct (spaces_then_group_complete ws g post Hws Hlen Hend) as [g1 Hg1].
  destruct Hcolon as [-> | ->].
  - cbn [app]. destruct (ws ++ g ++ post) as [|c r] eqn:E.
    + exists g1. exact Hg1.
    + destruct (ascii_eqb c ":"); [|exists g1; exact Hg1].
      destruct (Re.spaces_then_group r) as [g2|];
        [exists g2; reflexivity | exists g1; exact Hg1].
  - cbn [lit list_ascii_of_string app].
    change (ascii_eqb ":" ":") with true. cbn iota.
    rewrite Hg1. exists g1. reflexivity.
Qed.

Lemma search_abstract_sound (text g : str) :
  Re.search_abstract text = Some g -> labelled_abstract text g.
Proof.
  unfold labelled_abstract.
  induction text as [|c text IH]; cbn [Re.search_abstract].
  - destruct (Re.abstract_here []) as [g'|] eqn:E; [|discriminate].
    intros H. inversion H; subst g'.
    apply abstract_here_sound in E as (lab & post & Hs & Hlab & Hl & He).
    exists [], lab, post. auto.
  - destruct (Re.abstract_here (c :: text)) as [g'|] eqn:E.
    + intros H. inversion H; subst g'.
      apply abstract_here_sound in E as (lab & post & Hs & Hlab & Hl & He).
      exists [], lab, post. auto.
    + intros H. destruct (IH H) as (pre & lab & post & -> & Hlab & Hl & He).
      exists (c :: pre), lab, post. auto.
Qed.

Lemma search_abstract_complete (text g : str) :
  labelled_abstract text g -> exists g', Re.search_abstract text = Some g'.
Proof.
  intros (pre & lab & post & -> & Hlab & Hlen & Hend).
  destruct (abstract_here_complete lab g post Hlab Hlen Hend) as [g1 Hg1].
  induction pre as [|c pre IH].
  - cbn [app]. destruct (lab ++ g ++ post); cbn [Re.search_abstract];
      rewrite Hg1; exists g1; reflexivity.
  - cbn [app Re.search_abstract].
    destruct (Re.abstract_here (c :: pre ++ lab ++ g ++ post)) as [g2|];
      [exists g2; reflexivity | exact IH].
Qed.

End Fallback.

(** X5. The search over the full text finds an abstract exactly when the
    text has, somewhere, the word "abstract" in any letter case, a colon
    or none, whitespace or none, then between 100 and 2000 characters,
    then a blank line, "JEL", "Keywords" or the end of the text. What it
    finds is such a stretch of characters; stripped, as it is stored, it
    has at most 2000 characters and no whitespace at either end. *)
Theorem X5_fallback_abstract (text : str) :
  (forall g, Re.search_abstract text = Some g ->
             labelled_abstract text g
             /\ (List.length (strip g) <= 2000)%nat
             /\ strip (strip g) = strip g)
  /\ ((exists g, labelled_abstract text g) ->
      exists g, Re.search_abstract text = Some g).
Proof.
  split.
  - intros g H. pose proof (search_abstract_sound text g H) as Hl.
    split; [exact Hl|]. split; [|apply strip_idem].
    destruct Hl as (pre & lab & post & _ & _ & Hlen & _).
    pose proof (strip_length g). lia.
  - intros [g H]. apply (search_abstract_complete text g H).
Qed.

(** ** More on the topic filter *)

Section TopicMore.

Lemma isspace_lower_char (c : ascii) : isspace (lower_char c) = isspace c.
Proof. destruct c as [[] [] [] [] [] [] [] []]; reflexivity. Qed.

Lemma lstrip_blank (s : str) : forallb isspace s = true -> lstrip s = [].
Proof.
  induction s as [|c s IH]; [reflexivity|]. simpl. intros H.
  apply andb_true_iff in H as [Hc Hs]. rewrite Hc. apply IH, Hs.
Qed.

Lemma strip_lower_blank (q : str) :
  forallb isspace q = true -> strip (lower q) = [].
Proof.
  intros H. unfold strip. rewrite lstrip_blank; [reflexivity|].
  induction q as [|c q IH]; [reflexivity|]. simpl in *.
  apply andb_true_iff in H as [Hc Hq].
  rewrite isspace_lower_char, Hc. apply IH, Hq.
Qed.

Lemma oword_last_nonword (c : ascii) (s : str) :
  isword c = false ->
  Re.oword (last_of (Some c) s) = Re.oword (last_of None s).
Proof. intros H. destruct s; [simpl; exact H | reflexivity]. Qed.

(** The empty word occurs as a whole word exactly in a text with a word
    character. *)
Lemma empty_word_occurs (text : str) :
  whole_word_occurs [] text <-> existsb isword text = true.
Proof.
  unfold whole_word_occurs. split.
  - intros (pre & mid & post & -> & Hm & Hb & _).
    apply lower_nil_inv in Hm. subst mid. cbn [app] in *.
    rewrite existsb_app. apply orb_true_iff.
    unfold word_boundary in Hb.
    destruct (Re.oword (last_of None pre)) eqn:E1.
    + left. rewrite last_of_rev in E1.
      destruct (rev pre) as [|c r] eqn:Er; [discriminate|].
      apply existsb_exists. exists c. split; [|exact E1].
      apply in_rev. rewrite Er. left. reflexivity.
    + right. destruct post as [|c post]; [simpl in Hb; congruence|].
      simpl in Hb. simpl. destruct (isword c); [reflexivity | congruence].
  - intros H.
    enough (exists pre post, text = pre ++ post /\ word_boundary pre post)
      as (pre & post & -> & Hb).
    { exists pre, [], post. cbn [app]. rewrite app_nil_r. auto. }
    induction text as [|c text IH]; [discriminate|].
    simpl in H. destruct (isword c) eqn:Ec.
    + exists [], (c :: text). split; [reflexivity|].
      unfold word_boundary. simpl. rewrite Ec. discriminate.
    + destruct (IH H) as (pre & post & -> & Hb).
      exists (c :: pre), post. split; [reflexivity|].
      unfold word_boundary in *. cbn [last_of].
      rewrite (oword_last_nonword c pre Ec). exact Hb.
Qed.

End TopicMore.

(** X8. A query that is not empty but holds only whitespace is not the
    empty query, which matches every record: it matches exactly the
    records whose title or abstract has a word character. *)
Theorem X8_blank_query_needs_a_word
    (q base : str) (sd ed : option str) (p : paper) :
  q <> [] ->
  forallb isspace q = true ->
  (matches_search_query (NBERScraper_init [] base sd ed) p = true)
  /\ (matches_search_query (NBERScraper_init q base sd ed) p = true <->
      existsb isword (or_empty (title p)) = true
      \/ existsb isword (or_empty (abstract p)) = true).
Proof.
  intros Hne Hblank. split; [reflexivity|].
  rewrite matches_search_query_unfold
    by (rewrite init_search_query, truthy_lower by exact Hne;
        apply truthy_nonempty; exact Hne).
  rewrite init_search_query by exact Hne.
  rewrite lower_idem, (strip_lower_blank q Hblank).
  change (search_terms_for []) with [word_pattern []].
  rewrite orb_true_iff, !any_single_term, !empty_word_occurs. reflexivity.
Qed.

(** The query of one space against a record with no text and against a
    record titled "Wages". *)
Lemma X8_witness :
  matches_search_query (NBERScraper_init (lit " ") default_base_url None None)
                       (Scenario.titled None None) = false
  /\ matches_search_query (NBERScraper_init (lit " ") default_base_url None None)
                          (Scenario.titled (Some (lit "Wages")) None) = true.
Proof.
  assert (H1 : lit " " <> []) by discriminate.
  assert (H2 : forallb isspace (lit " ") = true) by reflexivity.
  split.
  - destruct (matches_search_query
                (NBERScraper_init (lit " ") default_base_url None None)
                (Scenario.titled None None)) eqn:E; [|reflexivity].
    apply (X8_blank_query_needs_a_word (lit " ") default_base_url None None
             (Scenario.titled None None) H1 H2) in E.
    destruct E as [E|E]; discriminate.
  - apply (X8_blank_query_needs_a_word (lit " ") default_base_url None None
             (Scenario.titled (Some (lit "Wages")) None) H1 H2).
    left. reflexivity.
Defined.

(** X9. For queries that are not empty the topic filter depends on the
    query only through its lower-cased form with the whitespace around
    it removed: two queries with the same such form accept the same
    records. *)
Theorem X9_query_is_normalised
    (q q' base base' : str) (sd sd' ed ed' : option str) (p : paper) :
  q <> [] -> q' <> [] ->
  strip (lower q) = strip (lower q') ->
  matches_search_query (NBERScraper_init q base sd ed) p
  = matches_search_query (NBERScraper_init q' base' sd' ed') p.
Proof.
  intros Hq Hq' H.
  rewrite !matches_search_query_unfold
    by (rewrite init_search_query, truthy_lower by assumption;
        apply truthy_nonempty; assumption).
  rewrite !init_search_query by assumption.
  rewrite !lower_idem, H. reflexivity.
Qed.

(** The queries "Minimum Wage" and "  minimum wage ". *)
Lemma X9_witness :
  matches_search_query
    (NBERScraper_init (lit "Minimum Wage") default_base_url None None)
    (Scenario.titled (Some (lit "The minimum wage")) None)
  = matches_search_query
      (NBERScraper_init (lit "  minimum wage ") default_base_url None None)
      (Scenario.titled (Some (lit "The minimum wage")) None).
Proof.
  apply X9_query_is_normalised; [discriminate | discriminate |].
  reflexivity.
Defined.

(** ** More on the date filter *)

Section DatesMore.

Import Datetime.

Lemma digit_char_spec (k : Z) :
  0 <= k <= 9 -> isdigit (digit_char k) = true /\ digit_value (digit_char k) = k.
Proof.
  intros H.
  assert (Hk : k = 0 \/ k = 1 \/ k = 2 \/ k = 3 \/ k = 4 \/ k = 5 \/ k = 6
               \/ k = 7 \/ k = 8 \/ k = 9) by lia.
  repeat destruct Hk as [-> | Hk]; try subst k; split; reflexivity.
Qed.

(** Reading back the month and the day written with two digits each,
    checked for the 12 months, the 31 days and the two separators. *)
Lemma month_day_read_back_all :
  forallb (fun sep =>
    forallb (fun m =>
      forallb (fun d =>
        match month_sep_day sep (month_alts (two_digits m ++ sep :: two_digits d)) with
        | Some (m', d', []) => (m' =? m) && (d' =? d)
        | _ => false
        end)
        (map Z.of_nat (seq 1 31)))
      (map Z.of_nat (seq 1 12)))
    ["/"%char; "-"%char]
  = true.
Proof. vm_compute. reflexivity. Qed.

Lemma in_range_list (lo len : nat) (x : Z) :
  Z.of_nat lo <= x < Z.of_nat lo + Z.of_nat len ->
  In x (map Z.of_nat (seq lo len)).
Proof.
  intros H. apply in_map_iff. exists (Z.to_nat x). split; [lia|].
  apply in_seq. lia.
Qed.

Lemma month_day_read_back (sep : ascii) (m d : Z) :
  sep = "/"%char \/ sep = "-"%char ->
  1 <= m <= 12 -> 1 <= d <= 31 ->
  month_sep_day sep (month_alts (two_digits m ++ sep :: two_digits d))
  = Some (m, d, []).
Proof.
  intros Hsep Hm Hd.
  pose proof month_day_read_back_all as H.
  rewrite forallb_forall in H.
  assert (Hin : In sep ["/"%char; "-"%char])
    by (destruct Hsep as [-> | ->]; simpl; auto).
  specialize (H sep Hin). rewrite forallb_forall in H.
  specialize (H m (in_range_list 1 12 m ltac:(lia))).
  rewrite forallb_forall in H.
  specialize (H d (in_range_list 1 31 d ltac:(lia))).
  destruct (month_sep_day sep (month_alts (two_digits m ++ sep :: two_digits d)))
    as [[[m' d'] [|c r]]|]; try discriminate.
  apply andb_true_iff in H as [H1 H2].
  apply Z.eqb_eq in H1, H2. subst. reflexivity.
Qed.

Lemma days_in_month_le (y m : Z) : 28 <= days_in_month y m <= 31.
Proof.
  unfold days_in_month.
  destruct (m =? 2); [destruct (is_leap y); lia|].
  destruct ((m =? 4) || (m =? 6) || (m =? 9) || (m =? 11)); lia.
Qed.

(** A date of the calendar written in either format is read back as
    itself. *)
Lemma strptime_format_date (sep : ascii) (d : datetime) :
  sep = "/"%char \/ sep = "-"%char ->
  valid_date d ->
  strptime sep (format_date sep d) = inr d.
Proof.
  intros Hsep (Hy & Hm & Hd).
  pose proof (days_in_month_le (year d) (month d)) as Hdim.
  destruct d as [y m dd]. cbn [year month day] in *.
  unfold format_date, four_digits. cbn [year month day app].
  unfold strptime.
  destruct (digit_char_spec (y / 1000)) as [D1 V1];
    [Z.div_mod_to_equations; lia|].
  destruct (digit_char_spec (y / 100 mod 10)) as [D2 V2];
    [Z.div_mod_to_equations; lia|].
  destruct (digit_char_spec (y / 10 mod 10)) as [D3 V3];
    [Z.div_mod_to_equations; lia|].
  destruct (digit_char_spec (y mod 10)) as [D4 V4];
    [Z.div_mod_to_equations; lia|].
  rewrite D1, D2, D3, D4, ascii_eqb_refl. cbn [andb].
  rewrite (month_day_read_back sep m dd Hsep Hm) by lia.
  rewrite V1, V2, V3, V4.
  replace (1000 * (y / 1000) + 100 * (y / 100 mod 10) + 10 * (y / 10 mod 10)
           + y mod 10) with y by (Z.div_mod_to_equations; lia).
  unfold make.
  replace ((1 <=? y) && (y <=? 9999) && (1 <=? m) && (m <=? 12) && (1 <=? dd)
           && (dd <=? days_in_month y m)) with true; [reflexivity|].
  symmetry. rewrite !andb_true_iff, !Z.leb_le. lia.
Qed.

Lemma parse_date_format_date (sep : ascii) (d : datetime) :
  sep = "/"%char \/ sep = "-"%char ->
  valid_date d ->
  parse_date (format_date sep d) = Some d.
Proof.
  intros Hsep Hv. pose proof (strptime_format_date sep d Hsep Hv) as H.
  destruct Hsep as [-> | ->].
  - unfold parse_date. rewrite H. reflexivity.
  - rewrite parse_date_returned.
    rewrite strptime_slash_has_slash.
    + rewrite H. reflexivity.
    + apply strptime_chars in H as [_ Hc]. apply dash_chars_no_slash, Hc.
Qed.

(** On dates of the calendar the order of [datetime] is the order of the
    numbers YYYYMMDD. *)
Lemma lt_day_number (a b : datetime) :
  valid_date a -> valid_date b ->
  (lt a b = true <-> day_number a < day_number b).
Proof.
  intros (Hya & Hma & Hda) (Hyb & Hmb & Hdb).
  pose proof (days_in_month_le (year a) (month a)).
  pose proof (days_in_month_le (year b) (month b)).
  unfold lt, day_number.
  destruct (Z.ltb_spec (year a) (year b)), (Z.eqb_spec (year a) (year b)),
    (Z.ltb_spec (month a) (month b)), (Z.eqb_spec (month a) (month b)),
    (Z.ltb_spec (day a) (day b)); cbn [orb andb];
    split; intros; try discriminate; try reflexivity; lia.
Qed.

(** The order of [datetime] is total: a date that is neither before a
    first date nor after a second one lies between them. *)
Lemma lt_between (lo hi d : datetime) :
  lt hi lo = true -> lt d lo = true \/ lt hi d = true.
Proof.
  unfold lt.
  destruct (Z.ltb_spec (year hi) (year lo)), (Z.eqb_spec (year hi) (year lo)),
    (Z.ltb_spec (month hi) (month lo)), (Z.eqb_spec (month hi) (month lo)),
    (Z.ltb_spec (day hi) (day lo)); cbn [orb andb]; try discriminate;
    intros _;
    destruct (Z.ltb_spec (year d) (year lo)), (Z.eqb_spec (year d) (year lo)),
      (Z.ltb_spec (month d) (month lo)), (Z.eqb_spec (month d) (month lo)),
      (Z.ltb_spec (day d) (day lo)); cbn [orb andb]; auto;
      destruct (Z.ltb_spec (year hi) (year d)), (Z.eqb_spec (year hi) (year d)),
        (Z.ltb_spec (month hi) (month d)), (Z.eqb_spec (month hi) (month d)),
        (Z.ltb_spec (day hi) (day d)); cbn [orb andb]; auto; lia.
Qed.

Lemma format_date_truthy (sep : ascii) (d : datetime) :
  truthy (format_date sep d) = true.
Proof. reflexivity. Qed.

End DatesMore.

(** X11. With both bounds and the publication date written as dates of
    the calendar, each in either format, [matches_date_range] accepts the
    record exactly when its date lies between the bounds, both included
    (dates compared as the numbers YYYYMMDD). *)
Theorem X11_window_on_calendar_dates
    (sp sa sb : ascii) (d a b : Datetime.datetime) (q base : str) (p : paper) :
  (sp = "/"%char \/ sp = "-"%char) ->
  (sa = "/"%char \/ sa = "-"%char) ->
  (sb = "/"%char \/ sb = "-"%char) ->
  valid_date d -> valid_date a -> valid_date b ->
  publication_date p = Some (format_date sp d) ->
  (matches_date_range
     (mk_scraper q base (Some (format_date sa a)) (Some (format_date sb b))) p
   = true
   <-> day_number a <= day_number d <= day_number b).
Proof.
  intros Hsp Hsa Hsb Hd Ha Hb Hp.
  rewrite matches_date_range_char, Hp, (parse_date_format_date sp d Hsp Hd).
  rewrite negb_true_iff, orb_false_iff.
  assert (H1 : before_start
                 (mk_scraper q base (Some (format_date sa a))
                             (Some (format_date sb b))) d = Datetime.lt d a).
  { unfold before_start. cbn [start_date]. rewrite format_date_truthy.
    pose proof (returned_parse_bound (format_date sa a)) as Hr.
    rewrite (parse_date_format_date sa a Hsa Ha) in Hr.
    destruct (parse_bound (format_date sa a)); inversion Hr. reflexivity. }
  assert (H2 : after_end
                 (mk_scraper q base (Some (format_date sa a))
                             (Some (format_date sb b))) d = Datetime.lt b d).
  { unfold after_end. cbn [end_date]. rewrite format_date_truthy.
    pose proof (returned_parse_bound (format_date sb b)) as Hr.
    rewrite (parse_date_format_date sb b Hsb Hb) in Hr.
    destruct (parse_bound (format_date sb b)); inversion Hr. reflexivity. }
  rewrite H1, H2.
  pose proof (lt_day_number d a Hd Ha) as L1.
  pose proof (lt_day_number b d Hb Hd) as L2.
  assert (N1 : Datetime.lt d a = false <-> ~ day_number d < day_number a).
  { rewrite <- L1. destruct (Datetime.lt d a); split; congruence. }
  assert (N2 : Datetime.lt b d = false <-> ~ day_number b < day_number d).
  { rewrite <- L2. destruct (Datetime.lt b d); split; congruence. }
  rewrite N1, N2. lia.
Qed.

(** The record dated 2022/05/01 in the window from 2022-01-01 to
    2023-01-01. *)
Lemma X11_witness :
  matches_date_range
    (mk_scraper [] default_base_url
                (Some (lit "2022-01-01")) (Some (lit "2023-01-01")))
    (Scenario.dated (Some (lit "2022/05/01")))
  = true.
Proof.
  apply (X11_window_on_calendar_dates "/" "-" "-"
           (Datetime.mk_datetime 2022 5 1) (Datetime.mk_datetime 2022 1 1)
           (Datetime.mk_datetime 2023 1 1) [] default_base_url
           (Scenario.dated (Some (lit "2022/05/01")))).
  - left; reflexivity.
  - right; reflexivity.
  - right; reflexivity.
  - repeat split; apply Z.leb_le; reflexivity.
  - repeat split; apply Z.leb_le; reflexivity.
  - repeat split; apply Z.leb_le; reflexivity.
  - reflexivity.
  - split; apply Z.leb_le; reflexivity.
Defined.

(** X12. A window whose end bound denotes a date before the one its
    start bound denotes rejects every record whose publication date
    denotes a date. *)
Theorem X12_inverted_window_rejects
    (self : NBERScraper) (p : paper) (s bs be : str)
    (d lo hi : Datetime.datetime) :
  start_date self = Some bs -> parse_date bs = Some lo ->
  end_date self = Some be -> parse_date be = Some hi ->
  Datetime.lt hi lo = true ->
  publication_date p = Some s -> parse_date s = Some d ->
  matches_date_range self p = false.
Proof.
  intros Hs Hlo He Hhi Hinv Hp Hd.
  rewrite matches_date_range_char, Hp, Hd.
  apply negb_false_iff, orb_true_iff.
  destruct (lt_between lo hi d Hinv) as [H | H].
  - left. apply before_start_spec. exists bs, lo. auto.
  - right. apply after_end_spec. exists be, hi. auto.
Qed.

(** The window from 2023-06-01 to 2023-01-01 and a record dated inside
    2023. *)
Lemma X12_witness :
  matches_date_range
    (mk_scraper [] default_base_url
                (Some (lit "2023-06-01")) (Some (lit "2023-01-01")))
    (Scenario.dated (Some (lit "2023/03/15")))
  = false.
Proof.
  apply (X12_inverted_window_rejects _ _
           (lit "2023/03/15") (lit "2023-06-01") (lit "2023-01-01")
           (Datetime.mk_datetime 2023 3 15) (Datetime.mk_datetime 2023 6 1)
           (Datetime.mk_datetime 2023 1 1)); reflexivity.
Defined.

(** X13. The date filter only narrows: a record it accepts is still
    accepted when the start bound, the end bound or both are taken
    away. *)
Theorem X13_dropping_a_bound_keeps_acceptance (self : NBERScraper) (p : paper) :
  matches_date_range self p = true ->
  matches_date_range
    (mk_scraper (search_query self) (base_url self) None (end_date self)) p = true
  /\ matches_date_range
       (mk_scraper (search_query self) (base_url self) (start_date self) None) p
     = true
  /\ matches_date_range
       (mk_scraper (search_query self) (base_url self) None None) p = true.
Proof.
  rewrite !matches_date_range_char.
  destruct (publication_date p) as [s|]; [|auto].
  destruct (parse_date s) as [d|]; [|auto].
  rewrite negb_true_iff, orb_false_iff. intros [H1 H2].
  unfold before_start, after_end in *. cbn [start_date end_date] in *.
  rewrite H1, H2. auto.
Qed.

(** The record dated 2022/05/01, accepted in a window, is accepted
    without the window. *)
Lemma X13_witness :
  matches_date_range (mk_scraper [] default_base_url None None)
                     (Scenario.dated (Some (lit "2022/05/01"))) = true.
Proof.
  apply (X13_dropping_a_bound_keeps_acceptance
           (mk_scraper [] default_base_url
                       (Some (lit "2022-01-01")) (Some (lit "2023-01-01")))
           (Scenario.dated (Some (lit "2022/05/01")))).
  reflexivity.
Defined.

(** ** More on the scan *)

Section ScanMore.

Variable env : Env.
Variable self : NBERScraper.

(** What follows the [append] in [accept_paper] leaves [self.papers] as
    it is. *)
Lemma accept_paper_papers (dl : bool) (p : paper) (found : Z) (s : State) :
  papers (snd (accept_paper env dl p found s)) = papers s ++ [p].
Proof.
  unfold accept_paper. unfold bind at 1. cbn [papers_append].
  set (s1 := {| ticks := ticks s; slept := slept s;
                papers := papers s ++ [p]; files := files s |}).
  change (papers s ++ [p]) with (papers s1).
  generalize s1. clear s1.
  change (keeps_papers
            (match title p with
             | Some _ =>
                 (if dl && otruthy (pdf_url p)
                  then download_pdf env (pdf_url p) (paper_id p)
                  else ret false) ;;
                 (if (found + 1) mod 10 =? 0
                  then save_to_json env
                         (lit "nber_papers_progress_" ++ of_Z (found + 1)
                          ++ lit ".json")
                  else ret false) ;;
                 ret (found + 1)
             | None => raise TypeError
             end)).
  destruct (title p); [|apply keeps_raise].
  apply keeps_bind.
  - destruct (dl && otruthy (pdf_url p));
      [apply keeps_download_pdf | apply keeps_ret].
  - intros _. apply keeps_bind; [|intros; apply keeps_ret].
    destruct (_ =? 0); [apply keeps_save_to_json | apply keeps_ret].
Qed.

Lemma accept_paper_returns (dl : bool) (p : paper) (found f : Z) (s s' : State) :
  accept_paper env dl p found s = (inr f, s') ->
  f = found + 1 /\ title p <> None.
Proof.
  unfold accept_paper. intros H.
  apply bind_inr in H as (? & ? & _ & H).
  destruct (title p); [|discriminate].
  do 2 (apply bind_inr in H as (? & ? & _ & H)).
  apply ret_inv in H as [<- _]. split; [reflexivity | discriminate].
Qed.

Lemma accept_paper_untitled (dl : bool) (p : paper) (found : Z) (s : State) :
  title p = None ->
  accept_paper env dl p found s = (inl TypeError, with_paper s p).
Proof.
  intros H. unfold accept_paper, bind, papers_append. rewrite H. reflexivity.
Qed.

(** What a turn that ends normally has done. *)
Lemma scan_iteration_step (dl : bool) (v v' : loop_vars) (s s' : State) :
  scan_iteration env self dl v s = (inr v', s') ->
  papers_checked v' = papers_checked v + 1
  /\ current_number v' = current_number v - 1
  /\ ((consecutive_failures v' = consecutive_failures v + 1
       /\ papers_found v' = papers_found v /\ papers s' = papers s)
      \/ (consecutive_failures v' = 0
          /\ papers_found v' = papers_found v /\ papers s' = papers s)
      \/ (consecutive_failures v' = 0
          /\ papers_found v' = papers_found v + 1
          /\ exists p, papers s' = papers s ++ [p]
                       /\ passes_filters self p
                       /\ paper_id p = wid (current_number v)
                       /\ title p <> None)).
Proof.
  intros H. pose proof (scan_iteration_moves env self dl v v' s s' H) as [Hn Hc].
  split; [exact Hc|]. split; [exact Hn|].
  pose proof (keeps_extract_paper_metadata env self (current_number v) s) as Hk.
  destruct (extract_paper_metadata env self (current_number v) s)
    as [[e|[p|]] s1] eqn:E; cbn [snd] in Hk.
  - unfold scan_iteration in H. rewrite (bind_raise _ _ _ _ _ E) in H.
    discriminate.
  - destruct (matches_search_query self p && matches_date_range self p) eqn:Ef.
    + right. right.
      unfold scan_iteration in H. rewrite (bind_run _ _ _ _ _ E), Ef in H.
      apply bind_inr in H as (f & s2 & Hacc & H).
      apply ret_inv in H as [<- <-]. cbn [consecutive_failures papers_found].
      pose proof (accept_paper_papers dl p (papers_found v) s1) as Hp.
      rewrite Hacc in Hp. cbn [snd] in Hp.
      apply accept_paper_returns in Hacc as [-> Ht].
      split; [reflexivity|]. split; [reflexivity|].
      exists p. split; [congruence|]. split; [exact Ef|].
      split; [apply (extract_paper_id env self _ _ _ _ E) | exact Ht].
    + right. left.
      rewrite (scan_iteration_rejected env self dl v s s1 p E Ef) in H.
      inversion H; subst. cbn. auto.
  - left. rewrite (scan_iteration_null env self dl v s s1 E) in H.
    inversion H; subst. cbn. auto.
Qed.

(** What a turn has done to [self.papers], however it ends. *)
Lemma scan_iteration_papers (dl : bool) (v : loop_vars) (s : State) :
  papers (snd (scan_iteration env self dl v s)) = papers s
  \/ exists p,
       papers (snd (scan_iteration env self dl v s)) = papers s ++ [p]
       /\ passes_filters self p
       /\ paper_id p = wid (current_number v).
Proof.
  pose proof (keeps_extract_paper_metadata env self (current_number v) s) as Hk.
  unfold scan_iteration, bind.
  destruct (extract_paper_metadata env self (current_number v) s)
    as [[e|[p|]] s1] eqn:E; cbn [snd] in *.
  - left. exact Hk.
  - destruct (matches_search_query self p && matches_date_range self p) eqn:Ef.
    + right. exists p.
      pose proof (accept_paper_papers dl p (papers_found v) s1) as Hp.
      destruct (accept_paper env dl p (papers_found v) s1) as [[e|f] s2];
        unfold ret; cbn [snd] in *;
        (split; [congruence|]; split;
         [exact Ef | apply (extract_paper_id env self _ _ _ _ E)]).
    + left. cbn. exact Hk.
  - left. exact Hk.
Qed.

(** A property of the local variables and the state that every turn
    keeps holds when the loop ends. *)
Lemma scan_loop_inv (I : loop_vars -> State -> Prop)
    (mp mg : option Z) (dl : bool) :
  (forall v s v' s',
     stop_check mp mg v = None -> I v s ->
     scan_iteration env self dl v s = (inr v', s') -> I v' s') ->
  forall fuel v s why v' s',
    I v s ->
    scan_loop env self mp mg dl fuel v s = (inr (why, v'), s') ->
    I v' s'.
Proof.
  intros Hstep. induction fuel as [|fuel IH]; intros v s why v' s' Hi;
    cbn [scan_loop]; destruct (stop_check mp mg v) eqn:E;
    try (intros H; apply ret_inv in H as [H <-]; inversion H; subst; exact Hi).
  intros H. apply bind_inr in H as (v1 & s1 & Hit & H).
  apply (IH v1 s1 why v' s'); [|exact H].
  apply (Hstep v s v1 s1 E Hi Hit).
Qed.


(** [scrape_run] is the resolution of the start followed by the loop. *)
Lemma scrape_run_inv (mp mg sn : option Z) (dl : bool) (s s' : State)
    (why : stop_reason) (v : loop_vars) :
  scrape_run env self mp mg sn dl s = (inr (why, v), s') ->
  exists start s0,
    resolve_start env self sn s = (inr start, s0)
    /\ papers s0 = papers s
    /\ scan_loop env self mp mg dl (Z.to_nat start) (initial_vars start) s0
       = (inr (why, v), s').
Proof.
  unfold scrape_run. intros H.
  apply bind_inr in H as (start & s0 & Hr & H).
  exists start, s0. split; [exact Hr|]. split; [|exact H].
  pose proof (keeps_resolve_start env self sn s) as Hk.
  rewrite Hr in Hk. exact Hk.
Qed.



End ScanMore.

Section ScanInvariants.

Variable env : Env.
Variable self : NBERScraper.

Lemma resolve_start_given (n : Z) (s : State) :
  resolve_start env self (Some n) s = (inr n, s).
Proof. reflexivity. Qed.



(** What the loop has added to [self.papers], however it ends. *)
Lemma scan_loop_accepted (mp mg : option Z) (dl : bool) (fuel : nat)
    (v : loop_vars) (s : State) :
  exists l ns,
    papers (snd (scan_loop env self mp mg dl fuel v s)) = papers s ++ l
    /\ Forall (passes_filters self) l
    /\ map paper_id l = map wid ns
    /\ descending ns
    /\ Forall (fun n => 0 < n <= current_number v) ns.
Proof.
  assert (Hnone : forall (s1 : State) (n : Z),
            exists l ns,
              papers s1 = papers s1 ++ l
              /\ Forall (passes_filters self) l
              /\ map paper_id l = map wid ns
              /\ descending ns
              /\ Forall (fun m => 0 < m <= n) ns).
  { intros s1 n. exists [], []. rewrite app_nil_r. cbn.
    repeat split; constructor. }
  revert v s. induction fuel as [|fuel IH]; intros v s; cbn [scan_loop];
    destruct (stop_check mp mg v) eqn:Ego;
    try solve [unfold ret; cbn [snd]; apply Hnone].
  apply stop_check_none in Ego as [_ Hpos].
  pose proof (scan_iteration_papers env self dl v s) as Hit.
  unfold bind.
  destruct (scan_iteration env self dl v s) as [[e|v1] s1] eqn:E; cbn [snd] in *.
  - destruct Hit as [Hp | (p & Hp & Hf & Hid)].
    + exists [], []. rewrite app_nil_r. cbn.
      split; [exact Hp|]. repeat split; constructor.
    + exists [p], [current_number v]. cbn. rewrite Hid.
      split; [exact Hp|]. split; [constructor; [exact Hf | constructor]|].
      split; [reflexivity|]. split; [split; constructor|].
      constructor; [lia | constructor].
  - apply scan_iteration_moves in E as [Hn _].
    destruct (IH v1 s1) as (l & ns & Hl & Hfl & Hids & Hdesc & Hns).
    assert (Hlower : Forall (fun m => m < current_number v) ns).
    { eapply Forall_impl; [|exact Hns]. cbn. intros; lia. }
    assert (Hrange : Forall (fun n => 0 < n <= current_number v) ns).
    { eapply Forall_impl; [|exact Hns]. cbn. intros; lia. }
    destruct Hit as [Hp | (p & Hp & Hf & Hid)].
    + exists l, ns. rewrite Hl, Hp. auto.
    + exists (p :: l), (current_number v :: ns).
      rewrite Hl, Hp, <- app_assoc. cbn. rewrite Hid, Hids.
      split; [reflexivity|]. split; [constructor; assumption|].
      split; [reflexivity|]. split; [split; assumption|].
      constructor; [lia | exact Hrange].
Qed.

(** A paper without a title that passes the filters ends the loop. *)
Lemma scan_loop_untitled (mp mg : option Z) (dl : bool) (fuel : nat)
    (v : loop_vars) (s s1 : State) (p : paper) :
  stop_check mp mg v = None ->
  extract_paper_metadata env self (current_number v) s = (inr (Some p), s1) ->
  passes_filters self p ->
  title p = None ->
  scan_loop env self mp mg dl (S fuel) v s = (inl TypeError, with_paper s1 p).
Proof.
  intros Hgo Hex Hf Ht. cbn [scan_loop]. rewrite Hgo.
  unfold scan_iteration.
  unfold bind at 1. unfold bind at 1. rewrite Hex.
  unfold passes_filters in Hf. rewrite Hf.
  unfold bind. rewrite (accept_paper_untitled env dl p _ s1 Ht). reflexivity.
Qed.

End ScanInvariants.


(** X15. However [scrape_papers] ends, by a [break] or by an exception,
    what it has added to [self.papers] is a list of records that all
    pass both filters, with identifiers "w" and a number, the numbers
    positive, strictly decreasing, and at most the start when one is
    given. *)
Theorem X15_accepted_papers
    (env : Env) (self : NBERScraper) (mp mg sn : option Z) (dl : bool)
    (s : State) :
  exists l ns,
    papers (snd (scrape_papers env self mp mg sn dl s)) = papers s ++ l
    /\ Forall (passes_filters self) l
    /\ map paper_id l = map wid ns
    /\ descending ns
    /\ Forall (fun n => 0 < n) ns
    /\ (forall start, sn = Some start -> Forall (fun n => n <= start) ns).
Proof.
  assert (Hrun : exists l ns,
            papers (snd (scrape_run env self mp mg sn dl s)) = papers s ++ l
            /\ Forall (passes_filters self) l
            /\ map paper_id l = map wid ns
            /\ descending ns
            /\ Forall (fun n => 0 < n) ns
            /\ (forall start, sn = Some start -> Forall (fun n => n <= start) ns)).
  { unfold scrape_run, bind.
    pose proof (keeps_resolve_start env self sn s) as Hk.
    destruct (resolve_start env self sn s) as [[e|start] s0] eqn:Er;
      cbn [snd] in *.
    - exists [], []. rewrite app_nil_r. cbn. repeat split; auto.
    - destruct (scan_loop_accepted env self mp mg dl (Z.to_nat start)
                  (initial_vars start) s0)
        as (l & ns & Hl & Hf & Hids & Hd & Hns).
      exists l, ns. rewrite Hl, Hk. repeat split; auto.
      + eapply Forall_impl; [|exact Hns]. cbn. intros; lia.
      + intros n ->. rewrite resolve_start_given in Er. inversion Er; subst.
        eapply Forall_impl; [|exact Hns]. cbn. intros; lia. }
  destruct Hrun as (l & ns & Hl & Hrest).
  exists l, ns. split; [|exact Hrest].
  unfold scrape_papers, bind.
  destruct (scrape_run env self mp mg sn dl s) as [[e|r] s1]; exact Hl.
Qed.


(** X17. A turn of the loop on a paper that has no title and passes both
    filters ends [scrape_papers] with a [TypeError]: the log line of the
    acceptance slices the title, which is [None]. The paper is in
    [self.papers] by then. *)
Theorem X17_untitled_paper_raises
    (env : Env) (self : NBERScraper) (mp mg : option Z) (dl : bool)
    (fuel : nat) (v : loop_vars) (s s1 : State) (p : paper) :
  stop_check mp mg v = None ->
  extract_paper_metadata env self (current_number v) s = (inr (Some p), s1) ->
  passes_filters self p ->
  title p = None ->
  scan_loop env self mp mg dl (S fuel) v s = (inl TypeError, with_paper s1 p).
Proof. apply scan_loop_untitled. Qed.



Lemma X17_witness :
  fst (scan_loop Scenario.env_spaced Scenario.plain_scraper None None false 5
                 (initial_vars 5) init_state) = inl TypeError.
Proof.
  destruct (extract_paper_metadata Scenario.env_spaced Scenario.plain_scraper
              5 init_state) as [[e|[p|]] s1] eqn:E;
    try (vm_compute in E; discriminate).
  rewrite (X17_untitled_paper_raises Scenario.env_spaced Scenario.plain_scraper
             None None false 4 (initial_vars 5) init_state s1 p eq_refl E).
  - reflexivity.
  - vm_compute in E. injection E as Hp Hs. subst p. vm_compute. reflexivity.
  - vm_compute in E. injection E as Hp Hs. subst p. reflexivity.
Defined.

Section Files.

Variable env : Env.






End Files.


Section Checkpoints.

Variable env : Env.
Variable self : NBERScraper.







End Checkpoints.



Section Detection.

Variable env : Env.
Variable self : NBERScraper.

(** One probe: the [HEAD] request counts as one operation whatever it
    gives. *)
Lemma detect_start_unfold (c : Z) (rest : list Z) (s : State) :
  detect_start env self (c :: rest) s
  = match session_head env (ticks s) (paper_url self c) with
    | inr st => if st =? 200 then (inr (Some (c + 10)), ticked s)
                else detect_start env self rest (ticked s)
    | inl _ => detect_start env self rest (ticked s)
    end.
Proof.
  cbn [detect_start]. unfold bind at 1. unfold try_except, bind, io.
  destruct (session_head env (ticks s) (paper_url self c)) as [e|st];
    [reflexivity|].
  unfold ret. destruct (st =? 200); reflexivity.
Qed.

Lemma after_operations_ticked (n : nat) (s : State) :
  after_operations n (ticked s) = after_operations (S n) s.
Proof. unfold after_operations, ticked. cbn. f_equal. lia. Qed.

(** The first candidate whose page answers 200 decides. *)
Lemma detect_start_first (cands : list Z) (k : nat) (c : Z) (s : State) :
  nth_error cands k = Some c ->
  (forall i ci, (i < k)%nat -> nth_error cands i = Some ci ->
                session_head env (ticks s + i) (paper_url self ci) <> inr 200) ->
  session_head env (ticks s + k) (paper_url self c) = inr 200 ->
  detect_start env self cands s = (inr (Some (c + 10)), after_operations (S k) s).
Proof.
  revert k s. induction cands as [|c0 rest IH]; intros k s Hnth Hbefore Hhit.
  - destruct k; discriminate.
  - rewrite detect_start_unfold. destruct k as [|k].
    + cbn in Hnth. inversion Hnth; subst c0.
      rewrite Nat.add_0_r in Hhit. rewrite Hhit. cbn.
      unfold after_operations, ticked. do 2 f_equal. lia.
    + cbn [nth_error] in Hnth.
      assert (Hrest : detect_start env self rest (ticked s)
                      = (inr (Some (c + 10)), after_operations (S (S k)) s)).
      { rewrite <- after_operations_ticked. apply IH.
        - exact Hnth.
        - intros i ci Hi Hci. cbn [ticked ticks].
          replace (S (ticks s) + i)%nat with (ticks s + S i)%nat by lia.
          apply Hbefore; [lia | exact Hci].
        - cbn [ticked ticks].
          replace (S (ticks s) + k)%nat with (ticks s + S k)%nat by lia.
          exact Hhit. }
      pose proof (Hbefore 0%nat c0 ltac:(lia) eq_refl) as H0.
      rewrite Nat.add_0_r in H0.
      destruct (session_head env (ticks s) (paper_url self c0)) as [e|st];
        [exact Hrest|].
      destruct (st =? 200) eqn:E; [|exact Hrest].
      apply Z.eqb_eq in E. subst st. contradiction.
Qed.

(** The probing never raises; what it finds is ten above a candidate;
    it makes at least one request when there is a candidate and at most
    one per candidate, and changes nothing else. *)
Lemma detect_start_total (cands : list Z) (s : State) :
  exists found n,
    detect_start env self cands s = (inr found, after_operations n s)
    /\ (Nat.min 1 (List.length cands) <= n <= List.length cands)%nat
    /\ (forall m, found = Some m -> In (m - 10) cands)
    /\ (found = None -> n = List.length cands).
Proof.
  revert s. induction cands as [|c rest IH]; intros s.
  - exists None, 0%nat. cbn. unfold ret, after_operations.
    rewrite Nat.add_0_r. destruct s. repeat split; try lia. discriminate.
  - rewrite detect_start_unfold.
    destruct (IH (ticked s)) as (found & n & Hrun & Hn & Hin & Hnone).
    rewrite after_operations_ticked in Hrun.
    assert (Hrest : exists found n,
               detect_start env self rest (ticked s)
               = (inr found, after_operations n s)
               /\ (Nat.min 1 (List.length (c :: rest)) <= n
                   <= List.length (c :: rest))%nat
               /\ (forall m, found = Some m -> In (m - 10) (c :: rest))
               /\ (found = None -> n = List.length (c :: rest))).
    { exists found, (S n). split; [exact Hrun|]. cbn [List.length].
      split; [lia|]. split.
      - intros m Hm. right. apply Hin. exact Hm.
      - intros Hf. rewrite (Hnone Hf). reflexivity. }
    destruct (session_head env (ticks s) (paper_url self c)) as [e|st];
      [exact Hrest|].
    destruct (st =? 200); [|exact Hrest].
    exists (Some (c + 10)), 1%nat. cbn [List.length]. split.
    + unfold after_operations, ticked. do 2 f_equal. lia.
    + split; [lia|]. split; [|discriminate].
      intros m Hm. inversion Hm; subst. left. lia.
Qed.

Lemma probe_numbers_nth (k : nat) :
  (k < 50)%nat ->
  nth_error probe_numbers k = Some (33500 - 10 * Z.of_nat k).
Proof.
  intros H. unfold probe_numbers.
  rewrite nth_error_map, nth_error_seq.
  destruct (Nat.ltb_spec k 50) as [_|Hge]; [reflexivity | lia].
Qed.

Lemma probe_numbers_range (n : Z) :
  In n probe_numbers -> 33010 <= n <= 33500 /\ n mod 10 = 0.
Proof.
  unfold probe_numbers. intros H. apply in_map_iff in H as (k & <- & Hk).
  apply in_seq in Hk. split; [lia|].
  replace (33500 - 10 * Z.of_nat k) with (0 + (3350 - Z.of_nat k) * 10) by lia.
  rewrite Z.mod_add by lia. reflexivity.
Qed.

End Detection.

(** X20. With no start number given, when the page of
    [33500 - 10 * k] is the first of the probed ones to answer 200 to a
    [HEAD] request (the ones before answer something else or the request
    raises), the scan starts ten above it, after [k + 1] requests. *)
Theorem X20_first_probe_answering_decides
    (env : Env) (self : NBERScraper) (k : nat) (s : State) :
  (k < 50)%nat ->
  (forall i, (i < k)%nat ->
             session_head env (ticks s + i)
               (paper_url self (33500 - 10 * Z.of_nat i)) <> inr 200) ->
  session_head env (ticks s + k) (paper_url self (33500 - 10 * Z.of_nat k))
  = inr 200 ->
  resolve_start env self None s
  = (inr (33510 - 10 * Z.of_nat k), after_operations (S k) s).
Proof.
  intros Hk Hbefore Hhit. unfold resolve_start, bind.
  rewrite (detect_start_first env self probe_numbers k
             (33500 - 10 * Z.of_nat k) s).
  - unfold ret. do 2 f_equal. lia.
  - apply probe_numbers_nth. exact Hk.
  - intros i ci Hi Hci. rewrite probe_numbers_nth in Hci by lia.
    inversion Hci; subst ci. apply Hbefore. exact Hi.
  - exact Hhit.
Qed.

(** X21. With no start number given, finding the start never raises: it
    gives a multiple of ten from 33020 to 33510, after at least one and
    at most 50 [HEAD] requests and nothing else. *)
Theorem X21_detected_start_range (env : Env) (self : NBERScraper) (s : State) :
  exists start n,
    resolve_start env self None s = (inr start, after_operations n s)
    /\ 33020 <= start <= 33510
    /\ start mod 10 = 0
    /\ (1 <= n <= 50)%nat.
Proof.
  destruct (detect_start_total env self probe_numbers s)
    as (found & n & Hrun & Hn & Hin & _).
  change (List.length probe_numbers) with 50%nat in Hn.
  change (Nat.min 1 50) with 1%nat in Hn.
  unfold resolve_start, bind. rewrite Hrun.
  destruct found as [m|].
  - exists m, n. split; [reflexivity|].
    destruct (probe_numbers_range (m - 10) (Hin m eq_refl)) as [Hr Hm].
    split; [lia|]. split; [|exact Hn].
    replace m with (m - 10 + 1 * 10) by lia.
    rewrite Z.mod_add by lia. exact Hm.
  - exists fallback_start, n. split; [reflexivity|].
    unfold fallback_start. split; [lia|]. split; [reflexivity | exact Hn].
Qed.

Lemma X20_witness :
  resolve_start env_probe Scenario.plain_scraper None init_state
  = (inr 33490, after_operations 3 init_state).
Proof.
  apply (X20_first_probe_answering_decides env_probe Scenario.plain_scraper 2
           init_state).
  - lia.
  - intros i Hi. destruct i as [|[|i]].
    + vm_compute. discriminate.
    + vm_compute. discriminate.
    + lia.
  - reflexivity.
Defined.

Section Script.

Variable env : Env.


(** The turns that end normally only add papers that have a title. *)
Lemma scan_loop_titles (self : NBERScraper) (mp mg : option Z) (dl : bool)
    (fuel : nat) (v0 v : loop_vars) (s0 s' : State) (why : stop_reason) :
  scan_loop env self mp mg dl fuel v0 s0 = (inr (why, v), s') ->
  exists added,
    papers s' = papers s0 ++ added
    /\ Forall (fun p => has_title p = true) added.
Proof.
  apply (scan_loop_inv env self
           (fun (_ : loop_vars) s =>
              exists added,
                papers s = papers s0 ++ added
                /\ Forall (fun p => has_title p = true) added)).
  - intros v1 s1 v2 s2 _ (added & Hadd & Hall) Hit.
    apply scan_iteration_step in Hit
      as (_ & _ & [(_ & _ & Hs) | [(_ & _ & Hs) | (_ & _ & p & Hs & _ & _ & Ht)]]).
    + exists added. rewrite Hs. auto.
    + exists added. rewrite Hs. auto.
    + exists (added ++ [p]). rewrite Hs, Hadd, app_assoc.
      split; [reflexivity|]. apply Forall_app. split; [exact Hall|].
      constructor; [|constructor]. unfold has_title.
      destruct (title p); [reflexivity | contradiction].
  - exists []. rewrite app_nil_r. split; [reflexivity | constructor].
Qed.

Lemma scrape_papers_titles (self : NBERScraper) (mp mg sn : option Z)
    (dl : bool) (s s' : State) (l : list paper) :
  scrape_papers env self mp mg sn dl s = (inr l, s') ->
  exists added,
    l = papers s ++ added
    /\ Forall (fun p => has_title p = true) added.
Proof.
  intros H.
  pose proof (scrape_papers_returns_papers env self _ _ _ _ _ _ _ H) as ->.
  unfold scrape_papers in H. apply bind_inr in H as ([why v] & s1 & Hrun & H).
  unfold get_papers in H. inversion H; subst s1.
  apply scrape_run_inv in Hrun as (start & s0 & _ & Hp & Hloop).
  rewrite <- Hp. apply (scan_loop_titles _ _ _ _ _ _ _ _ _ _ Hloop).
Qed.



Variable clock : nat -> str.
Variable cfg : Settings.






End Script.

(** X22. When [scrape_papers] returns, every paper it has added to
    [self.papers] has a title: accepting a paper without one raises. *)
Theorem X22_returned_papers_have_titles
    (env : Env) (self : NBERScraper) (mp mg sn : option Z) (dl : bool)
    (s s' : State) (l : list paper) :
  scrape_papers env self mp mg sn dl s = (inr l, s') ->
  exists added,
    l = papers s ++ added
    /\ Forall (fun p => has_title p = true) added.
Proof. apply scrape_papers_titles. Qed.

Lemma X22_witness :
  exists l s',
    scrape_papers Scenario.env_two Scenario.plain_scraper None None (Some 100)
                  false init_state = (inr l, s')
    /\ Forall (fun p => has_title p = true) l.
Proof.
  destruct (scrape_papers Scenario.env_two Scenario.plain_scraper None None
              (Some 100) false init_state) as [[e|l] s'] eqn:E.
  - vm_compute in E. discriminate.
  - exists l, s'. split; [reflexivity|].
    destruct (X22_returned_papers_have_titles _ _ _ _ _ _ _ _ _ E)
      as (added & -> & H).
    exact H.
Defined.





